(** * MyTube API: the resource controllers over an explicit document store

    The controllers of [src/controllers] (tweets, playlists, likes, comments,
    videos, health check) are embedded as handlers in a small state-and-error
    monad.  The state is the document store together with a log of every
    storage call, so that "the storage layer was not touched" is a statement
    about the log.  A thrown [APIError] ends the handler and keeps whatever
    the store was at that point: the controllers use no transaction.

    Conventions of the model.
    - A stored reference and [req.user._id] are ObjectIds, held in their
      string form (what [toString()] returns).  A route or query parameter is
      the string the client sent: mongoose casts it to the ObjectId it
      spells wherever it reaches a model call or a pipeline.
    - Text coming from the request body is a JavaScript string: a sequence of
      UTF-16 code units.  A body field that is absent is [None].
    - Numbers (views, duration, timestamps) are integers.
    - mongoose's [isValidObjectId] and its cast, and the Atlas [$search]
      stage are external: they are parameters of the controllers. *)

From Stdlib Require Import List String Ascii Bool ZArith NArith Lia.
From Stdlib Require Import Sorting.Sorted Sorting.Permutation.
Import ListNotations.

Set Implicit Arguments.

(* ================================================================== *)
(** * JavaScript strings and truthiness *)

(** A string as a list of UTF-16 code units. *)
Definition jsstring := list N.

Module Js.

(** A literal with ASCII characters only. *)
Definition lit (s : string) : jsstring :=
  map N_of_ascii (list_ascii_of_string s).

(** The code units [String.prototype.trim] strips: ECMAScript's WhiteSpace
    and LineTerminator productions. *)
Definition isWhiteSpace (c : N) : bool :=
  ((9 <=? c) && (c <=? 13) || (c =? 32) || (c =? 160) || (c =? 5760)
   || (8192 <=? c) && (c <=? 8202) || (c =? 8232) || (c =? 8233)
   || (c =? 8239) || (c =? 8287) || (c =? 12288) || (c =? 65279))%N.

Fixpoint trimStart (s : jsstring) : jsstring :=
  match s with
  | c :: s' => if isWhiteSpace c then trimStart s' else s
  | [] => []
  end.

Definition trimEnd (s : jsstring) : jsstring := rev (trimStart (rev s)).

Definition trim (s : jsstring) : jsstring := trimEnd (trimStart s).

(** Comparison with the empty string. *)
Definition isEmpty (s : jsstring) : bool :=
  match s with [] => true | _ => false end.

(** Truthiness of a body or query field that is a string or absent. *)
Definition truthy (x : option jsstring) : bool :=
  match x with
  | Some s => negb (isEmpty s)
  | None => false
  end.

(** Truthiness of an identifier-valued query field. *)
Definition truthyId (x : option string) : bool :=
  match x with
  | Some s => negb (String.eqb s EmptyString)
  | None => false
  end.

(** The guard every controller uses for a required text field:
    [!x], or [x.trim()] is the empty string. *)
Definition missingOrBlank (x : option jsstring) : bool :=
  negb (truthy x) ||
  match x with
  | Some s => isEmpty (trim s)
  | None => false
  end.

(** [x || d] for strings. *)
Definition orElse (x : option jsstring) (d : jsstring) : jsstring :=
  match x with
  | Some s => if isEmpty s then d else s
  | None => d
  end.

(** Lexicographic order on code units, used when the store sorts on a text
    field. *)
Fixpoint leb (s t : jsstring) : bool :=
  match s, t with
  | [], _ => true
  | _ :: _, [] => false
  | c :: s', d :: t' => (c <? d)%N || ((c =? d)%N && leb s' t')
  end.

End Js.

(** An ObjectId in its string form. *)
Definition ObjectId := string.

(* ================================================================== *)
(** * Response envelope and error model *)

(** Modelled from the spec: [utils/apiResponse.js] is not among the sources.
    The envelope carries the status, the data and the message verbatim, and
    [success] is [statusCode < 400]. *)
Module Envelope.

Record APIResponse (D : Type) : Type := mkAPIResponse {
  statusCode : Z;
  data : D;
  message : string;
  success : bool
}.

Definition new {D} (code : Z) (d : D) (msg : string) : APIResponse D :=
  {| statusCode := code; data := d; message := msg;
     success := (code <? 400)%Z |}.

End Envelope.

(** Modelled from the spec: [utils/apiError.js] is not among the sources.
    An error carries an HTTP status code and a message; its data is empty and
    its success flag is false, so neither is a field here. *)
Record APIError : Type := mkAPIError {
  errStatus : Z;
  errMessage : string
}.

(** What [res.status(c).json(body)] sends. *)
Record Response (D : Type) : Type := mkResponse {
  status : Z;
  json : Envelope.APIResponse D
}.

Definition respond {D} (code : Z) (d : D) (msg : string) : Response D :=
  {| status := code; json := Envelope.new code d msg |}.

(* ================================================================== *)
(** * Documents

    Modelled from the spec: the schemas ([models/*.model.js]) are not among
    the sources.  Each record has the fields the controllers and the spec's
    data model name; every schema keeps timestamps, and no field has a setter
    that rewrites the value it is given. *)

Module User.
Record t : Type := mk {
  _id : ObjectId;
  username : string;
  fullName : string;
  avatar : string
}.
End User.

Module Subscription.
Record t : Type := mk {
  channel : ObjectId;
  subscriber : ObjectId
}.
End Subscription.

Module Like.
(** The liked state of a (target, user) pair is the presence of a record:
    there is no flag among the fields. *)
Record t : Type := mk {
  _id : ObjectId;
  video : option ObjectId;
  comment : option ObjectId;
  tweet : option ObjectId;
  likedBy : ObjectId;
  createdAt : Z;
  updatedAt : Z
}.
End Like.

Module Tweet.
Record t : Type := mk {
  _id : ObjectId;
  content : jsstring;
  owner : ObjectId;
  createdAt : Z;
  updatedAt : Z
}.
End Tweet.

Module Comment.
Record t : Type := mk {
  _id : ObjectId;
  content : jsstring;
  video : ObjectId;
  owner : ObjectId;
  createdAt : Z;
  updatedAt : Z
}.
End Comment.

Module Playlist.
Record t : Type := mk {
  _id : ObjectId;
  name : jsstring;
  description : jsstring;
  owner : ObjectId;
  videos : list ObjectId;
  createdAt : Z;
  updatedAt : Z
}.
End Playlist.

Module Video.
Record t : Type := mk {
  _id : ObjectId;
  videoFile : string;
  thumbnail : string;
  title : jsstring;
  description : jsstring;
  duration : Z;
  views : Z;
  isPublished : bool;
  owner : ObjectId;
  createdAt : Z;
  updatedAt : Z
}.
End Video.

(* ================================================================== *)
(** * The store and the storage log *)

Record Store : Type := mkStore {
  users : list User.t;
  subscriptions : list Subscription.t;
  likes : list Like.t;
  tweets : list Tweet.t;
  comments : list Comment.t;
  playlists : list Playlist.t;
  videos : list Video.t
}.

Inductive Coll : Type :=
  Users | Subscriptions | Likes | Tweets | Comments | Playlists | Videos.

(** One entry per call that reaches the storage layer. *)
Inductive Access : Type :=
| Read (c : Coll) (joined : list Coll)
| Write (c : Coll).

Record World : Type := mkWorld {
  db : Store;
  log : list Access
}.

(** What a mongoose model offers the controllers: its collection inside the
    store, the identifier of a document, and the timestamp an update sets. *)
Class Model (D : Type) : Type := {
  collection : Coll;
  docs : Store -> list D;
  setDocs : list D -> Store -> Store;
  docId : D -> ObjectId;
  touch : Z -> D -> D
}.

#[export] Instance LikeModel : Model Like.t := {|
  collection := Likes;
  docs := likes;
  setDocs l s := mkStore (users s) (subscriptions s) l (tweets s)
                         (comments s) (playlists s) (videos s);
  docId := Like._id;
  touch now d := Like.mk (Like._id d) (Like.video d) (Like.comment d)
                         (Like.tweet d) (Like.likedBy d) (Like.createdAt d) now
|}.

#[export] Instance TweetModel : Model Tweet.t := {|
  collection := Tweets;
  docs := tweets;
  setDocs l s := mkStore (users s) (subscriptions s) (likes s) l
                         (comments s) (playlists s) (videos s);
  docId := Tweet._id;
  touch now d := Tweet.mk (Tweet._id d) (Tweet.content d) (Tweet.owner d)
                          (Tweet.createdAt d) now
|}.

#[export] Instance CommentModel : Model Comment.t := {|
  collection := Comments;
  docs := comments;
  setDocs l s := mkStore (users s) (subscriptions s) (likes s) (tweets s)
                         l (playlists s) (videos s);
  docId := Comment._id;
  touch now d := Comment.mk (Comment._id d) (Comment.content d)
                            (Comment.video d) (Comment.owner d)
                            (Comment.createdAt d) now
|}.

#[export] Instance PlaylistModel : Model Playlist.t := {|
  collection := Playlists;
  docs := playlists;
  setDocs l s := mkStore (users s) (subscriptions s) (likes s) (tweets s)
                         (comments s) l (videos s);
  docId := Playlist._id;
  touch now d := Playlist.mk (Playlist._id d) (Playlist.name d)
                             (Playlist.description d) (Playlist.owner d)
                             (Playlist.videos d) (Playlist.createdAt d) now
|}.

#[export] Instance VideoModel : Model Video.t := {|
  collection := Videos;
  docs := videos;
  setDocs l s := mkStore (users s) (subscriptions s) (likes s) (tweets s)
                         (comments s) (playlists s) l;
  docId := Video._id;
  touch now d := Video.mk (Video._id d) (Video.videoFile d) (Video.thumbnail d)
                          (Video.title d) (Video.description d)
                          (Video.duration d) (Video.views d)
                          (Video.isPublished d) (Video.owner d)
                          (Video.createdAt d) now
|}.

(* ================================================================== *)
(** * Handlers: state and error, threaded by hand *)

Definition Handler (A : Type) : Type := World -> (APIError + A) * World.

Definition ret {A} (a : A) : Handler A := fun w => (inr a, w).

Definition bind {A B} (m : Handler A) (k : A -> Handler B) : Handler B :=
  fun w =>
    match m w with
    | (inr a, w') => k a w'
    | (inl e, w') => (inl e, w')
    end.

(** [throw new APIError(code, msg)] *)
Definition throw {A} (code : Z) (msg : string) : Handler A :=
  fun w => (inl (mkAPIError code msg), w).

(** [if (b) throw new APIError(code, msg)] *)
Definition throwIf (b : bool) (code : Z) (msg : string) : Handler unit :=
  if b then throw code msg else ret tt.

Declare Scope handler_scope.
Delimit Scope handler_scope with handler.
Notation "x <- m ;; k" := (bind m (fun x => k))
  (at level 61, m at next level, right associativity) : handler_scope.
Notation "m ;; k" := (bind m (fun _ => k))
  (at level 61, right associativity) : handler_scope.
Open Scope handler_scope.

(** The two doors to the storage layer.  Every model operation below goes
    through one of them, and both leave an entry in the log. *)
Definition storageRead {A} (c : Coll) (joined : list Coll) (f : Store -> A)
  : Handler A :=
  fun w => (inr (f (db w)), mkWorld (db w) (log w ++ [Read c joined])).

Definition storageWrite {A} (c : Coll) (f : Store -> Store * A) : Handler A :=
  fun w =>
    let (s', a) := f (db w) in
    (inr a, mkWorld s' (log w ++ [Write c])).

(** ** List helpers of the storage engine *)

Fixpoint removeFirst {A} (p : A -> bool) (l : list A) : list A :=
  match l with
  | [] => []
  | x :: l' => if p x then l' else x :: removeFirst p l'
  end.

Fixpoint updateFirst {A} (p : A -> bool) (f : A -> A) (l : list A) : list A :=
  match l with
  | [] => []
  | x :: l' => if p x then f x :: l' else x :: updateFirst p f l'
  end.

(** [$sort]: a stable insertion sort on the order [leb]. *)
Fixpoint insertBy {A} (leb : A -> A -> bool) (x : A) (l : list A) : list A :=
  match l with
  | [] => [x]
  | y :: l' => if leb x y then x :: l else y :: insertBy leb x l'
  end.

Fixpoint sortDocs {A} (leb : A -> A -> bool) (l : list A) : list A :=
  match l with
  | [] => []
  | x :: l' => insertBy leb x (sortDocs leb l')
  end.

(** [{ createdAt: -1 }] *)
Definition newestFirst {A} (createdAt : A -> Z) (x y : A) : bool :=
  (createdAt y <=? createdAt x)%Z.

(** ** Model operations *)

(** The identifier these operations take is an ObjectId: a controller that
    hands them a route string hands it through the cast, as mongoose does
    when it builds the query. *)

Section ModelOps.
Context {D : Type} `{Model D}.

(** Equality of two ObjectIds, on their string forms. *)
Definition hasId (id : ObjectId) (d : D) : bool := String.eqb (docId d) id.

Definition findById (id : ObjectId) : Handler (option D) :=
  storageRead collection [] (fun s => find (hasId id) (docs s)).

Definition findOne (p : D -> bool) : Handler (option D) :=
  storageRead collection [] (fun s => find p (docs s)).

(** The created document is what [create] resolves to. *)
Definition create (d : D) : Handler (option D) :=
  storageWrite collection (fun s => (setDocs (docs s ++ [d]) s, Some d)).

Definition findByIdAndDelete (id : ObjectId) : Handler (option D) :=
  storageWrite collection
    (fun s => (setDocs (removeFirst (hasId id) (docs s)) s,
               find (hasId id) (docs s))).

(** [returnNew] is the option [{ new: true }]. *)
Definition findByIdAndUpdate (now : Z) (id : ObjectId) (f : D -> D)
           (returnNew : bool) : Handler (option D) :=
  storageWrite collection
    (fun s =>
       let l := updateFirst (hasId id) (fun d => touch now (f d)) (docs s) in
       (setDocs l s, find (hasId id) (if returnNew then l else docs s))).

(** An aggregation pipeline over this collection, possibly joining
    others. *)
Definition aggregate {R} (joined : list Coll)
           (pipeline : Store -> list D -> list R) : Handler (list R) :=
  storageRead collection joined (fun s => pipeline s (docs s)).

End ModelOps.

(** Modelled from the spec: the pagination plugin is not among the sources.
    Page/limit pagination over the pipeline's result, with the page metadata
    next to the sequence. *)
Record Page (R : Type) : Type := mkPage {
  pageDocs : list R;
  totalDocs : nat;
  pageLimit : nat;
  pageNumber : nat
}.

Definition paginate {R} (page limit : nat) (l : list R) : Page R :=
  {| pageDocs := firstn limit (skipn ((page - 1) * limit) l);
     totalDocs := List.length l;
     pageLimit := limit;
     pageNumber := page |}.

Definition aggregatePaginate {D R} `{Model D} (joined : list Coll)
           (pipeline : Store -> list D -> list R) (page limit : nat)
  : Handler (Page R) :=
  storageRead collection joined
              (fun s => paginate page limit (pipeline s (docs s))).

(* ================================================================== *)
(** * Read models *)

(** The public fields of a user: [$project { username, fullName, avatar }]. *)
Record OwnerCard : Type := mkOwnerCard {
  cardId : ObjectId;
  cardUsername : string;
  cardFullName : string;
  cardAvatar : string
}.

Definition ownerCard (u : User.t) : OwnerCard :=
  mkOwnerCard (User._id u) (User.username u) (User.fullName u) (User.avatar u).

(** [$lookup] from users on [_id], then [$first]. *)
Definition lookupOwner (s : Store) (owner : ObjectId) : option OwnerCard :=
  hd_error
    (map ownerCard
         (filter (fun u => String.eqb (User._id u) owner) (users s))).

(** A document whose [owner] field was replaced by the joined card. *)
Record WithOwner (D : Type) : Type := mkWithOwner {
  doc : D;
  ownerInfo : option OwnerCard
}.

Record TweetView : Type := mkTweetView {
  tvId : ObjectId;
  tvContent : jsstring;
  tvOwner : option OwnerCard;
  tvLikesCount : nat;
  tvCreatedAt : Z
}.

Record LikedVideo : Type := mkLikedVideo {
  lvId : ObjectId;
  lvVideo : option (WithOwner Video.t);
  lvCreatedAt : Z
}.

Record PlaylistSummary : Type := mkPlaylistSummary {
  psId : ObjectId;
  psName : jsstring;
  psDescription : jsstring;
  psTotalVideos : nat;
  psTotalViews : Z;
  psCreatedAt : Z;
  psUpdatedAt : Z
}.

Record PlaylistDetail : Type := mkPlaylistDetail {
  pdPlaylist : Playlist.t;
  pdVideos : list (WithOwner Video.t);
  pdOwner : option OwnerCard;
  pdTotalVideos : nat;
  pdTotalViews : Z
}.

Record ChannelCard : Type := mkChannelCard {
  chId : ObjectId;
  chUsername : string;
  chFullName : string;
  chAvatar : string;
  chSubscribersCount : nat;
  chIsSubscribed : bool
}.

Record VideoDetail : Type := mkVideoDetail {
  vdId : ObjectId;
  vdVideoFile : string;
  vdThumbnail : string;
  vdTitle : jsstring;
  vdDescription : jsstring;
  vdDuration : Z;
  vdViews : Z;
  vdOwner : option ChannelCard;
  vdLikesCount : nat;
  vdIsLiked : bool;
  vdCreatedAt : Z;
  vdUpdatedAt : Z
}.

(** The [data] of an envelope.  A document read back from the store may be
    [null]. *)
Inductive Data : Type :=
| DEmpty
| DIsLiked (isLiked : bool)
| DTweet (t : option Tweet.t)
| DComment (c : option Comment.t)
| DPlaylist (p : option Playlist.t)
| DVideo (v : option Video.t)
| DTweets (l : list TweetView)
| DComments (p : Page (WithOwner Comment.t))
| DLikedVideos (l : list LikedVideo)
| DPlaylists (l : list PlaylistSummary)
| DPlaylistDetail (p : PlaylistDetail)
| DVideos (p : Page (WithOwner Video.t))
| DVideoDetail (v : VideoDetail).

(* ================================================================== *)
(** * The order the store sorts documents in *)

(** The value of a field of a document, as far as [$sort] compares it. *)
Inductive Value : Type :=
| VMissing
| VNum (z : Z)
| VStr (s : string)
| VText (s : jsstring)
| VId (i : ObjectId)
| VBool (b : bool)
| VDate (t : Z).

(** Values of different types compare by type. *)
Definition typeRank (v : Value) : nat :=
  match v with
  | VMissing => 0
  | VNum _ => 1
  | VStr _ | VText _ => 2
  | VId _ => 3
  | VBool _ => 4
  | VDate _ => 5
  end.

Definition valueLeb (a b : Value) : bool :=
  match a, b with
  | VNum x, VNum y => (x <=? y)%Z
  | VStr s, VStr t => String.leb s t
  | VText s, VText t => Js.leb s t
  | VId i, VId j => String.leb i j
  | VBool x, VBool y => implb x y
  | VDate s, VDate t => (s <=? t)%Z
  | VStr _, VText _ => true
  | VText _, VStr _ => true
  | _, _ => Nat.leb (typeRank a) (typeRank b)
  end.

Definition videoField (field : string) (v : Video.t) : Value :=
  if String.eqb field "_id" then VId (Video._id v)
  else if String.eqb field "videoFile" then VStr (Video.videoFile v)
  else if String.eqb field "thumbnail" then VStr (Video.thumbnail v)
  else if String.eqb field "title" then VText (Video.title v)
  else if String.eqb field "description" then VText (Video.description v)
  else if String.eqb field "duration" then VNum (Video.duration v)
  else if String.eqb field "views" then VNum (Video.views v)
  else if String.eqb field "isPublished" then VBool (Video.isPublished v)
  else if String.eqb field "owner" then VId (Video.owner v)
  else if String.eqb field "createdAt" then VDate (Video.createdAt v)
  else if String.eqb field "updatedAt" then VDate (Video.updatedAt v)
  else VMissing.

(** [{ field: 1 }] when [ascending], [{ field: -1 }] otherwise. *)
Definition byField {D} (get : D -> Value) (ascending : bool) (x y : D) : bool :=
  if ascending then valueLeb (get x) (get y) else valueLeb (get y) (get x).

(* ================================================================== *)
(** * Requests *)

(** What the middleware and the driver hand to a controller besides the
    route, query and body fields: the authenticated user, the [_id] the
    driver gives a document created while serving the request, and the
    clock the timestamps are taken from. *)
Record Request : Type := mkRequest {
  user : ObjectId;
  freshId : ObjectId;
  clock : Z
}.

(** [req.query] of the video listing. *)
Module VideoQuery.
Record t : Type := mk {
  page : option nat;
  limit : option nat;
  query : option jsstring;
  sortBy : option string;
  sortType : option string;
  userId : option string
}.
End VideoQuery.

(** The result of an upload to the media store. *)
Record Upload : Type := mkUpload {
  url : string;
  uploadDuration : option Z
}.

Definition orDefault {A} (x : option A) (d : A) : A :=
  match x with Some a => a | None => d end.

Definition isNull {A} (x : option A) : bool :=
  match x with Some _ => false | None => true end.

(** A field of a stored document equals the given identifier. *)
Definition refIs (field : option ObjectId) (id : ObjectId) : bool :=
  match field with Some r => String.eqb r id | None => false end.

(* ================================================================== *)
(** * The operations of the API *)

(** One constructor per exported controller, with the route, query and body
    fields it reads. *)
Inductive Operation : Type :=
| ToggleVideoLike (videoId : string)
| ToggleCommentLike (commentId : string)
| ToggleTweetLike (tweetId : string)
| GetLikedVideos
| CreatePlaylist (name description : option jsstring)
| GetUserPlaylists (userId : string)
| GetPlaylistById (playlistId : string)
| AddVideoToPlaylist (playlistId videoId : string)
| RemoveVideoFromPlaylist (playlistId videoId : string)
| DeletePlaylist (playlistId : string)
| UpdatePlaylist (playlistId : string) (name description : option jsstring)
| GetVideoComments (videoId : string) (page limit : option nat)
| AddComment (videoId : string) (content : option jsstring)
| UpdateComment (commentId : string) (content : option jsstring)
| DeleteComment (commentId : string)
| CreateTweet (content : option jsstring)
| GetUserTweets (userId : string)
| UpdateTweet (tweetId : string) (content : option jsstring)
| DeleteTweet (tweetId : string)
| GetAllVideos (q : VideoQuery.t)
| PublishAVideo (title description : option jsstring)
                (videoFileLocalPath thumbnailLocalPath : option string)
| GetVideoById (viewer : option ObjectId) (videoId : string)
| UpdateVideo (videoId : string) (title description : option jsstring)
              (thumbnailLocalPath : option string)
| DeleteVideo (videoId : string)
| TogglePublishStatus (videoId : string)
| Healthcheck.

(** The identifier parameters an operation is given.  The [userId] filter of
    the video listing is an identifier of the request only when it is
    truthy: the controller reads an empty value as no filter. *)
Definition identifiers (op : Operation) : list string :=
  match op with
  | ToggleVideoLike i | ToggleCommentLike i | ToggleTweetLike i
  | GetUserPlaylists i | GetPlaylistById i | DeletePlaylist i
  | UpdatePlaylist i _ _ | GetVideoComments i _ _ | AddComment i _
  | UpdateComment i _ | DeleteComment i | GetUserTweets i | UpdateTweet i _
  | DeleteTweet i | GetVideoById _ i | UpdateVideo i _ _ _ | DeleteVideo i
  | TogglePublishStatus i => [i]
  | AddVideoToPlaylist p v | RemoveVideoFromPlaylist p v => [p; v]
  | GetAllVideos q =>
      if Js.truthyId (VideoQuery.userId q)
      then [orDefault (VideoQuery.userId q) EmptyString]
      else []
  | GetLikedVideos | CreatePlaylist _ _ | CreateTweet _
  | PublishAVideo _ _ _ _ | Healthcheck => []
  end.

(** The text fields an operation requires. *)
Definition requiredText (op : Operation) : list (option jsstring) :=
  match op with
  | CreatePlaylist t _ | UpdatePlaylist _ t _ | AddComment _ t
  | UpdateComment _ t | CreateTweet t | UpdateTweet _ t
  | PublishAVideo t _ _ _ | UpdateVideo _ t _ _ => [t]
  | _ => []
  end.

Inductive Entity : Type := ETweet | EPlaylist | EComment | EVideo.

(** The record an operation changes or deletes, for the operations that
    change or delete a record somebody owns. *)
Definition mutationTarget (op : Operation) : option (Entity * string) :=
  match op with
  | UpdateTweet i _ | DeleteTweet i => Some (ETweet, i)
  | AddVideoToPlaylist i _ | RemoveVideoFromPlaylist i _ | DeletePlaylist i
  | UpdatePlaylist i _ _ => Some (EPlaylist, i)
  | UpdateComment i _ | DeleteComment i => Some (EComment, i)
  | UpdateVideo i _ _ _ | DeleteVideo i | TogglePublishStatus i =>
      Some (EVideo, i)
  | _ => None
  end.

(** The stored owner of the record with that identifier, if there is one. *)
Definition storedOwner (e : Entity) (id : ObjectId) (s : Store)
  : option ObjectId :=
  match e with
  | ETweet => option_map Tweet.owner (find (hasId id) (tweets s))
  | EPlaylist => option_map Playlist.owner (find (hasId id) (playlists s))
  | EComment => option_map Comment.owner (find (hasId id) (comments s))
  | EVideo => option_map Video.owner (find (hasId id) (videos s))
  end.

(** The collection an entity is stored in. *)
Definition entityColl (e : Entity) : Coll :=
  match e with
  | ETweet => Tweets
  | EPlaylist => Playlists
  | EComment => Comments
  | EVideo => Videos
  end.

(* ================================================================== *)
(** * The controllers *)

Section Controllers.

(** mongoose's format check on an identifier. *)
Variable isValidObjectId : string -> bool.

(** mongoose's cast of a route or query string to the ObjectId it spells.
    Every model call ([findById], [findOne], [create], [$push], [$pull], ...)
    and every [new mongoose.Types.ObjectId(..)] of a pipeline applies it to
    the string it is given; [Array.prototype.includes] does not. *)
Variable castObjectId : string -> ObjectId.

(** The [$search] stage of the video listing (text index "search-videos"). *)
Variable search : jsstring -> list Video.t -> list Video.t.

(** The upload to the media store; [None] when it fails. *)
Variable uploadOnCloudinary : string -> option Upload.

(** ** like.controller.js *)

Definition toggleVideoLike (req : Request) (videoId : string)
  : Handler (Response Data) :=
  throwIf (negb (isValidObjectId videoId)) 400 "Invalid video ID" ;;
  existingLike <- findOne (fun l : Like.t =>
                             refIs (Like.video l) (castObjectId videoId)
                             && String.eqb (Like.likedBy l) (user req)) ;;
  match existingLike with
  | Some l =>
      findByIdAndDelete (D := Like.t) (Like._id l) ;;
      ret (respond 200 (DIsLiked false) "Video unliked successfully")
  | None =>
      create (Like.mk (freshId req) (Some (castObjectId videoId)) None None
                  (user req)
                      (clock req) (clock req)) ;;
      ret (respond 201 (DIsLiked true) "Video liked successfully")
  end.

Definition toggleCommentLike (req : Request) (commentId : string)
  : Handler (Response Data) :=
  throwIf (negb (isValidObjectId commentId)) 400 "Invalid comment ID" ;;
  existingLike <- findOne (fun l : Like.t =>
                             refIs (Like.comment l) (castObjectId commentId)
                             && String.eqb (Like.likedBy l) (user req)) ;;
  match existingLike with
  | Some l =>
      findByIdAndDelete (D := Like.t) (Like._id l) ;;
      ret (respond 200 (DIsLiked false) "Comment unliked successfully")
  | None =>
      create (Like.mk (freshId req) None (Some (castObjectId commentId)) None
                  (user req)
                      (clock req) (clock req)) ;;
      ret (respond 201 (DIsLiked true) "Comment liked successfully")
  end.

Definition toggleTweetLike (req : Request) (tweetId : string)
  : Handler (Response Data) :=
  throwIf (negb (isValidObjectId tweetId)) 400 "Invalid tweet ID" ;;
  existingLike <- findOne (fun l : Like.t =>
                             refIs (Like.tweet l) (castObjectId tweetId)
                             && String.eqb (Like.likedBy l) (user req)) ;;
  match existingLike with
  | Some l =>
      findByIdAndDelete (D := Like.t) (Like._id l) ;;
      ret (respond 200 (DIsLiked false) "Tweet unliked successfully")
  | None =>
      create (Like.mk (freshId req) None None (Some (castObjectId tweetId))
                  (user req)
                      (clock req) (clock req)) ;;
      ret (respond 201 (DIsLiked true) "Tweet liked successfully")
  end.

(** [$lookup] of a video with its owner's card, then [$first]. *)
Definition videoWithOwner (s : Store) (v : Video.t) : WithOwner Video.t :=
  mkWithOwner v (lookupOwner s (Video.owner v)).

Definition lookupVideo (s : Store) (id : ObjectId)
  : option (WithOwner Video.t) :=
  hd_error
    (map (videoWithOwner s)
         (filter (fun v => String.eqb (Video._id v) id) (videos s))).

Definition likedVideosPipeline (req : Request) (s : Store) (l : list Like.t)
  : list LikedVideo :=
  sortDocs (newestFirst lvCreatedAt)
    (map (fun k =>
            mkLikedVideo (Like._id k)
                         (match Like.video k with
                          | Some v => lookupVideo s v
                          | None => None
                          end)
                         (Like.createdAt k))
         (filter (fun k => String.eqb (Like.likedBy k) (user req)
                           && negb (isNull (Like.video k))) l)).

Definition getLikedVideos (req : Request) : Handler (Response Data) :=
  likedVideos <- aggregate (D := Like.t) [Videos; Users]
                           (likedVideosPipeline req) ;;
  ret (respond 200 (DLikedVideos likedVideos)
               "Liked videos fetched successfully").

(** ** playlist.controller.js *)

Definition createPlaylist (req : Request) (name description : option jsstring)
  : Handler (Response Data) :=
  throwIf (Js.missingOrBlank name) 400 "Playlist name is required" ;;
  playlist <- create (Playlist.mk (freshId req) (orDefault name [])
                                  (Js.orElse description []) (user req) []
                                  (clock req) (clock req)) ;;
  throwIf (isNull playlist) 500 "Failed to create playlist" ;;
  ret (respond 201 (DPlaylist playlist) "Playlist created successfully").

(** [$lookup] from videos with [localField: "videos"]. *)
Definition playlistVideos (s : Store) (p : Playlist.t) : list Video.t :=
  filter (fun v => existsb (String.eqb (Video._id v)) (Playlist.videos p))
         (videos s).

Definition sumViews (l : list Video.t) : Z :=
  fold_right (fun v acc => (Video.views v + acc)%Z) 0%Z l.

(** The pipeline has four stages: match, lookup, addFields, project. *)
Definition userPlaylistsPipeline (userId : string) (s : Store)
           (l : list Playlist.t) : list PlaylistSummary :=
  map (fun p =>
         let vs := playlistVideos s p in
         mkPlaylistSummary (Playlist._id p) (Playlist.name p)
                           (Playlist.description p) (List.length vs)
                           (sumViews vs) (Playlist.createdAt p)
                           (Playlist.updatedAt p))
      (filter (fun p => String.eqb (Playlist.owner p) (castObjectId userId)) l).

Definition getUserPlaylists (userId : string) : Handler (Response Data) :=
  throwIf (negb (isValidObjectId userId)) 400 "Invalid user ID" ;;
  playlists <- aggregate (D := Playlist.t) [Videos]
                         (userPlaylistsPipeline userId) ;;
  ret (respond 200 (DPlaylists playlists)
               "User playlists fetched successfully").

Definition playlistDetailPipeline (playlistId : string) (s : Store)
           (l : list Playlist.t) : list PlaylistDetail :=
  map (fun p =>
         let vs := playlistVideos s p in
         mkPlaylistDetail p (map (videoWithOwner s) vs)
                          (lookupOwner s (Playlist.owner p))
                          (List.length vs) (sumViews vs))
      (filter (fun p => String.eqb (Playlist._id p) (castObjectId playlistId))
          l).

Definition getPlaylistById (playlistId : string) : Handler (Response Data) :=
  throwIf (negb (isValidObjectId playlistId)) 400 "Invalid playlist ID" ;;
  playlist <- aggregate (D := Playlist.t) [Videos; Users]
                        (playlistDetailPipeline playlistId) ;;
  match playlist with
  | [] => throw 404 "Playlist not found"
  | p :: _ => ret (respond 200 (DPlaylistDetail p)
                           "Playlist fetched successfully")
  end.

Definition setVideos (vs : list ObjectId) (p : Playlist.t) : Playlist.t :=
  Playlist.mk (Playlist._id p) (Playlist.name p) (Playlist.description p)
              (Playlist.owner p) vs (Playlist.createdAt p)
              (Playlist.updatedAt p).

(** [$push: { videos: videoId }], on the ObjectId the update casts
    [videoId] to. *)
Definition pushVideo (video : ObjectId) (p : Playlist.t) : Playlist.t :=
  setVideos (Playlist.videos p ++ [video]) p.

(** [$pull: { videos: videoId }], on the ObjectId the update casts
    [videoId] to: every occurrence goes. *)
Definition pullVideo (video : ObjectId) (p : Playlist.t) : Playlist.t :=
  setVideos (filter (fun v => negb (String.eqb v video))
                    (Playlist.videos p)) p.

(** [playlist.videos.includes(videoId)]: the route string as it came,
    compared with the string form of each stored reference. *)
Definition includes (vs : list ObjectId) (videoId : string) : bool :=
  existsb (fun v => String.eqb v videoId) vs.

Definition addVideoToPlaylist (req : Request) (playlistId videoId : string)
  : Handler (Response Data) :=
  throwIf (negb (isValidObjectId playlistId)
           || negb (isValidObjectId videoId))
          400 "Invalid playlist or video ID" ;;
  playlist <- findById (D := Playlist.t) (castObjectId playlistId) ;;
  match playlist with
  | None => throw 404 "Playlist not found"
  | Some playlist =>
      throwIf (negb (String.eqb (Playlist.owner playlist) (user req)))
              403 "You are not authorized to update this playlist" ;;
      throwIf (includes (Playlist.videos playlist) videoId)
              400 "Video already exists in playlist" ;;
      updatedPlaylist <- findByIdAndUpdate (clock req)
                                           (castObjectId playlistId)
                                           (pushVideo (castObjectId videoId))
                                           true ;;
      ret (respond 200 (DPlaylist updatedPlaylist)
                   "Video added to playlist successfully")
  end.

Definition removeVideoFromPlaylist (req : Request)
           (playlistId videoId : string) : Handler (Response Data) :=
  throwIf (negb (isValidObjectId playlistId)
           || negb (isValidObjectId videoId))
          400 "Invalid playlist or video ID" ;;
  playlist <- findById (D := Playlist.t) (castObjectId playlistId) ;;
  match playlist with
  | None => throw 404 "Playlist not found"
  | Some playlist =>
      throwIf (negb (String.eqb (Playlist.owner playlist) (user req)))
              403 "You are not authorized to update this playlist" ;;
      updatedPlaylist <- findByIdAndUpdate (clock req)
                                           (castObjectId playlistId)
                                           (pullVideo (castObjectId videoId))
                                           true ;;
      ret (respond 200 (DPlaylist updatedPlaylist)
                   "Video removed from playlist successfully")
  end.

Definition deletePlaylist (req : Request) (playlistId : string)
  : Handler (Response Data) :=
  throwIf (negb (isValidObjectId playlistId)) 400 "Invalid playlist ID" ;;
  playlist <- findById (D := Playlist.t) (castObjectId playlistId) ;;
  match playlist with
  | None => throw 404 "Playlist not found"
  | Some playlist =>
      throwIf (negb (String.eqb (Playlist.owner playlist) (user req)))
              403 "You are not authorized to delete this playlist" ;;
      findByIdAndDelete (D := Playlist.t) (castObjectId playlistId) ;;
      ret (respond 200 DEmpty "Playlist deleted successfully")
  end.

Definition setNameDescription (name description : jsstring) (p : Playlist.t)
  : Playlist.t :=
  Playlist.mk (Playlist._id p) name description (Playlist.owner p)
              (Playlist.videos p) (Playlist.createdAt p)
              (Playlist.updatedAt p).

(** The name is checked before the identifier. *)
Definition updatePlaylist (req : Request) (playlistId : string)
           (name description : option jsstring) : Handler (Response Data) :=
  throwIf (Js.missingOrBlank name) 400 "Playlist name is required" ;;
  throwIf (negb (isValidObjectId playlistId)) 400 "Invalid playlist ID" ;;
  playlist <- findById (D := Playlist.t) (castObjectId playlistId) ;;
  match playlist with
  | None => throw 404 "Playlist not found"
  | Some playlist =>
      throwIf (negb (String.eqb (Playlist.owner playlist) (user req)))
              403 "You are not authorized to update this playlist" ;;
      updatedPlaylist <-
        findByIdAndUpdate (clock req) (castObjectId playlistId)
          (setNameDescription
             (orDefault name [])
             (Js.orElse description (Playlist.description playlist)))
          true ;;
      ret (respond 200 (DPlaylist updatedPlaylist)
                   "Playlist updated successfully")
  end.

(** ** comment.controller.js *)

Definition commentWithOwner (s : Store) (c : Comment.t)
  : WithOwner Comment.t :=
  mkWithOwner c (lookupOwner s (Comment.owner c)).

Definition videoCommentsPipeline (videoId : string) (s : Store)
           (l : list Comment.t) : list (WithOwner Comment.t) :=
  sortDocs (newestFirst (fun c => Comment.createdAt (doc c)))
    (map (commentWithOwner s)
         (filter (fun c => String.eqb (Comment.video c) (castObjectId videoId))
               l)).

Definition getVideoComments (videoId : string) (page limit : option nat)
  : Handler (Response Data) :=
  throwIf (negb (isValidObjectId videoId)) 400 "Invalid video ID" ;;
  comments <- aggregatePaginate (D := Comment.t) [Users]
                                (videoCommentsPipeline videoId)
                                (orDefault page 1) (orDefault limit 10) ;;
  ret (respond 200 (DComments comments) "Comments fetched successfully").

(** The content is checked before the identifier. *)
Definition addComment (req : Request) (videoId : string)
           (content : option jsstring) : Handler (Response Data) :=
  throwIf (Js.missingOrBlank content) 400 "Comment content is required" ;;
  throwIf (negb (isValidObjectId videoId)) 400 "Invalid video ID" ;;
  comment <- create (Comment.mk (freshId req) (orDefault content [])
                              (castObjectId videoId) (user req) (clock req)
                              (clock req)) ;;
  throwIf (isNull comment) 500 "Failed to add comment" ;;
  ret (respond 201 (DComment comment) "Comment added successfully").

Definition setCommentContent (content : jsstring) (c : Comment.t)
  : Comment.t :=
  Comment.mk (Comment._id c) content (Comment.video c) (Comment.owner c)
             (Comment.createdAt c) (Comment.updatedAt c).

Definition updateComment (req : Request) (commentId : string)
           (content : option jsstring) : Handler (Response Data) :=
  throwIf (Js.missingOrBlank content) 400 "Comment content is required" ;;
  throwIf (negb (isValidObjectId commentId)) 400 "Invalid comment ID" ;;
  comment <- findById (D := Comment.t) (castObjectId commentId) ;;
  match comment with
  | None => throw 404 "Comment not found"
  | Some comment =>
      throwIf (negb (String.eqb (Comment.owner comment) (user req)))
              403 "You are not authorized to update this comment" ;;
      updatedComment <-
        findByIdAndUpdate (clock req) (castObjectId commentId)
                          (setCommentContent (orDefault content [])) true ;;
      ret (respond 200 (DComment updatedComment)
                   "Comment updated successfully")
  end.

Definition deleteComment (req : Request) (commentId : string)
  : Handler (Response Data) :=
  throwIf (negb (isValidObjectId commentId)) 400 "Invalid comment ID" ;;
  comment <- findById (D := Comment.t) (castObjectId commentId) ;;
  match comment with
  | None => throw 404 "Comment not found"
  | Some comment =>
      throwIf (negb (String.eqb (Comment.owner comment) (user req)))
              403 "You are not authorized to delete this comment" ;;
      findByIdAndDelete (D := Comment.t) (castObjectId commentId) ;;
      ret (respond 200 DEmpty "Comment deleted successfully")
  end.

(** ** tweet.controller.js *)

Definition createTweet (req : Request) (content : option jsstring)
  : Handler (Response Data) :=
  throwIf (Js.missingOrBlank content) 400 "Tweet content is required" ;;
  tweet <- create (Tweet.mk (freshId req) (orDefault content []) (user req)
                            (clock req) (clock req)) ;;
  throwIf (isNull tweet) 500 "Failed to create tweet" ;;
  ret (respond 201 (DTweet tweet) "Tweet created successfully").

Definition userTweetsPipeline (userId : string) (s : Store)
           (l : list Tweet.t) : list TweetView :=
  sortDocs (newestFirst tvCreatedAt)
    (map (fun t =>
            mkTweetView
              (Tweet._id t) (Tweet.content t)
              (lookupOwner s (Tweet.owner t))
              (List.length
                 (filter (fun k => refIs (Like.tweet k) (Tweet._id t))
                         (likes s)))
              (Tweet.createdAt t))
         (filter (fun t => String.eqb (Tweet.owner t) (castObjectId userId)) l)).

Definition getUserTweets (userId : string) : Handler (Response Data) :=
  throwIf (negb (isValidObjectId userId)) 400 "Invalid user ID" ;;
  tweets <- aggregate (D := Tweet.t) [Users; Likes]
                      (userTweetsPipeline userId) ;;
  ret (respond 200 (DTweets tweets) "Tweets fetched successfully").

Definition setTweetContent (content : jsstring) (t : Tweet.t) : Tweet.t :=
  Tweet.mk (Tweet._id t) content (Tweet.owner t) (Tweet.createdAt t)
           (Tweet.updatedAt t).

(** The content is checked before the identifier. *)
Definition updateTweet (req : Request) (tweetId : string)
           (content : option jsstring) : Handler (Response Data) :=
  throwIf (Js.missingOrBlank content) 400 "Tweet content is required" ;;
  throwIf (negb (isValidObjectId tweetId)) 400 "Invalid tweet ID" ;;
  tweet <- findById (D := Tweet.t) (castObjectId tweetId) ;;
  match tweet with
  | None => throw 404 "Tweet not found"
  | Some tweet =>
      throwIf (negb (String.eqb (Tweet.owner tweet) (user req)))
              403 "You are not authorized to update this tweet" ;;
      updatedTweet <-
        findByIdAndUpdate (clock req) (castObjectId tweetId)
                          (setTweetContent (orDefault content [])) true ;;
      ret (respond 200 (DTweet updatedTweet) "Tweet updated successfully")
  end.

Definition deleteTweet (req : Request) (tweetId : string)
  : Handler (Response Data) :=
  throwIf (negb (isValidObjectId tweetId)) 400 "Invalid tweet ID" ;;
  tweet <- findById (D := Tweet.t) (castObjectId tweetId) ;;
  match tweet with
  | None => throw 404 "Tweet not found"
  | Some tweet =>
      throwIf (negb (String.eqb (Tweet.owner tweet) (user req)))
              403 "You are not authorized to delete this tweet" ;;
      findByIdAndDelete (D := Tweet.t) (castObjectId tweetId) ;;
      ret (respond 200 DEmpty "Tweet deleted successfully")
  end.

(** ** video.controller.js *)

Definition searchStage (q : VideoQuery.t) (l : list Video.t) : list Video.t :=
  if Js.truthy (VideoQuery.query q)
  then search (orDefault (VideoQuery.query q) []) l
  else l.

Definition ownerStage (q : VideoQuery.t) (l : list Video.t) : list Video.t :=
  if Js.truthyId (VideoQuery.userId q)
  then filter (fun v => String.eqb
                       (Video.owner v)
                       (castObjectId
                          (orDefault (VideoQuery.userId q) EmptyString))) l
  else l.

(** The single entry of [sortOptions]: the field, and whether its direction
    is [1]. *)
Definition sortOptions (q : VideoQuery.t) : string * bool :=
  if Js.truthyId (VideoQuery.sortBy q) && Js.truthyId (VideoQuery.sortType q)
  then (orDefault (VideoQuery.sortBy q) EmptyString,
        String.eqb (orDefault (VideoQuery.sortType q) EmptyString) "asc")
  else ("createdAt"%string, false).

Definition videoOrder (q : VideoQuery.t) : Video.t -> Video.t -> bool :=
  byField (videoField (fst (sortOptions q))) (snd (sortOptions q)).

Definition videoListPipeline (q : VideoQuery.t) (s : Store)
           (l : list Video.t) : list (WithOwner Video.t) :=
  map (videoWithOwner s)
      (sortDocs (videoOrder q)
                (filter Video.isPublished (ownerStage q (searchStage q l)))).

Definition getAllVideos (q : VideoQuery.t) : Handler (Response Data) :=
  throwIf (Js.truthyId (VideoQuery.userId q)
           && negb (isValidObjectId (orDefault (VideoQuery.userId q) EmptyString)))
          400 "Invalid user ID" ;;
  videos <- aggregatePaginate (D := Video.t) [Users] (videoListPipeline q)
                              (orDefault (VideoQuery.page q) 1)
                              (orDefault (VideoQuery.limit q) 10) ;;
  ret (respond 200 (DVideos videos) "Videos fetched successfully").

Definition publishAVideo (req : Request) (title description : option jsstring)
           (videoFileLocalPath thumbnailLocalPath : option string)
  : Handler (Response Data) :=
  throwIf (Js.missingOrBlank title) 400 "Video title is required" ;;
  throwIf (negb (Js.truthyId videoFileLocalPath))
          400 "Video file is required" ;;
  throwIf (negb (Js.truthyId thumbnailLocalPath))
          400 "Thumbnail is required" ;;
  let videoFile := uploadOnCloudinary (orDefault videoFileLocalPath EmptyString) in
  let thumbnail := uploadOnCloudinary (orDefault thumbnailLocalPath EmptyString) in
  match videoFile, thumbnail with
  | None, _ => throw 500 "Failed to upload video file"
  | Some _, None => throw 500 "Failed to upload thumbnail"
  | Some videoFile, Some thumbnail =>
      video <- create (Video.mk (freshId req) (url videoFile) (url thumbnail)
                                (orDefault title [])
                                (Js.orElse description [])
                                (orDefault (uploadDuration videoFile) 0%Z)
                                0%Z true (user req)
                                (clock req) (clock req)) ;;
      throwIf (isNull video) 500 "Failed to publish video" ;;
      ret (respond 201 (DVideo video) "Video published successfully")
  end.

(** [$in: [req.user?._id, ids]] *)
Definition viewerIn (viewer : option ObjectId) (ids : list ObjectId) : bool :=
  match viewer with
  | Some u => existsb (String.eqb u) ids
  | None => false
  end.

Definition channelCard (viewer : option ObjectId) (s : Store) (u : User.t)
  : ChannelCard :=
  let subscribers :=
    filter (fun x => String.eqb (Subscription.channel x) (User._id u))
           (subscriptions s) in
  mkChannelCard (User._id u) (User.username u) (User.fullName u)
                (User.avatar u) (List.length subscribers)
                (viewerIn viewer (map Subscription.subscriber subscribers)).

Definition videoDetail (viewer : option ObjectId) (s : Store) (v : Video.t)
  : VideoDetail :=
  let videoLikes :=
    filter (fun k => refIs (Like.video k) (Video._id v)) (likes s) in
  mkVideoDetail
    (Video._id v) (Video.videoFile v) (Video.thumbnail v) (Video.title v)
    (Video.description v) (Video.duration v) (Video.views v)
    (hd_error
       (map (channelCard viewer s)
            (filter (fun u => String.eqb (User._id u) (Video.owner v))
                    (users s))))
    (List.length videoLikes)
    (viewerIn viewer (map Like.likedBy videoLikes))
    (Video.createdAt v) (Video.updatedAt v).

Definition videoDetailPipeline (viewer : option ObjectId) (videoId : string)
           (s : Store) (l : list Video.t) : list VideoDetail :=
  map (videoDetail viewer s)
      (filter (fun v => String.eqb (Video._id v) (castObjectId videoId)) l).

(** [$inc: { views: 1 }] *)
Definition incViews (v : Video.t) : Video.t :=
  Video.mk (Video._id v) (Video.videoFile v) (Video.thumbnail v)
           (Video.title v) (Video.description v) (Video.duration v)
           (Video.views v + 1)%Z (Video.isPublished v) (Video.owner v)
           (Video.createdAt v) (Video.updatedAt v).

(** [viewer] is [req.user?._id]: the route also serves a request without an
    authenticated user. *)
Definition getVideoById (viewer : option ObjectId) (now : Z)
           (videoId : string) : Handler (Response Data) :=
  throwIf (negb (isValidObjectId videoId)) 400 "Invalid video ID" ;;
  video <- aggregate (D := Video.t) [Likes; Users; Subscriptions]
                     (videoDetailPipeline viewer videoId) ;;
  match video with
  | [] => throw 404 "Video not found"
  | v :: _ =>
      findByIdAndUpdate (D := Video.t) now (castObjectId videoId) incViews
                        false ;;
      ret (respond 200 (DVideoDetail v) "Video fetched successfully")
  end.

Definition setVideoDetails (title description : jsstring) (thumbnail : string)
           (v : Video.t) : Video.t :=
  Video.mk (Video._id v) (Video.videoFile v) thumbnail title description
           (Video.duration v) (Video.views v) (Video.isPublished v)
           (Video.owner v) (Video.createdAt v) (Video.updatedAt v).

(** [thumbnail?.url || video.thumbnail] *)
Definition urlOr (thumbnail : option Upload) (d : string) : string :=
  match thumbnail with
  | Some t => if String.eqb (url t) EmptyString then d else url t
  | None => d
  end.

(** The identifier is checked before the title. *)
Definition updateVideo (req : Request) (videoId : string)
           (title description : option jsstring)
           (thumbnailLocalPath : option string) : Handler (Response Data) :=
  throwIf (negb (isValidObjectId videoId)) 400 "Invalid video ID" ;;
  throwIf (Js.missingOrBlank title) 400 "Video title is required" ;;
  video <- findById (D := Video.t) (castObjectId videoId) ;;
  match video with
  | None => throw 404 "Video not found"
  | Some video =>
      throwIf (negb (String.eqb (Video.owner video) (user req)))
              403 "You are not authorized to update this video" ;;
      thumbnail <-
        (if Js.truthyId thumbnailLocalPath
         then match uploadOnCloudinary (orDefault thumbnailLocalPath EmptyString) with
              | Some t => ret (Some t)
              | None => throw 500 "Failed to upload thumbnail"
              end
         else ret None) ;;
      updatedVideo <-
        findByIdAndUpdate (clock req) (castObjectId videoId)
          (setVideoDetails (orDefault title [])
                           (Js.orElse description (Video.description video))
                           (urlOr thumbnail (Video.thumbnail video)))
          true ;;
      ret (respond 200 (DVideo updatedVideo) "Video updated successfully")
  end.

Definition deleteVideo (req : Request) (videoId : string)
  : Handler (Response Data) :=
  throwIf (negb (isValidObjectId videoId)) 400 "Invalid video ID" ;;
  video <- findById (D := Video.t) (castObjectId videoId) ;;
  match video with
  | None => throw 404 "Video not found"
  | Some video =>
      throwIf (negb (String.eqb (Video.owner video) (user req)))
              403 "You are not authorized to delete this video" ;;
      findByIdAndDelete (D := Video.t) (castObjectId videoId) ;;
      ret (respond 200 DEmpty "Video deleted successfully")
  end.

Definition setPublished (b : bool) (v : Video.t) : Video.t :=
  Video.mk (Video._id v) (Video.videoFile v) (Video.thumbnail v)
           (Video.title v) (Video.description v) (Video.duration v)
           (Video.views v) b (Video.owner v) (Video.createdAt v)
           (Video.updatedAt v).

Definition togglePublishStatus (req : Request) (videoId : string)
  : Handler (Response Data) :=
  throwIf (negb (isValidObjectId videoId)) 400 "Invalid video ID" ;;
  video <- findById (D := Video.t) (castObjectId videoId) ;;
  match video with
  | None => throw 404 "Video not found"
  | Some video =>
      throwIf (negb (String.eqb (Video.owner video) (user req)))
              403 "You are not authorized to update this video" ;;
      updatedVideo <-
        findByIdAndUpdate (clock req) (castObjectId videoId)
                          (setPublished (negb (Video.isPublished video)))
                          true ;;
      match updatedVideo with
      | Some u =>
          ret (respond 200 (DVideo updatedVideo)
                       (if Video.isPublished u
                        then "Video published successfully"
                        else "Video unpublished successfully"))
      | None =>
          (* reading [isPublished] of [null] is a TypeError *)
          throw 500 "Cannot read properties of null"
      end
  end.

(** ** healthcheck.controller.js *)

Definition healthcheck : Handler (Response Data) :=
  ret (respond 200 DEmpty "OK").

(** ** The router *)

Definition handle (req : Request) (op : Operation) : Handler (Response Data) :=
  match op with
  | ToggleVideoLike i => toggleVideoLike req i
  | ToggleCommentLike i => toggleCommentLike req i
  | ToggleTweetLike i => toggleTweetLike req i
  | GetLikedVideos => getLikedVideos req
  | CreatePlaylist n d => createPlaylist req n d
  | GetUserPlaylists i => getUserPlaylists i
  | GetPlaylistById i => getPlaylistById i
  | AddVideoToPlaylist p v => addVideoToPlaylist req p v
  | RemoveVideoFromPlaylist p v => removeVideoFromPlaylist req p v
  | DeletePlaylist i => deletePlaylist req i
  | UpdatePlaylist i n d => updatePlaylist req i n d
  | GetVideoComments i p l => getVideoComments i p l
  | AddComment i c => addComment req i c
  | UpdateComment i c => updateComment req i c
  | DeleteComment i => deleteComment req i
  | CreateTweet c => createTweet req c
  | GetUserTweets i => getUserTweets i
  | UpdateTweet i c => updateTweet req i c
  | DeleteTweet i => deleteTweet req i
  | GetAllVideos q => getAllVideos q
  | PublishAVideo t d f th => publishAVideo req t d f th
  | GetVideoById viewer i => getVideoById viewer (clock req) i
  | UpdateVideo i t d th => updateVideo req i t d th
  | DeleteVideo i => deleteVideo req i
  | TogglePublishStatus i => togglePublishStatus req i
  | Healthcheck => healthcheck
  end.

(** Every identifier is well formed and every required text field is
    present and not blank. *)
Definition wellFormed (op : Operation) : bool :=
  forallb isValidObjectId (identifiers op)
  && forallb (fun t => negb (Js.missingOrBlank t)) (requiredText op).

End Controllers.

(* ================================================================== *)
(** * Sample data *)

Module Sample.

Local Open Scope string_scope.

Definition isHex (c : ascii) : bool :=
  let n := nat_of_ascii c in
  ((48 <=? n) && (n <=? 57) || (97 <=? n) && (n <=? 102)
   || (65 <=? n) && (n <=? 70))%nat.

(** A format check in the style of mongoose's: 24 hexadecimal digits. *)
Definition isValidObjectId (s : string) : bool :=
  (String.length s =? 24)%nat && forallb isHex (list_ascii_of_string s).

(** A search stage that keeps every video. *)
Definition search (_ : jsstring) (l : list Video.t) : list Video.t := l.

(** An upload that always succeeds. *)
Definition uploadOnCloudinary (path : string) : option Upload :=
  Some (mkUpload path None).

Definition alice : ObjectId := "65a000000000000000000001".
Definition bob : ObjectId := "65a000000000000000000002".
Definition video1 : ObjectId := "65b000000000000000000001".
Definition video2 : ObjectId := "65b000000000000000000002".
Definition playlist1 : ObjectId := "65c000000000000000000001".
Definition playlist2 : ObjectId := "65c000000000000000000002".
Definition tweet1 : ObjectId := "65d000000000000000000001".
Definition comment1 : ObjectId := "65e000000000000000000001".
Definition fresh1 : ObjectId := "65f000000000000000000001".
Definition fresh2 : ObjectId := "65f000000000000000000002".
Definition fresh3 : ObjectId := "65f000000000000000000003".

Definition aliceUser : User.t := User.mk alice "alice" "Alice A" "a.png".

Definition aliceVideo : Video.t :=
  Video.mk video1 "v1.mp4" "v1.png" (Js.lit "first") (Js.lit "about")
           60 7 true alice 100 100.

Definition alicePlaylist : Playlist.t :=
  Playlist.mk playlist1 (Js.lit "mix") [] alice [video1] 10 10.

Definition aliceLaterPlaylist : Playlist.t :=
  Playlist.mk playlist2 (Js.lit "more") [] alice [] 20 20.

Definition aliceTweet : Tweet.t :=
  Tweet.mk tweet1 (Js.lit "hello") alice 30 30.

Definition aliceComment : Comment.t :=
  Comment.mk comment1 (Js.lit "nice") video1 alice 40 40.

Definition store : Store :=
  {| users := [aliceUser];
     subscriptions := [];
     likes := [];
     tweets := [aliceTweet];
     comments := [aliceComment];
     playlists := [alicePlaylist; aliceLaterPlaylist];
     videos := [aliceVideo] |}.

Definition world : World := mkWorld store [].

Definition asAlice (fresh : ObjectId) (t : Z) : Request :=
  mkRequest alice fresh t.

Definition asBob (fresh : ObjectId) (t : Z) : Request :=
  mkRequest bob fresh t.

(** A cast in the style of mongoose's: hexadecimal digits are read whatever
    their case, and the ObjectId prints in lower case. *)
Definition lowerHex (c : ascii) : ascii :=
  let n := nat_of_ascii c in
  if ((65 <=? n) && (n <=? 70))%nat then ascii_of_nat (n + 32) else c.

Definition castObjectId (s : string) : ObjectId :=
  string_of_list_ascii (map lowerHex (list_ascii_of_string s)).

(** The same identifiers as a client may spell them. *)
Definition aliceUpper : string := "65A000000000000000000001".
Definition video1Upper : string := "65B000000000000000000001".
Definition video2Upper : string := "65B000000000000000000002".
Definition playlist1Upper : string := "65C000000000000000000001".
Definition tweet1Upper : string := "65D000000000000000000001".

End Sample.

(* ================================================================== *)
(** * Vocabulary of the properties *)

(** Status and data of what a handler produced; an error has no data. *)
Definition outcome (r : APIError + Response Data) : Z * option Data :=
  match r with
  | inl e => (errStatus e, None)
  | inr x => (status x, Some (Envelope.data (json x)))
  end.

(** Requests served one after the other, each on the world the previous one
    left. *)
Fixpoint serveAll {A} (hs : list (Handler A)) (w : World)
  : list (APIError + A) * World :=
  match hs with
  | [] => ([], w)
  | h :: hs' =>
      let (r, w1) := h w in
      let (rs, w2) := serveAll hs' w1 in
      (r :: rs, w2)
  end.

(** ** Likes *)

Inductive LikeTarget : Type := OnVideo | OnComment | OnTweet.

Definition likeOp (k : LikeTarget) (target : string) : Operation :=
  match k with
  | OnVideo => ToggleVideoLike target
  | OnComment => ToggleCommentLike target
  | OnTweet => ToggleTweetLike target
  end.

Definition likeRef (k : LikeTarget) (l : Like.t) : option ObjectId :=
  match k with
  | OnVideo => Like.video l
  | OnComment => Like.comment l
  | OnTweet => Like.tweet l
  end.

(** The filter of the toggle's [findOne]. *)
Definition isLikeOf (k : LikeTarget) (target u : ObjectId) (l : Like.t) : bool :=
  refIs (likeRef k l) target && String.eqb (Like.likedBy l) u.

(** The liked state of a pair: a record for it is in the store. *)
Definition liked (k : LikeTarget) (target u : ObjectId) (s : Store) : bool :=
  existsb (isLikeOf k target u) (likes s).

(** The record a toggle inserts. *)
Definition newLike (k : LikeTarget) (req : Request) (target : ObjectId)
  : Like.t :=
  match k with
  | OnVideo => Like.mk (freshId req) (Some target) None None (user req)
                       (clock req) (clock req)
  | OnComment => Like.mk (freshId req) None (Some target) None (user req)
                         (clock req) (clock req)
  | OnTweet => Like.mk (freshId req) None None (Some target) (user req)
                       (clock req) (clock req)
  end.

(** Identifiers are unique in the collection and the pair has at most one
    record: what the storage engine and sequential toggles maintain. *)
Definition likesConsistent (k : LikeTarget) (target u : ObjectId) (s : Store)
  : Prop :=
  NoDup (map Like._id (likes s))
  /\ (List.length (filter (isLikeOf k target u) (likes s)) <= 1)%nat.

(** The fixed message of a toggle, by target and by new state. *)
Definition likeMessage (k : LikeTarget) (isLiked : bool) : string :=
  match k, isLiked with
  | OnVideo, true => "Video liked successfully"
  | OnVideo, false => "Video unliked successfully"
  | OnComment, true => "Comment liked successfully"
  | OnComment, false => "Comment unliked successfully"
  | OnTweet, true => "Tweet liked successfully"
  | OnTweet, false => "Tweet unliked successfully"
  end.

(** The world after a call that read and then wrote the likes. *)
Definition afterToggle (w : World) (l : list Like.t) : World :=
  mkWorld (setDocs l (db w)) ((log w ++ [Read Likes []]) ++ [Write Likes]).

(** ** Views *)

(** The stored view counter of the video with that identifier. *)
Definition storedViews (id : ObjectId) (s : Store) : option Z :=
  option_map Video.views (find (hasId id) (videos s)).

(** The joins of the video detail pipeline. *)
Definition detailJoins : list Coll := [Likes; Users; Subscriptions].

(** The world after a fetch that found the video: the pipeline was read,
    then the counter was written. *)
Definition afterFetch (now : Z) (id : ObjectId) (w : World) : World :=
  mkWorld
    (setDocs (updateFirst (hasId id) (fun d => touch now (incViews d))
                          (videos (db w)))
             (db w))
    ((log w ++ [Read Videos detailJoins]) ++ [Write Videos]).

(** ** Playlists *)

Definition storedPlaylist (id : ObjectId) (s : Store) : option Playlist.t :=
  find (hasId id) (playlists s).

(** The world after a call that looked a playlist up and then updated it. *)
Definition afterPlaylistUpdate (now : Z) (id : ObjectId)
           (f : Playlist.t -> Playlist.t) (w : World) : World :=
  mkWorld
    (setDocs (updateFirst (hasId id) (fun d => touch now (f d))
                          (playlists (db w)))
             (db w))
    ((log w ++ [Read Playlists []]) ++ [Write Playlists]).

(** The world after a call that only looked a playlist up. *)
Definition afterPlaylistLookup (w : World) : World :=
  mkWorld (db w) (log w ++ [Read Playlists []]).

(** ** Text *)

(** A text field that is missing, empty, or made of whitespace only. *)
Definition blank (x : option jsstring) : Prop :=
  match x with
  | None => True
  | Some s => forallb Js.isWhiteSpace s = true
  end.

(** ** Order of a result *)

(** Adjacent documents are in the order [leb]. *)
Definition sortedBy {A} (leb : A -> A -> bool) (l : list A) : Prop :=
  Sorted (fun x y => leb x y = true) l.

(** Creation time never increases along the list. *)
Definition descending {A} (createdAt : A -> Z) (l : list A) : Prop :=
  sortedBy (newestFirst createdAt) l.

(** ** Frames *)

(** The operations that only read. *)
Definition readOnly (op : Operation) : bool :=
  match op with
  | GetLikedVideos | GetUserPlaylists _ | GetPlaylistById _
  | GetVideoComments _ _ _ | GetUserTweets _ | GetAllVideos _
  | Healthcheck => true
  | _ => false
  end.

(** The one collection an operation has a write call for, if any. *)
Definition writes (op : Operation) : option Coll :=
  match op with
  | ToggleVideoLike _ | ToggleCommentLike _ | ToggleTweetLike _ => Some Likes
  | CreatePlaylist _ _ | AddVideoToPlaylist _ _ | RemoveVideoFromPlaylist _ _
  | DeletePlaylist _ | UpdatePlaylist _ _ _ => Some Playlists
  | AddComment _ _ | UpdateComment _ _ | DeleteComment _ => Some Comments
  | CreateTweet _ | UpdateTweet _ _ | DeleteTweet _ => Some Tweets
  | PublishAVideo _ _ _ _ | GetVideoById _ _ | UpdateVideo _ _ _ _
  | DeleteVideo _ | TogglePublishStatus _ => Some Videos
  | _ => None
  end.

(** Two stores hold the same documents in collection [c]. *)
Definition sameColl (c : Coll) (s s' : Store) : Prop :=
  match c with
  | Users => users s = users s'
  | Subscriptions => subscriptions s = subscriptions s'
  | Likes => likes s = likes s'
  | Tweets => tweets s = tweets s'
  | Comments => comments s = comments s'
  | Playlists => playlists s = playlists s'
  | Videos => videos s = videos s'
  end.

Definition isWrite (a : Access) : bool :=
  match a with Write _ => true | Read _ _ => false end.

(** ** Deletion *)

Definition deleteOp (e : Entity) (id : string) : Operation :=
  match e with
  | ETweet => DeleteTweet id
  | EPlaylist => DeletePlaylist id
  | EComment => DeleteComment id
  | EVideo => DeleteVideo id
  end.

(** The identifiers of the records of an entity, in stored order. *)
Definition storedIds (e : Entity) (s : Store) : list ObjectId :=
  match e with
  | ETweet => map Tweet._id (tweets s)
  | EPlaylist => map Playlist._id (playlists s)
  | EComment => map Comment._id (comments s)
  | EVideo => map Video._id (videos s)
  end.

(** A stored record of one of the four owned entities. *)
Inductive Document : Type :=
| TweetDoc (t : Tweet.t)
| PlaylistDoc (p : Playlist.t)
| CommentDoc (c : Comment.t)
| VideoDoc (v : Video.t).

Definition documentId (d : Document) : ObjectId :=
  match d with
  | TweetDoc t => Tweet._id t
  | PlaylistDoc p => Playlist._id p
  | CommentDoc c => Comment._id c
  | VideoDoc v => Video._id v
  end.

(** The records of an entity, whole, in stored order. *)
Definition storedRecords (e : Entity) (s : Store) : list Document :=
  match e with
  | ETweet => map TweetDoc (tweets s)
  | EPlaylist => map PlaylistDoc (playlists s)
  | EComment => map CommentDoc (comments s)
  | EVideo => map VideoDoc (videos s)
  end.

Definition isDocument (id : ObjectId) (d : Document) : bool :=
  String.eqb (documentId d) id.

(** The record of an entity with that identifier, whole. *)
Definition storedRecord (e : Entity) (id : ObjectId) (s : Store)
  : option Document :=
  find (isDocument id) (storedRecords e s).

(** A Like record refers to exactly one of video, comment and tweet. *)
Definition oneTarget (l : Like.t) : bool :=
  match Like.video l, Like.comment l, Like.tweet l with
  | Some _, None, None => true
  | None, Some _, None => true
  | None, None, Some _ => true
  | _, _, _ => false
  end.

(** ** A busier sample store *)

Module Crowd.

Local Open Scope string_scope.

Definition like1 : ObjectId := "66a000000000000000000001".
Definition like2 : ObjectId := "66a000000000000000000002".
Definition video3 : ObjectId := "65b000000000000000000003".
Definition playlist3 : ObjectId := "65c000000000000000000003".

Definition bobUser : User.t := User.mk Sample.bob "bob" "Bob B" "b.png".

Definition bobLikesVideo : Like.t :=
  Like.mk like1 (Some Sample.video1) None None Sample.bob 110 110.

Definition aliceLikesTweet : Like.t :=
  Like.mk like2 None None (Some Sample.tweet1) Sample.alice 120 120.

(** A video of Bob that is not published. *)
Definition bobDraft : Video.t :=
  Video.mk video3 "v3.mp4" "v3.png" (Js.lit "draft") [] 30 0 false
           Sample.bob 130 130.

(** A playlist with a description and a reference to a video that is not
    stored. *)
Definition describedPlaylist : Playlist.t :=
  Playlist.mk playlist3 (Js.lit "songs") (Js.lit "to sing")
              Sample.alice [Sample.video1; Sample.video2] 140 140.

Definition store : Store :=
  {| users := [Sample.aliceUser; bobUser];
     subscriptions := [Subscription.mk Sample.alice Sample.bob];
     likes := [bobLikesVideo; aliceLikesTweet];
     tweets := [Sample.aliceTweet];
     comments := [Sample.aliceComment];
     playlists := [Sample.alicePlaylist; describedPlaylist];
     videos := [Sample.aliceVideo; bobDraft] |}.

Definition world : World := mkWorld store [].

(** An upload that always fails. *)
Definition failingUpload (_ : string) : option Upload := None.

End Crowd.

(** The number of documents the controllers can create or delete. *)
Definition documents (s : Store) : nat :=
  List.length (likes s) + List.length (tweets s) + List.length (comments s)
  + List.length (playlists s) + List.length (videos s).

Unset Implicit Arguments.

(* ================================================================== *)
(** * Running a handler *)

Lemma run_throwIf_false {A} (c : Z) (m : string) (k : Handler A) w :
  (throwIf false c m ;; k) w = k w.
Proof. reflexivity. Qed.

Lemma run_bind {A B} (m : Handler A) (k : A -> Handler B) w :
  bind m k w =
  match m w with
  | (inr a, w') => k a w'
  | (inl e, w') => (inl e, w')
  end.
Proof. reflexivity. Qed.

(* ================================================================== *)
(** * Malformed identifiers never reach the store *)

Section Shape.

Variable isValidObjectId : string -> bool.
Variable castObjectId : string -> ObjectId.
Variable search : jsstring -> list Video.t -> list Video.t.
Variable uploadOnCloudinary : string -> option Upload.

Local Notation "'serve'" :=
  (handle isValidObjectId castObjectId search uploadOnCloudinary).

(** C7. An operation that is given an identifier which is not well formed
    throws a 400 error and leaves the world as it found it: the store is the
    same and the storage log has no new entry, so no query and no mutation
    was issued. *)
Theorem malformed_identifier_never_reaches_storage
        (req : Request) (op : Operation) (w : World) (i : string) :
  In i (identifiers op) ->
  isValidObjectId i = false ->
  exists msg, serve req op w = (inl (mkAPIError 400 msg), w).
Proof.
  intros Hin Hbad.
  destruct op; cbn [identifiers] in Hin.
  all: try (destruct (Js.truthyId (VideoQuery.userId q)) eqn:Hgiven).
  all: cbn [In] in Hin; try contradiction.
  all: try (destruct Hin as [<- | [<- | []]]).
  all: try (destruct Hin as [<- | []]).
  all: cbv [handle toggleVideoLike toggleCommentLike
            toggleTweetLike getUserPlaylists getPlaylistById
            addVideoToPlaylist removeVideoFromPlaylist deletePlaylist
            updatePlaylist getVideoComments addComment updateComment
            deleteComment getUserTweets updateTweet deleteTweet getAllVideos
            getVideoById updateVideo deleteVideo togglePublishStatus].
  all: try match goal with
           | |- context [Js.missingOrBlank ?t] =>
               destruct (Js.missingOrBlank t)
           end.
  all: rewrite ?Hgiven, ?Hbad; cbn [negb orb andb];
    rewrite ?orb_true_r; cbn; eauto.
Qed.

End Shape.

(** An identifier that is not 24 hexadecimal digits, on the like route. *)
Lemma malformed_identifier_witness :
  exists msg,
    handle Sample.isValidObjectId Sample.castObjectId
           Sample.search Sample.uploadOnCloudinary
           (Sample.asAlice Sample.fresh1 1) (ToggleVideoLike "not-an-id")
           Sample.world
    = (inl (mkAPIError 400 msg), Sample.world).
Proof.
  apply (malformed_identifier_never_reaches_storage
           Sample.isValidObjectId Sample.castObjectId
           Sample.search Sample.uploadOnCloudinary
           (Sample.asAlice Sample.fresh1 1) (ToggleVideoLike "not-an-id")
           Sample.world "not-an-id"%string).
  - cbn. auto.
  - reflexivity.
Defined.

(* ================================================================== *)
(** * Existence is checked before ownership *)

Section Ownership.

Variable isValidObjectId : string -> bool.
Variable castObjectId : string -> ObjectId.
Variable search : jsstring -> list Video.t -> list Video.t.
Variable uploadOnCloudinary : string -> option Upload.

Local Notation "'serve'" :=
  (handle isValidObjectId castObjectId search uploadOnCloudinary).

(** C2. For an operation that changes or deletes a tweet, playlist,
    comment or video, with well-formed identifiers and, where the operation
    requires a text field, a text that is not blank: when no record has the
    identifier the route string spells the handler throws 404; when a record
    has it and its stored owner is not the requester the handler throws 403;
    a 403 is thrown only in that second case.  In both cases the store is
    the one the handler started from and the only storage call was the
    lookup. *)
Theorem missing_record_before_ownership
        (req : Request) (op : Operation) (e : Entity) (id : string)
        (w : World) :
  mutationTarget op = Some (e, id) ->
  wellFormed isValidObjectId op = true ->
  let w' := mkWorld (db w) (log w ++ [Read (entityColl e) []]) in
  (storedOwner e (castObjectId id) (db w) = None ->
   exists msg, serve req op w = (inl (mkAPIError 404 msg), w'))
  /\ (forall o, storedOwner e (castObjectId id) (db w) = Some o ->
      o <> user req ->
      exists msg, serve req op w = (inl (mkAPIError 403 msg), w'))
  /\ (forall msg w1, serve req op w = (inl (mkAPIError 403 msg), w1) ->
      exists o, storedOwner e (castObjectId id) (db w) = Some o
                /\ o <> user req).
Proof.
  intros Htarget Hwf w'. subst w'.
  destruct op; cbn in Htarget; try discriminate;
    injection Htarget as <- <-.
  all: unfold wellFormed in Hwf; cbn [identifiers requiredText forallb] in Hwf.
  all: rewrite ?andb_true_r in Hwf.
  all: repeat match type of Hwf with
              | (_ && _)%bool = true =>
                  let H1 := fresh "Hok" in
                  apply andb_true_iff in Hwf; destruct Hwf as [H1 Hwf]
              end.
  all: try apply negb_true_iff in Hwf.
  all: cbv [handle addVideoToPlaylist removeVideoFromPlaylist deletePlaylist
            updatePlaylist updateComment deleteComment updateTweet
            deleteTweet updateVideo deleteVideo togglePublishStatus].
  all: rewrite ?Hok, ?Hwf; cbn [negb orb].
  all: rewrite ?run_throwIf_false.
  all: unfold storedOwner, findById; rewrite run_bind; cbn.
  all: match goal with
       | |- context [find ?p ?l] => destruct (find p l) as [r|] eqn:Hfind
       end; cbn.
  all: try (split; [intros _; eexists; reflexivity
                   | split; [discriminate | intros msg w1 [=] ]]; fail).
  all: match goal with
       | |- context [String.eqb ?a (user ?q)] =>
           destruct (String.eqb_spec a (user q)) as [Howner | Howner]
       end; cbn [negb]; rewrite ?run_throwIf_false.
  all: split; [discriminate | split].
  all: try (intros o [= <-] Hneq; try contradiction; cbn; eauto; fail).
  all: try (intros msg w1 _; eexists; split; [reflexivity | assumption]).
  all: intros msg w1 Hrun; exfalso; revert Hrun.
  all: cbv [bind throwIf ret throw findByIdAndUpdate findByIdAndDelete
            storageWrite].
  all: repeat match goal with
              | |- context [if ?b then _ else _] => destruct b
              | |- context [match ?x with Some _ => _ | None => _ end] =>
                  destruct x
              end.
  all: discriminate.
Qed.

End Ownership.

(** Bob tries to delete Alice's tweet, spelling its identifier with an
    upper-case digit. *)
Lemma missing_record_before_ownership_witness :
  exists msg,
    handle Sample.isValidObjectId Sample.castObjectId Sample.search
           Sample.uploadOnCloudinary
           (Sample.asBob Sample.fresh1 50) (DeleteTweet Sample.tweet1Upper)
           Sample.world
    = (inl (mkAPIError 403 msg),
       mkWorld Sample.store [Read Tweets []]).
Proof.
  destruct (missing_record_before_ownership
              Sample.isValidObjectId Sample.castObjectId Sample.search
              Sample.uploadOnCloudinary
              (Sample.asBob Sample.fresh1 50) (DeleteTweet Sample.tweet1Upper)
              ETweet Sample.tweet1Upper Sample.world eq_refl eq_refl)
    as (_ & Hforbidden & _).
  apply (Hforbidden Sample.alice); [reflexivity | discriminate].
Defined.

(** A well-formed identifier that no tweet has, sent with blank content:
    the update is refused for its content, with 400, and the store is never
    asked whether the tweet exists. *)
Lemma missing_record_blank_text_counterexample :
  mutationTarget (UpdateTweet Sample.fresh1 (Some (Js.lit "   ")))
  = Some (ETweet, Sample.fresh1)
  /\ Sample.isValidObjectId Sample.fresh1 = true
  /\ storedOwner ETweet (Sample.castObjectId Sample.fresh1) Sample.store = None
  /\ handle Sample.isValidObjectId Sample.castObjectId Sample.search
            Sample.uploadOnCloudinary
            (Sample.asAlice Sample.fresh2 50)
            (UpdateTweet Sample.fresh1 (Some (Js.lit "   ")))
            Sample.world
     = (inl (mkAPIError 400 "Tweet content is required"), Sample.world).
Proof. repeat split; reflexivity. Qed.

(* ================================================================== *)
(** * Like toggles *)

Section ListFacts.

Context {A : Type}.
Variables p q : A -> bool.

Lemma find_none_existsb (l : list A) :
  existsb p l = false -> find p l = None.
Proof.
  induction l as [|x l IH]; cbn; [reflexivity|].
  destruct (p x); cbn; [discriminate | exact IH].
Qed.

Lemma find_some_existsb (l : list A) :
  existsb p l = true -> exists x, find p l = Some x /\ p x = true.
Proof.
  induction l as [|x l IH]; cbn; [discriminate|].
  destruct (p x) eqn:Hx; cbn; eauto.
Qed.

Lemma find_app_last (l : list A) (x : A) :
  existsb p l = false -> p x = true -> find p (l ++ [x]) = Some x.
Proof.
  induction l as [|y l IH]; cbn; intros Hl Hx.
  - now rewrite Hx.
  - destruct (p y); cbn in Hl; [discriminate | auto].
Qed.

Lemma removeFirst_app_last (l : list A) (x : A) :
  existsb q l = false -> q x = true -> removeFirst q (l ++ [x]) = l.
Proof.
  induction l as [|y l IH]; cbn; intros Hl Hx.
  - now rewrite Hx.
  - destruct (q y); cbn in Hl; [discriminate|]. now rewrite IH.
Qed.

Lemma filter_nil_existsb (l : list A) :
  filter p l = [] -> existsb p l = false.
Proof.
  induction l as [|x l IH]; cbn; [reflexivity|].
  destruct (p x); cbn; [discriminate | exact IH].
Qed.

Lemma existsb_filter_nil (l : list A) :
  existsb p l = false -> filter p l = [].
Proof.
  induction l as [|x l IH]; cbn; [reflexivity|].
  destruct (p x); cbn; [discriminate | exact IH].
Qed.

Lemma removeFirst_incl (l : list A) (x : A) :
  In x (removeFirst q l) -> In x l.
Proof.
  induction l as [|y l IH]; cbn; [auto|].
  destruct (q y); cbn; intuition.
Qed.

Lemma filter_removeFirst_length (l : list A) :
  (List.length (filter p (removeFirst q l)) <= List.length (filter p l))%nat.
Proof.
  induction l as [|y l IH]; cbn; [lia|].
  destruct (q y) eqn:Hq; cbn; destruct (p y) eqn:Hp; cbn; lia.
Qed.

End ListFacts.

Lemma NoDup_map_removeFirst {A B} (f : A -> B) (q : A -> bool) (l : list A) :
  NoDup (map f l) -> NoDup (map f (removeFirst q l)).
Proof.
  induction l as [|y l IH]; cbn; [auto|].
  intros Hnd. inversion Hnd as [|? ? Hnotin Hrest]; subst.
  destruct (q y); cbn; [assumption|].
  constructor; [|auto].
  intros Hin. apply Hnotin.
  apply in_map_iff in Hin. destruct Hin as (z & <- & Hz).
  apply in_map. eapply removeFirst_incl; eassumption.
Qed.

Lemma existsb_hasId_fresh (id : ObjectId) (l : list Like.t) :
  ~ In id (map Like._id l) -> existsb (hasId id) l = false.
Proof.
  induction l as [|y l IH]; cbn; [reflexivity|].
  intros Hfresh. unfold hasId at 1; cbn.
  destruct (String.eqb_spec (Like._id y) id) as [Heq|_]; cbn.
  - exfalso. apply Hfresh. now left.
  - apply IH. intros Hin. apply Hfresh. now right.
Qed.

Lemma existsb_find_none {A} (p : A -> bool) (l : list A) :
  find p l = None -> existsb p l = false.
Proof.
  induction l as [|x l IH]; cbn; [reflexivity|].
  destruct (p x); cbn; [discriminate | exact IH].
Qed.

Lemma NoDup_snoc {A} (l : list A) (x : A) :
  NoDup l -> ~ In x l -> NoDup (l ++ [x]).
Proof.
  induction l as [|y l IH]; cbn; intros Hnd Hfresh.
  - constructor; [auto | constructor].
  - inversion Hnd as [|? ? Hnotin Hrest]; subst.
    constructor.
    + rewrite in_app_iff. cbn. intuition.
    + apply IH; intuition.
Qed.

(** Deleting the record a lookup found, by its identifier, leaves no record
    the lookup would find, when identifiers are unique and the lookup had at
    most one match. *)
Lemma found_like_removed (p : Like.t -> bool) (L : list Like.t) (l : Like.t) :
  NoDup (map Like._id L) ->
  (List.length (filter p L) <= 1)%nat ->
  find p L = Some l ->
  existsb p (removeFirst (hasId (Like._id l)) L) = false.
Proof.
  induction L as [|a L IH]; cbn; [discriminate|].
  intros Hnd Hone Hfind.
  inversion Hnd as [|? ? Hnotin Hrest]; subst.
  destruct (p a) eqn:Hpa.
  - injection Hfind as ->.
    unfold hasId at 1; cbn. rewrite String.eqb_refl.
    apply filter_nil_existsb.
    destruct (filter p L); [reflexivity | cbn in Hone; lia].
  - destruct (hasId (Like._id l) a) eqn:Hid.
    + exfalso. unfold hasId in Hid; cbn in Hid.
      apply String.eqb_eq in Hid.
      apply find_some in Hfind. destruct Hfind as [Hin _].
      apply Hnotin. rewrite Hid. now apply in_map.
    + unfold hasId in Hid; cbn in Hid. rewrite Hid.
      cbn. rewrite Hpa. cbn. now apply IH.
Qed.

Section LikeToggle.

Variable isValidObjectId : string -> bool.
Variable castObjectId : string -> ObjectId.
Variable search : jsstring -> list Video.t -> list Video.t.
Variable uploadOnCloudinary : string -> option Upload.

Local Notation "'serve'" :=
  (handle isValidObjectId castObjectId search uploadOnCloudinary).

(** The three toggles are the same handler up to the field they filter on
    and the message they send. *)
Lemma toggle_run (k : LikeTarget) (target : string) (req : Request)
      (w : World) :
  isValidObjectId target = true ->
  serve req (likeOp k target) w =
  match find (isLikeOf k (castObjectId target) (user req)) (likes (db w)) with
  | Some l =>
      (inr (respond 200 (DIsLiked false) (likeMessage k false)),
       afterToggle w (removeFirst (hasId (Like._id l)) (likes (db w))))
  | None =>
      (inr (respond 201 (DIsLiked true) (likeMessage k true)),
       afterToggle w (likes (db w) ++ [newLike k req (castObjectId target)]))
  end.
Proof.
  intros Hvalid.
  destruct k; cbv [likeOp handle toggleVideoLike toggleCommentLike
                         toggleTweetLike];
    rewrite Hvalid; cbn [negb]; rewrite run_throwIf_false;
    unfold findOne; rewrite run_bind; cbn;
    unfold isLikeOf; cbn [likeRef];
    match goal with
    | |- context [find ?f ?l] => destruct (find f l)
    end; reflexivity.
Qed.

Lemma newLike_isLikeOf (k : LikeTarget) (req : Request) (target : ObjectId) :
  isLikeOf k target (user req) (newLike k req target) = true.
Proof.
  destruct k; unfold isLikeOf; cbn; now rewrite !String.eqb_refl.
Qed.

Lemma newLike_id (k : LikeTarget) (req : Request) (target : ObjectId) :
  Like._id (newLike k req target) = freshId req.
Proof. destruct k; reflexivity. Qed.


Lemma likes_afterToggle (w : World) (l : list Like.t) :
  likes (db (afterToggle w l)) = l.
Proof. reflexivity. Qed.

(** C1.  The pair of a toggle is the ObjectId its route string spells and the
    requester.  A toggle on a pair with no Like record inserts one and answers
    201 with [isLiked: true]; on a pair with a record it deletes the record
    found and answers 200 with [isLiked: false].  Three toggles in a row by
    one requester on a fresh pair answer 201/true, 200/false, 201/true, and
    after each of them the pair is liked exactly when the answer says so.  On
    a store with unique identifiers and at most one record for the pair, the
    flag any toggle answers is the presence of the record afterwards, and the
    store stays that way.  The record has no flag: the state is the presence
    of the record. *)
Theorem like_toggle_is_record_presence
        (k : LikeTarget) (target : string) (r1 r2 r3 : Request) (w : World) :
  isValidObjectId target = true ->
  user r2 = user r1 ->
  user r3 = user r1 ->
  (liked k (castObjectId target) (user r1) (db w) = false ->
   serve r1 (likeOp k target) w
   = (inr (respond 201 (DIsLiked true) (likeMessage k true)),
      afterToggle w (likes (db w) ++ [newLike k r1 (castObjectId target)])))
  /\ (liked k (castObjectId target) (user r1) (db w) = true ->
      exists l,
        find (isLikeOf k (castObjectId target) (user r1)) (likes (db w)) = Some l
        /\ serve r1 (likeOp k target) w
           = (inr (respond 200 (DIsLiked false) (likeMessage k false)),
              afterToggle w (removeFirst (hasId (Like._id l))
                                         (likes (db w)))))
  /\ (liked k (castObjectId target) (user r1) (db w) = false ->
      ~ In (freshId r1) (map Like._id (likes (db w))) ->
      map outcome
          (fst (serveAll [serve r1 (likeOp k target);
                          serve r2 (likeOp k target);
                          serve r3 (likeOp k target)] w))
      = [(201, Some (DIsLiked true)); (200, Some (DIsLiked false));
         (201, Some (DIsLiked true))]%Z
      /\ liked k (castObjectId target) (user r1)
               (db (snd (serveAll [serve r1 (likeOp k target)] w))) = true
      /\ liked k (castObjectId target) (user r1)
               (db (snd (serveAll [serve r1 (likeOp k target);
                                   serve r2 (likeOp k target)] w))) = false
      /\ liked k (castObjectId target) (user r1)
               (db (snd (serveAll [serve r1 (likeOp k target);
                                   serve r2 (likeOp k target);
                                   serve r3 (likeOp k target)] w))) = true)
  /\ (likesConsistent k (castObjectId target) (user r1) (db w) ->
      ~ In (freshId r1) (map Like._id (likes (db w))) ->
      forall res w',
        serve r1 (likeOp k target) w = (inr res, w') ->
        Envelope.data (json res) = DIsLiked (liked k (castObjectId target) (user r1) (db w'))
        /\ likesConsistent k (castObjectId target) (user r1) (db w')).
Proof.
  intros Hvalid Hu2 Hu3.
  split; [|split; [|split]].
  - intros Habsent. rewrite toggle_run by assumption.
    now rewrite (find_none_existsb _ _ Habsent).
  - intros Hpresent.
    destruct (find_some_existsb _ _ Hpresent) as (l & Hfind & _).
    exists l. split; [assumption|].
    rewrite toggle_run by assumption. now rewrite Hfind.
  - intros Habsent Hfresh. unfold liked in Habsent.
    pose proof (find_none_existsb _ _ Habsent) as Hnone.
    set (L := likes (db w)) in *.
    set (n1 := newLike k r1 (castObjectId target)).
    assert (H1 : serve r1 (likeOp k target) w
                 = (inr (respond 201 (DIsLiked true) (likeMessage k true)),
                    afterToggle w (L ++ [n1]))).
    { rewrite toggle_run by assumption. fold L. now rewrite Hnone. }
    assert (H2 : serve r2 (likeOp k target) (afterToggle w (L ++ [n1]))
                 = (inr (respond 200 (DIsLiked false) (likeMessage k false)),
                    afterToggle (afterToggle w (L ++ [n1])) L)).
    { rewrite toggle_run by assumption.
      rewrite likes_afterToggle, Hu2.
      rewrite (find_app_last _ L n1 Habsent (newLike_isLikeOf k r1 (castObjectId target))).
      subst n1. rewrite newLike_id.
      rewrite removeFirst_app_last;
        [reflexivity | now apply existsb_hasId_fresh |].
      unfold hasId; cbn. rewrite newLike_id. apply String.eqb_refl. }
    assert (H3 : serve r3 (likeOp k target)
                       (afterToggle (afterToggle w (L ++ [n1])) L)
                 = (inr (respond 201 (DIsLiked true) (likeMessage k true)),
                    afterToggle (afterToggle (afterToggle w (L ++ [n1])) L)
                                (L ++ [newLike k r3 (castObjectId target)]))).
    { rewrite toggle_run by assumption.
      rewrite likes_afterToggle, Hu3. now rewrite Hnone. }
    cbn [serveAll]. rewrite H1, H2, H3. cbn [fst snd map outcome].
    assert (Hn3 : isLikeOf k (castObjectId target) (user r1)
                           (newLike k r3 (castObjectId target)) = true)
      by (rewrite <- Hu3; apply newLike_isLikeOf).
    unfold liked in *. rewrite !likes_afterToggle.
    rewrite !existsb_app. cbn [existsb]. fold L.
    subst n1. rewrite newLike_isLikeOf, Hn3, Habsent.
    repeat split; reflexivity.
  - intros [Hnodup Hone] Hfresh res w' Hrun.
    rewrite toggle_run in Hrun by assumption.
    destruct (find (isLikeOf k (castObjectId target) (user r1)) (likes (db w)))
      as [l|] eqn:Hfind.
    + injection Hrun as <- <-. cbn [json respond Envelope.data Envelope.new].
      unfold liked, likesConsistent. rewrite likes_afterToggle.
      rewrite (found_like_removed _ _ _ Hnodup Hone Hfind).
      split; [reflexivity|]. split.
      * now apply NoDup_map_removeFirst.
      * etransitivity; [apply filter_removeFirst_length | exact Hone].
    + injection Hrun as <- <-. cbn [json respond Envelope.data Envelope.new].
      unfold liked, likesConsistent. rewrite likes_afterToggle.
      rewrite existsb_app. cbn [existsb].
      rewrite newLike_isLikeOf, orb_true_r.
      split; [reflexivity|]. split.
      * rewrite map_app. cbn [map]. rewrite newLike_id.
        now apply NoDup_snoc.
      * rewrite filter_app. cbn [filter]. rewrite newLike_isLikeOf.
        rewrite (existsb_filter_nil _ _ (existsb_find_none _ _ Hfind)).
        cbn. lia.
Qed.

End LikeToggle.

(** The three-toggle cycle on Alice's video, its identifier spelled with an
    upper-case digit, in a store with no likes. *)
Lemma like_toggle_witness :
  map outcome
      (fst (serveAll
              (map (fun r => handle Sample.isValidObjectId Sample.castObjectId
                                    Sample.search
                                    Sample.uploadOnCloudinary r
                                    (ToggleVideoLike Sample.video1Upper))
                   [Sample.asAlice Sample.fresh1 1;
                    Sample.asAlice Sample.fresh2 2;
                    Sample.asAlice Sample.fresh3 3])
              Sample.world))
  = [(201, Some (DIsLiked true)); (200, Some (DIsLiked false));
     (201, Some (DIsLiked true))]%Z.
Proof.
  destruct (like_toggle_is_record_presence
              Sample.isValidObjectId Sample.castObjectId
              Sample.search Sample.uploadOnCloudinary
              OnVideo Sample.video1Upper
              (Sample.asAlice Sample.fresh1 1) (Sample.asAlice Sample.fresh2 2)
              (Sample.asAlice Sample.fresh3 3) Sample.world
              eq_refl eq_refl eq_refl)
    as (_ & _ & Hcycle & _).
  apply Hcycle; [reflexivity | cbn; tauto].
Defined.

(* ================================================================== *)
(** * Video detail and the view counter *)

Lemma filter_find {A} (p : A -> bool) (l : list A) :
  hd_error (filter p l) = find p l.
Proof.
  induction l as [|x l IH]; cbn; [reflexivity|].
  destruct (p x); [reflexivity | exact IH].
Qed.

Lemma find_updateFirst_same {A} (p : A -> bool) (f : A -> A) (l : list A) :
  (forall x, p x = true -> p (f x) = true) ->
  find p (updateFirst p f l) = option_map f (find p l).
Proof.
  intros Hkeep. induction l as [|x l IH]; cbn; [reflexivity|].
  destruct (p x) eqn:Hx; cbn.
  - now rewrite (Hkeep x Hx).
  - now rewrite Hx.
Qed.

Lemma find_updateFirst_other {A} (p q : A -> bool) (f : A -> A) (l : list A) :
  (forall x, q (f x) = q x) ->
  (forall x, p x = true -> q x = false) ->
  find q (updateFirst p f l) = find q l.
Proof.
  intros Hkeep Hdisj. induction l as [|x l IH]; cbn; [reflexivity|].
  destruct (p x) eqn:Hx; cbn.
  - rewrite Hkeep. now rewrite (Hdisj x Hx).
  - destruct (q x); [reflexivity | exact IH].
Qed.

Section VideoDetail.

Variable isValidObjectId : string -> bool.
Variable castObjectId : string -> ObjectId.

Local Notation "'fetch'" := (getVideoById isValidObjectId castObjectId).

Lemma getVideoById_run (viewer : option ObjectId) (now : Z) (id : string)
      (w : World) :
  isValidObjectId id = true ->
  fetch viewer now id w =
  match find (hasId (castObjectId id)) (videos (db w)) with
  | Some v =>
      (inr (respond 200 (DVideoDetail (videoDetail viewer (db w) v))
                    "Video fetched successfully"),
       afterFetch now (castObjectId id) w)
  | None =>
      (inl (mkAPIError 404 "Video not found"),
       mkWorld (db w) (log w ++ [Read Videos detailJoins]))
  end.
Proof.
  intros Hvalid. unfold getVideoById.
  rewrite Hvalid; cbn [negb]; rewrite run_throwIf_false.
  unfold aggregate; rewrite run_bind; cbn.
  unfold videoDetailPipeline.
  rewrite <- (filter_find (hasId (castObjectId id)) (videos (db w))).
  unfold hasId; cbn.
  destruct (filter _ (videos (db w))); reflexivity.
Qed.

Lemma storedViews_afterFetch (now : Z) (id : ObjectId) (w : World) :
  storedViews id (db (afterFetch now id w))
  = option_map (fun n => (n + 1)%Z) (storedViews id (db w)).
Proof.
  unfold storedViews, afterFetch; cbn.
  rewrite find_updateFirst_same by (intros x Hx; exact Hx).
  now destruct (find _ (videos (db w))).
Qed.


(** C3. A fetch of a stored video with a well-formed identifier succeeds
    for any requester, and after it the stored view counter of that video,
    the one with the ObjectId the route string spells, is one more than
    before; the pipeline is read first and the counter
    written after.  Every fetch that succeeds has done so.  Two fetches in
    a row, by any two requesters, leave the counter two higher. *)
Theorem every_fetch_counts_one_view
        (viewer viewer' : option ObjectId) (now now' : Z) (id : string)
        (w : World) (n : Z) :
  (isValidObjectId id = true ->
   storedViews (castObjectId id) (db w) = Some n ->
   exists detail,
     fetch viewer now id w
     = (inr (respond 200 (DVideoDetail detail) "Video fetched successfully"),
        afterFetch now (castObjectId id) w)
     /\ storedViews (castObjectId id) (db (afterFetch now (castObjectId id) w)) = Some (n + 1)%Z)
  /\ (forall res w',
         fetch viewer now id w = (inr res, w') ->
         exists m, storedViews (castObjectId id) (db w) = Some m
                   /\ storedViews (castObjectId id) (db w') = Some (m + 1)%Z)
  /\ (isValidObjectId id = true ->
      storedViews (castObjectId id) (db w) = Some n ->
      map (fun r => fst (outcome r))
          (fst (serveAll [fetch viewer now id; fetch viewer' now' id] w))
      = [200; 200]%Z
      /\ storedViews (castObjectId id)
                     (db (snd (serveAll [fetch viewer now id;
                                         fetch viewer' now' id] w)))
         = Some (n + 2)%Z).
Proof.
  split; [|split].
  - intros Hvalid Hstored.
    rewrite getVideoById_run by assumption.
    rewrite storedViews_afterFetch, Hstored.
    unfold storedViews in Hstored.
    destruct (find (hasId (castObjectId id)) (videos (db w))) as [v|]; [|discriminate].
    eexists; split; reflexivity.
  - intros res w' Hrun.
    destruct (isValidObjectId id) eqn:Hvalid.
    + rewrite getVideoById_run in Hrun by assumption.
      destruct (find (hasId (castObjectId id)) (videos (db w))) as [v|] eqn:Hfind;
        [|discriminate].
      injection Hrun as <- <-.
      rewrite storedViews_afterFetch. unfold storedViews. rewrite Hfind.
      eexists; split; reflexivity.
    + unfold getVideoById in Hrun. rewrite Hvalid in Hrun. discriminate.
  - intros Hvalid Hstored.
    assert (Hfirst : exists r,
               fetch viewer now id w = (inr r, afterFetch now (castObjectId id) w)
               /\ status r = 200%Z).
    { rewrite getVideoById_run by assumption.
      unfold storedViews in Hstored.
      destruct (find (hasId (castObjectId id)) (videos (db w))); [|discriminate].
      eexists; split; reflexivity. }
    assert (Hsecond : exists r,
               fetch viewer' now' id (afterFetch now (castObjectId id) w)
               = (inr r, afterFetch now' (castObjectId id) (afterFetch now (castObjectId id) w))
               /\ status r = 200%Z).
    { rewrite getVideoById_run by assumption.
      pose proof (storedViews_afterFetch now (castObjectId id) w) as Hnext.
      rewrite Hstored in Hnext. unfold storedViews in Hnext.
      destruct (find (hasId (castObjectId id)) (videos (db (afterFetch now (castObjectId id) w))));
        [|discriminate].
      eexists; split; reflexivity. }
    destruct Hfirst as (a & Ha & Hsa). destruct Hsecond as (b & Hb & Hsb).
    cbn [serveAll]. rewrite Ha, Hb. cbn [fst snd map outcome].
    rewrite Hsa, Hsb. split; [reflexivity|].
    rewrite !storedViews_afterFetch, Hstored. cbn. f_equal. lia.
Qed.

(** C9. The views in the read model of a successful fetch are the stored
    views from before the fetch, while the store holds one more afterwards.
    The video is the one with the ObjectId the route string spells.
    A fetch with a malformed identifier throws 400 and a fetch of an
    identifier no video has throws 404; in both the store, and with it
    every view counter, is the one from before. *)
Theorem fetch_reports_views_before_increment
        (viewer : option ObjectId) (now : Z) (id : string) (w : World) :
  (forall res w' detail,
      fetch viewer now id w = (inr res, w') ->
      Envelope.data (json res) = DVideoDetail detail ->
      storedViews (castObjectId id) (db w) = Some (vdViews detail)
      /\ storedViews (castObjectId id) (db w') = Some (vdViews detail + 1)%Z)
  /\ (isValidObjectId id = false ->
      fetch viewer now id w
      = (inl (mkAPIError 400 "Invalid video ID"), w))
  /\ (isValidObjectId id = true ->
      storedViews (castObjectId id) (db w) = None ->
      fetch viewer now id w
      = (inl (mkAPIError 404 "Video not found"),
         mkWorld (db w) (log w ++ [Read Videos detailJoins])))
  /\ (forall e w', fetch viewer now id w = (inl e, w') -> db w' = db w).
Proof.
  split; [|split; [|split]].
  - intros res w' detail Hrun Hdata.
    destruct (isValidObjectId id) eqn:Hvalid.
    + rewrite getVideoById_run in Hrun by assumption.
      destruct (find (hasId (castObjectId id)) (videos (db w))) as [v|] eqn:Hfind;
        [|discriminate].
      injection Hrun as <- <-. cbn in Hdata. injection Hdata as <-.
      rewrite storedViews_afterFetch. unfold storedViews. rewrite Hfind.
      split; reflexivity.
    + unfold getVideoById in Hrun. rewrite Hvalid in Hrun. discriminate.
  - intros Hbad. unfold getVideoById. now rewrite Hbad.
  - intros Hvalid Hnone. rewrite getVideoById_run by assumption.
    unfold storedViews in Hnone.
    now destruct (find (hasId (castObjectId id)) (videos (db w))).
  - intros e w' Hrun.
    destruct (isValidObjectId id) eqn:Hvalid.
    + rewrite getVideoById_run in Hrun by assumption.
      destruct (find (hasId (castObjectId id)) (videos (db w))); [discriminate|].
      now injection Hrun as <- <-.
    + unfold getVideoById in Hrun. rewrite Hvalid in Hrun.
      now injection Hrun as <- <-.
Qed.

End VideoDetail.

(** Bob, then a visitor without a session, fetch Alice's video, which has
    seven views; both spell its identifier with an upper-case digit. *)
Lemma every_fetch_counts_one_view_witness :
  map (fun r => fst (outcome r))
      (fst (serveAll
              [getVideoById Sample.isValidObjectId Sample.castObjectId
                            (Some Sample.bob) 200
                            Sample.video1Upper;
               getVideoById Sample.isValidObjectId Sample.castObjectId
                            None 201 Sample.video1Upper]
              Sample.world))
  = [200; 200]%Z
  /\ storedViews Sample.video1
                 (db (snd (serveAll
                             [getVideoById Sample.isValidObjectId Sample.castObjectId
                                           (Some Sample.bob) 200 Sample.video1Upper;
                              getVideoById Sample.isValidObjectId Sample.castObjectId
                                           None 201
                                           Sample.video1Upper]
                             Sample.world)))
     = Some 9%Z.
Proof.
  destruct (every_fetch_counts_one_view
              Sample.isValidObjectId Sample.castObjectId
              (Some Sample.bob) None 200 201
              Sample.video1Upper Sample.world 7)
    as (_ & _ & Htwice).
  apply Htwice; reflexivity.
Defined.

(** The read model Bob receives shows seven views; the store then holds
    eight. *)
Lemma fetch_reports_views_before_increment_witness :
  storedViews Sample.video1 Sample.store = Some 7%Z
  /\ storedViews Sample.video1
                 (db (snd (getVideoById Sample.isValidObjectId Sample.castObjectId
                                        (Some Sample.bob) 200 Sample.video1Upper
                                        Sample.world)))
     = Some 8%Z.
Proof.
  destruct (fetch_reports_views_before_increment
              Sample.isValidObjectId Sample.castObjectId
              (Some Sample.bob) 200 Sample.video1Upper
              Sample.world)
    as (Hbefore & _).
  exact (Hbefore _ _ _ eq_refl eq_refl).
Defined.

(* ================================================================== *)
(** * Videos of a playlist *)

Lemma includes_In (vs : list ObjectId) (v : string) :
  includes vs v = true <-> In v vs.
Proof.
  unfold includes. rewrite existsb_exists. split.
  - intros (x & Hin & Heq). apply String.eqb_eq in Heq. now subst.
  - intros Hin. exists v. split; [assumption | apply String.eqb_refl].
Qed.

Lemma includes_not_In (vs : list ObjectId) (v : string) :
  includes vs v = false <-> ~ In v vs.
Proof.
  rewrite <- includes_In. destruct (includes vs v); intuition congruence.
Qed.

Lemma pull_absent (vs : list ObjectId) (v : string) :
  ~ In v vs -> filter (fun x => negb (String.eqb x v)) vs = vs.
Proof.
  induction vs as [|x vs IH]; cbn; [reflexivity|].
  intros Hnot. destruct (String.eqb_spec x v) as [->|_]; cbn.
  - exfalso. apply Hnot. now left.
  - rewrite IH; [reflexivity | intuition].
Qed.

Lemma pull_twice (vs : list ObjectId) (v : string) :
  filter (fun x => negb (String.eqb x v))
         (filter (fun x => negb (String.eqb x v)) vs)
  = filter (fun x => negb (String.eqb x v)) vs.
Proof.
  induction vs as [|x vs IH]; cbn; [reflexivity|].
  destruct (negb (String.eqb x v)) eqn:Hx; cbn; [|exact IH].
  now rewrite Hx, IH.
Qed.

Section PlaylistVideos.

Variable isValidObjectId : string -> bool.
Variable castObjectId : string -> ObjectId.

Local Notation "'add'" := (addVideoToPlaylist isValidObjectId castObjectId).
Local Notation "'remove'" := (removeVideoFromPlaylist isValidObjectId castObjectId).

Lemma storedPlaylist_afterUpdate (now : Z) (id : ObjectId)
      (f : Playlist.t -> Playlist.t) (w : World) :
  (forall d, Playlist._id (f d) = Playlist._id d) ->
  storedPlaylist id (db (afterPlaylistUpdate now id f w))
  = option_map (fun d => touch now (f d)) (storedPlaylist id (db w)).
Proof.
  intros Hid. unfold storedPlaylist, afterPlaylistUpdate; cbn.
  apply find_updateFirst_same.
  intros x Hx. unfold hasId in *; cbn in *. now rewrite Hid.
Qed.

Lemma addVideoToPlaylist_run (req : Request) (p v : string) (w : World)
      (pl : Playlist.t) :
  isValidObjectId p = true ->
  isValidObjectId v = true ->
  storedPlaylist (castObjectId p) (db w) = Some pl ->
  Playlist.owner pl = user req ->
  add req p v w =
  if includes (Playlist.videos pl) v
  then (inl (mkAPIError 400 "Video already exists in playlist"),
        afterPlaylistLookup w)
  else (inr (respond 200
                     (DPlaylist (storedPlaylist (castObjectId p)
                                   (db (afterPlaylistUpdate
                                          (clock req) (castObjectId p)
                                          (pushVideo (castObjectId v)) w))))
                     "Video added to playlist successfully"),
        afterPlaylistUpdate (clock req) (castObjectId p)
                            (pushVideo (castObjectId v)) w).
Proof.
  intros Hp Hv Hstored Howner. unfold addVideoToPlaylist.
  rewrite Hp, Hv; cbn [negb orb]; rewrite run_throwIf_false.
  unfold findById; rewrite run_bind; cbn.
  unfold storedPlaylist in Hstored. rewrite Hstored.
  rewrite Howner, String.eqb_refl; cbn [negb]; rewrite run_throwIf_false.
  destruct (includes (Playlist.videos pl) v); reflexivity.
Qed.

Lemma removeVideoFromPlaylist_run (req : Request) (p v : string) (w : World)
      (pl : Playlist.t) :
  isValidObjectId p = true ->
  isValidObjectId v = true ->
  storedPlaylist (castObjectId p) (db w) = Some pl ->
  Playlist.owner pl = user req ->
  remove req p v w =
  (inr (respond 200
                (DPlaylist (storedPlaylist (castObjectId p)
                              (db (afterPlaylistUpdate
                                     (clock req) (castObjectId p)
                                     (pullVideo (castObjectId v)) w))))
                "Video removed from playlist successfully"),
   afterPlaylistUpdate (clock req) (castObjectId p)
                       (pullVideo (castObjectId v)) w).
Proof.
  intros Hp Hv Hstored Howner. unfold removeVideoFromPlaylist.
  rewrite Hp, Hv; cbn [negb orb]; rewrite run_throwIf_false.
  unfold findById; rewrite run_bind; cbn.
  unfold storedPlaylist in Hstored. rewrite Hstored.
  rewrite Howner, String.eqb_refl; cbn [negb]; rewrite run_throwIf_false.
  reflexivity.
Qed.

Lemma storedPlaylist_other (now : Z) (id id' : ObjectId)
      (f : Playlist.t -> Playlist.t) (w : World) :
  (forall d, Playlist._id (f d) = Playlist._id d) ->
  id' <> id ->
  storedPlaylist id' (db (afterPlaylistUpdate now id f w))
  = storedPlaylist id' (db w).
Proof.
  intros Hid Hneq. unfold storedPlaylist, afterPlaylistUpdate; cbn.
  apply find_updateFirst_other.
  - intros x. unfold hasId; cbn. now rewrite Hid.
  - intros x Hx. unfold hasId in *; cbn in *.
    apply String.eqb_eq in Hx. rewrite Hx.
    apply String.eqb_neq. congruence.
Qed.

(** X22. The owner adds a video to a stored playlist, both identifiers
    well formed.  The membership test is made on the route string as it is
    spelled: if that string is the string form of a reference of the
    sequence the handler throws 400 and the store is the one from before.
    Otherwise it answers 200 with the updated playlist, whose sequence is
    the old one with the ObjectId the string spells appended at the end;
    that ObjectId occurs once when the sequence did not hold it; the
    playlist's other fields apart from the update timestamp, and every
    other playlist, are as before. *)
Theorem add_video_appends_at_the_end
        (req : Request) (p v : string) (w : World) (pl : Playlist.t) :
  isValidObjectId p = true ->
  isValidObjectId v = true ->
  storedPlaylist (castObjectId p) (db w) = Some pl ->
  Playlist.owner pl = user req ->
  let w' := afterPlaylistUpdate (clock req) (castObjectId p)
                                (pushVideo (castObjectId v)) w in
  (In v (Playlist.videos pl) ->
   add req p v w
   = (inl (mkAPIError 400 "Video already exists in playlist"),
      afterPlaylistLookup w)
   /\ db (afterPlaylistLookup w) = db w)
  /\ (~ In v (Playlist.videos pl) ->
      exists pl',
        add req p v w
        = (inr (respond 200 (DPlaylist (Some pl'))
                        "Video added to playlist successfully"), w')
        /\ storedPlaylist (castObjectId p) (db w') = Some pl'
        /\ Playlist.videos pl' = Playlist.videos pl ++ [castObjectId v]
        /\ (~ In (castObjectId v) (Playlist.videos pl) ->
            count_occ string_dec (Playlist.videos pl') (castObjectId v)
            = 1%nat)
        /\ (Playlist._id pl', Playlist.name pl', Playlist.description pl',
            Playlist.owner pl', Playlist.createdAt pl')
           = (Playlist._id pl, Playlist.name pl, Playlist.description pl,
              Playlist.owner pl, Playlist.createdAt pl)
        /\ (forall p', p' <> castObjectId p ->
            storedPlaylist p' (db w') = storedPlaylist p' (db w))).
Proof.
  intros Hp Hv Hstored Howner w'. subst w'. split.
  - intros Hin. split; [|reflexivity].
    rewrite (addVideoToPlaylist_run req p v w pl) by assumption.
    apply includes_In in Hin. now rewrite Hin.
  - intros Hnot.
    exists (touch (clock req) (pushVideo (castObjectId v) pl)).
    assert (Hafter : storedPlaylist
                       (castObjectId p)
                       (db (afterPlaylistUpdate (clock req) (castObjectId p)
                                                (pushVideo (castObjectId v))
                                                w))
                     = Some (touch (clock req)
                                   (pushVideo (castObjectId v) pl))).
    { rewrite storedPlaylist_afterUpdate by reflexivity.
      now rewrite Hstored. }
    split; [|split; [exact Hafter | split; [reflexivity | split]]].
    + rewrite (addVideoToPlaylist_run req p v w pl) by assumption.
      apply includes_not_In in Hnot. rewrite Hnot. now rewrite Hafter.
    + intros Hfresh.
      cbn [touch PlaylistModel pushVideo setVideos Playlist.videos].
      rewrite count_occ_app.
      unfold ObjectId in *.
      apply (count_occ_not_In string_dec) in Hfresh. rewrite Hfresh.
      cbn. destruct (string_dec (castObjectId v) (castObjectId v))
        as [_|Hne]; [reflexivity|].
      contradiction.
    + split; [reflexivity|].
      intros p' Hneq. now apply storedPlaylist_other.
Qed.

(** X23.  The owner removes a video from a stored playlist, both identifiers
    well formed.  The handler answers 200 whether or not the sequence holds
    the ObjectId the route string spells; the new sequence is the old one
    without that ObjectId, so it is the old one when the ObjectId was not
    there.  Removing a second time answers 200 again and leaves the sequence
    the first removal produced.  Adding twice an identifier that is spelled as
    its ObjectId prints does not behave so: the second add throws 400. *)
Theorem remove_video_is_idempotent
        (r1 r2 : Request) (p v : string) (w : World) (pl : Playlist.t) :
  isValidObjectId p = true ->
  isValidObjectId v = true ->
  storedPlaylist (castObjectId p) (db w) = Some pl ->
  Playlist.owner pl = user r1 ->
  user r2 = user r1 ->
  (exists pl',
      remove r1 p v w
      = (inr (respond 200 (DPlaylist (Some pl'))
                      "Video removed from playlist successfully"),
         afterPlaylistUpdate (clock r1) (castObjectId p)
                             (pullVideo (castObjectId v)) w)
      /\ storedPlaylist
           (castObjectId p)
           (db (afterPlaylistUpdate (clock r1) (castObjectId p)
                                    (pullVideo (castObjectId v)) w))
         = Some pl'
      /\ Playlist.videos pl'
         = filter (fun x => negb (String.eqb x (castObjectId v)))
                  (Playlist.videos pl)
      /\ ~ In (castObjectId v) (Playlist.videos pl')
      /\ (~ In (castObjectId v) (Playlist.videos pl) ->
          Playlist.videos pl' = Playlist.videos pl))
  /\ (map (fun r => fst (outcome r))
          (fst (serveAll [remove r1 p v; remove r2 p v] w))
      = [200; 200]%Z
      /\ option_map Playlist.videos
           (storedPlaylist
              (castObjectId p)
              (db (snd (serveAll [remove r1 p v; remove r2 p v] w))))
         = option_map Playlist.videos
             (storedPlaylist (castObjectId p)
                             (db (snd (serveAll [remove r1 p v] w)))))
  /\ (castObjectId v = v ->
      exists first,
         map (fun r => fst (outcome r))
             (fst (serveAll [add r1 p v; add r2 p v] w))
         = [first; 400]%Z).
Proof.
  intros Hp Hv Hstored Howner Hu2.
  assert (Hafter : forall r f,
             (forall d, Playlist._id (f d) = Playlist._id d) ->
             storedPlaylist (castObjectId p)
                            (db (afterPlaylistUpdate (clock r)
                                                     (castObjectId p) f w))
             = Some (touch (clock r) (f pl))).
  { intros r f Hid. rewrite storedPlaylist_afterUpdate by assumption.
    now rewrite Hstored. }
  assert (Hrem1 := removeVideoFromPlaylist_run r1 p v w pl
                     Hp Hv Hstored Howner).
  rewrite (Hafter r1 (pullVideo (castObjectId v))) in Hrem1 by reflexivity.
  split; [|split].
  - exists (touch (clock r1) (pullVideo (castObjectId v) pl)).
    split; [exact Hrem1|].
    split; [now apply Hafter|].
    split; [reflexivity|].
    split.
    + cbn. intros Hin. apply filter_In in Hin. destruct Hin as [_ Hne].
      now rewrite String.eqb_refl in Hne.
    + intros Hnot. cbn. now apply pull_absent.
  - assert (Hrem2 := removeVideoFromPlaylist_run
                       r2 p v (afterPlaylistUpdate
                                 (clock r1) (castObjectId p)
                                 (pullVideo (castObjectId v)) w)
                       (touch (clock r1) (pullVideo (castObjectId v) pl))
                       Hp Hv
                       (Hafter r1 (pullVideo (castObjectId v))
                               (fun d => eq_refl))).
    cbn [serveAll]. rewrite Hrem1, Hrem2 by (cbn; congruence).
    cbn [fst snd map outcome]. split; [reflexivity|].
    rewrite storedPlaylist_afterUpdate by reflexivity.
    rewrite (Hafter r1 (pullVideo (castObjectId v))) by reflexivity.
    cbn. now rewrite pull_twice.
  - intros Hcanon.
    pose proof (addVideoToPlaylist_run r1 p v w pl Hp Hv Hstored Howner)
      as Hadd1.
    destruct (includes (Playlist.videos pl) v) eqn:Hinc.
    + exists 400%Z.
      assert (Hadd2 : add r2 p v (afterPlaylistLookup w)
                      = (inl (mkAPIError
                                400 "Video already exists in playlist"),
                         afterPlaylistLookup (afterPlaylistLookup w))).
      { rewrite (addVideoToPlaylist_run r2 p v _ pl)
          by (assumption || congruence).
        now rewrite Hinc. }
      cbn [serveAll]. rewrite Hadd1, Hadd2. reflexivity.
    + exists 200%Z.
      assert (Hadd2 : add r2 p v (afterPlaylistUpdate
                                    (clock r1) (castObjectId p)
                                    (pushVideo (castObjectId v)) w)
                      = (inl (mkAPIError
                                400 "Video already exists in playlist"),
                         afterPlaylistLookup
                           (afterPlaylistUpdate
                              (clock r1) (castObjectId p)
                              (pushVideo (castObjectId v)) w))).
      { rewrite (addVideoToPlaylist_run
                   r2 p v _
                   (touch (clock r1) (pushVideo (castObjectId v) pl)))
          by (assumption || (cbn; congruence)
              || (apply Hafter; reflexivity)).
        replace (includes
                   (Playlist.videos
                      (touch (clock r1) (pushVideo (castObjectId v) pl))) v)
          with true; [reflexivity|].
        symmetry. apply includes_In. cbn. apply in_or_app. right.
        left. exact Hcanon. }
      cbn [serveAll]. rewrite Hadd1, Hadd2. reflexivity.
Qed.

End PlaylistVideos.

(** Alice adds a second video to her playlist, which holds the first. *)
Lemma add_video_appends_at_the_end_witness :
  exists pl',
    addVideoToPlaylist Sample.isValidObjectId Sample.castObjectId
                       (Sample.asAlice Sample.fresh1 50)
                       Sample.playlist1Upper Sample.video2Upper Sample.world
    = (inr (respond 200 (DPlaylist (Some pl'))
                    "Video added to playlist successfully"),
       afterPlaylistUpdate 50 Sample.playlist1 (pushVideo Sample.video2)
                           Sample.world)
    /\ Playlist.videos pl' = [Sample.video1; Sample.video2].
Proof.
  destruct (add_video_appends_at_the_end
              Sample.isValidObjectId Sample.castObjectId
              (Sample.asAlice Sample.fresh1 50)
              Sample.playlist1Upper Sample.video2Upper Sample.world
              Sample.alicePlaylist
              eq_refl eq_refl eq_refl eq_refl)
    as (_ & Hnew).
  destruct Hnew as (pl' & Hrun & _ & Hvideos & _).
  - cbn. intros [Heq | []]. discriminate.
  - exists pl'. split; [exact Hrun | exact Hvideos].
Defined.

(** Alice removes from her playlist the video that is in it, spelling its
    identifier with an upper-case digit.  On the same playlist, a second add
    of a video under the spelling its ObjectId prints is refused. *)
Lemma remove_video_is_idempotent_witness :
  (exists pl',
      removeVideoFromPlaylist Sample.isValidObjectId Sample.castObjectId
                              (Sample.asAlice Sample.fresh1 50)
                              Sample.playlist1 Sample.video1Upper Sample.world
      = (inr (respond 200 (DPlaylist (Some pl'))
                      "Video removed from playlist successfully"),
         afterPlaylistUpdate 50 Sample.playlist1 (pullVideo Sample.video1)
                             Sample.world)
      /\ Playlist.videos pl' = [])
  /\ (exists first,
         map (fun r => fst (outcome r))
             (fst (serveAll
                     [addVideoToPlaylist Sample.isValidObjectId
                                         Sample.castObjectId
                                         (Sample.asAlice Sample.fresh1 50)
                                         Sample.playlist1 Sample.video2;
                      addVideoToPlaylist Sample.isValidObjectId
                                         Sample.castObjectId
                                         (Sample.asAlice Sample.fresh2 51)
                                         Sample.playlist1 Sample.video2]
                     Sample.world))
         = [first; 400]%Z).
Proof.
  split.
  - destruct (remove_video_is_idempotent
                Sample.isValidObjectId Sample.castObjectId
                (Sample.asAlice Sample.fresh1 50)
                (Sample.asAlice Sample.fresh2 51)
                Sample.playlist1 Sample.video1Upper Sample.world
                Sample.alicePlaylist
                eq_refl eq_refl eq_refl eq_refl eq_refl)
      as ((pl' & Hrun & _ & Hvideos & _) & _).
    exists pl'. split; [exact Hrun | exact Hvideos].
  - destruct (remove_video_is_idempotent
                Sample.isValidObjectId Sample.castObjectId
                (Sample.asAlice Sample.fresh1 50)
                (Sample.asAlice Sample.fresh2 51)
                Sample.playlist1 Sample.video2 Sample.world
                Sample.alicePlaylist
                eq_refl eq_refl eq_refl eq_refl eq_refl)
      as (_ & _ & Hadd).
    exact (Hadd eq_refl).
Defined.

(** C4. Alice's playlist holds one video.  She adds that video again, its
    identifier spelled with an upper-case digit: the identifier is well
    formed and spells the ObjectId the playlist holds, yet the handler
    answers 200 and the stored sequence holds the ObjectId twice. *)
Theorem add_video_already_present_stored_twice :
  Sample.isValidObjectId Sample.video1Upper = true
  /\ Sample.castObjectId Sample.video1Upper = Sample.video1
  /\ option_map Playlist.videos
       (storedPlaylist Sample.playlist1 Sample.store)
     = Some [Sample.video1]
  /\ exists pl',
      addVideoToPlaylist Sample.isValidObjectId Sample.castObjectId
                         (Sample.asAlice Sample.fresh1 50)
                         Sample.playlist1 Sample.video1Upper Sample.world
      = (inr (respond 200 (DPlaylist (Some pl'))
                      "Video added to playlist successfully"),
         afterPlaylistUpdate 50 Sample.playlist1 (pushVideo Sample.video1)
                             Sample.world)
      /\ option_map Playlist.videos
           (storedPlaylist
              Sample.playlist1
              (db (afterPlaylistUpdate 50 Sample.playlist1
                                       (pushVideo Sample.video1)
                                       Sample.world)))
         = Some [Sample.video1; Sample.video1].
Proof.
  repeat split. eexists. split; reflexivity.
Qed.

(** C10. Alice adds to her playlist, twice in a row, a video that is not
    in it, its identifier spelled with an upper-case digit both times: the
    second add is not rejected, both answer 200, and the stored sequence
    ends with the ObjectId twice.  One removal then takes both out. *)
Theorem second_add_not_rejected :
  map (fun r => fst (outcome r))
      (fst (serveAll
              [addVideoToPlaylist Sample.isValidObjectId Sample.castObjectId
                                  (Sample.asAlice Sample.fresh1 50)
                                  Sample.playlist1 Sample.video2Upper;
               addVideoToPlaylist Sample.isValidObjectId Sample.castObjectId
                                  (Sample.asAlice Sample.fresh2 51)
                                  Sample.playlist1 Sample.video2Upper]
              Sample.world))
  = [200; 200]%Z
  /\ option_map Playlist.videos
       (storedPlaylist
          Sample.playlist1
          (db (snd (serveAll
                      [addVideoToPlaylist
                         Sample.isValidObjectId Sample.castObjectId
                         (Sample.asAlice Sample.fresh1 50)
                         Sample.playlist1 Sample.video2Upper;
                       addVideoToPlaylist
                         Sample.isValidObjectId Sample.castObjectId
                         (Sample.asAlice Sample.fresh2 51)
                         Sample.playlist1 Sample.video2Upper]
                      Sample.world))))
     = Some [Sample.video1; Sample.video2; Sample.video2]
  /\ option_map Playlist.videos
       (storedPlaylist
          Sample.playlist1
          (db (snd (serveAll
                      [addVideoToPlaylist
                         Sample.isValidObjectId Sample.castObjectId
                         (Sample.asAlice Sample.fresh1 50)
                         Sample.playlist1 Sample.video2Upper;
                       addVideoToPlaylist
                         Sample.isValidObjectId Sample.castObjectId
                         (Sample.asAlice Sample.fresh2 51)
                         Sample.playlist1 Sample.video2Upper;
                       removeVideoFromPlaylist
                         Sample.isValidObjectId Sample.castObjectId
                         (Sample.asAlice Sample.fresh3 52)
                         Sample.playlist1 Sample.video2Upper]
                      Sample.world))))
     = Some [Sample.video1].
Proof.
  repeat split.
Qed.

(* ================================================================== *)
(** * Required text *)

Lemma trimStart_nil (s : jsstring) :
  Js.trimStart s = [] <-> forallb Js.isWhiteSpace s = true.
Proof.
  induction s as [|c s IH]; cbn; [tauto|].
  destruct (Js.isWhiteSpace c); cbn; [exact IH|].
  split; discriminate.
Qed.

Lemma trimStart_suffix (s : jsstring) :
  forallb Js.isWhiteSpace (Js.trimStart s) = true ->
  forallb Js.isWhiteSpace s = true.
Proof.
  induction s as [|c s IH]; cbn; [auto|].
  destruct (Js.isWhiteSpace c) eqn:Hc; cbn; [exact IH|].
  now rewrite Hc.
Qed.

Lemma forallb_rev {A} (p : A -> bool) (l : list A) :
  forallb p (rev l) = forallb p l.
Proof.
  induction l as [|x l IH]; cbn; [reflexivity|].
  rewrite forallb_app, IH. cbn. rewrite andb_true_r. apply andb_comm.
Qed.

(** [s.trim()] is the empty string exactly when [s] is whitespace only. *)
Lemma trim_empty (s : jsstring) :
  Js.isEmpty (Js.trim s) = true <-> forallb Js.isWhiteSpace s = true.
Proof.
  unfold Js.trim, Js.trimEnd.
  assert (Hempty : forall t : jsstring, Js.isEmpty t = true <-> t = [])
    by (intros [|? ?]; cbn; split; congruence).
  rewrite Hempty. split.
  - intros Hnil.
    apply (f_equal (@rev N)) in Hnil. rewrite rev_involutive in Hnil.
    cbn in Hnil. apply trimStart_nil in Hnil. rewrite forallb_rev in Hnil.
    now apply trimStart_suffix.
  - intros Hws. apply trimStart_nil in Hws. now rewrite Hws.
Qed.

Lemma missingOrBlank_blank (x : option jsstring) :
  Js.missingOrBlank x = true <-> blank x.
Proof.
  destruct x as [s|]; cbn; [|tauto].
  rewrite <- trim_empty.
  destruct s as [|c s]; cbn; [tauto|].
  tauto.
Qed.

Section Content.

Variable isValidObjectId : string -> bool.
Variable castObjectId : string -> ObjectId.

(** C8. Creating a tweet or a comment with content that is missing, empty
    or whitespace only throws 400 with the message "... content is
    required" and touches nothing.  With any other content the tweet is
    created with 201, and so is the comment when the video identifier is
    well formed; the document answered and appended to the collection
    carries the submitted content as it was submitted, and for a comment
    the ObjectId the video identifier spells. *)
Theorem content_is_required_and_stored_verbatim
        (req : Request) (content : option jsstring) (videoId : string)
        (w : World) :
  (blank content ->
   createTweet req content w
   = (inl (mkAPIError 400 "Tweet content is required"), w)
   /\ addComment isValidObjectId castObjectId req videoId content w
      = (inl (mkAPIError 400 "Comment content is required"), w))
  /\ (forall s,
         content = Some s ->
         forallb Js.isWhiteSpace s = false ->
         (exists w',
             createTweet req content w
             = (inr (respond 201
                             (DTweet (Some (Tweet.mk (freshId req) s
                                                     (user req) (clock req)
                                                     (clock req))))
                             "Tweet created successfully"),
                w')
             /\ tweets (db w')
                = tweets (db w)
                  ++ [Tweet.mk (freshId req) s (user req) (clock req)
                               (clock req)])
         /\ (isValidObjectId videoId = true ->
             exists w',
               addComment isValidObjectId castObjectId req videoId content w
               = (inr (respond 201
                               (DComment
                                  (Some (Comment.mk (freshId req) s
                                                    (castObjectId videoId)
                                                    (user req) (clock req)
                                                    (clock req))))
                               "Comment added successfully"),
                  w')
               /\ comments (db w')
                  = comments (db w)
                    ++ [Comment.mk (freshId req) s (castObjectId videoId)
                                   (user req) (clock req) (clock req)])).
Proof.
  split.
  - intros Hblank. apply missingOrBlank_blank in Hblank.
    unfold createTweet, addComment. now rewrite Hblank.
  - intros s -> Hfilled.
    assert (Hok : Js.missingOrBlank (Some s) = false).
    { destruct (Js.missingOrBlank (Some s)) eqn:Hmob; [|reflexivity].
      apply missingOrBlank_blank in Hmob. cbn in Hmob. congruence. }
    split.
    + unfold createTweet. rewrite Hok, run_throwIf_false.
      eexists. split; reflexivity.
    + intros Hvalid. unfold addComment.
      rewrite Hok, run_throwIf_false, Hvalid; cbn [negb].
      rewrite run_throwIf_false.
      eexists. split; reflexivity.
Qed.

End Content.

(** Alice tweets "hi". *)
Lemma content_witness :
  exists w',
    createTweet (Sample.asAlice Sample.fresh1 60) (Some (Js.lit "hi"))
                Sample.world
    = (inr (respond 201
                    (DTweet (Some (Tweet.mk Sample.fresh1 (Js.lit "hi")
                                            Sample.alice 60 60)))
                    "Tweet created successfully"),
       w')
    /\ tweets (db w')
       = [Sample.aliceTweet;
          Tweet.mk Sample.fresh1 (Js.lit "hi") Sample.alice 60 60].
Proof.
  destruct (content_is_required_and_stored_verbatim
              Sample.isValidObjectId Sample.castObjectId
              (Sample.asAlice Sample.fresh1 60)
              (Some (Js.lit "hi")) Sample.video1 Sample.world)
    as (_ & Hfilled).
  destruct (Hfilled (Js.lit "hi") eq_refl eq_refl) as (Htweet & _).
  exact Htweet.
Defined.

(** Alice tweets three spaces. *)
Example whitespace_only_tweet :
  createTweet (Sample.asAlice Sample.fresh1 60) (Some (Js.lit "   "))
              Sample.world
  = (inl (mkAPIError 400 "Tweet content is required"), Sample.world).
Proof. reflexivity. Qed.

(* ================================================================== *)
(** * Validation order *)

Section ValidationOrder.

Variable isValidObjectId : string -> bool.
Variable castObjectId : string -> ObjectId.
Variable uploadOnCloudinary : string -> option Upload.

(** C5, as the code has it.  The five operations that validate both an
    identifier and a text field do both before any storage call: a
    malformed identifier and a blank text are each refused with 400, whether
    the other one is good or bad, and the world is the one from before, its
    storage log included.  [updateVideo] checks the identifier first;
    [updateTweet], [updateComment], [addComment] and [updatePlaylist] check
    the text first, so when both are bad they throw the content error, and
    they throw the identifier error when only the identifier is bad. *)
Theorem validation_order_by_operation
        (req : Request) (id : string) (text description : option jsstring)
        (thumbnail : option string) (w : World) :
  (isValidObjectId id = false ->
   blank text ->
   updateVideo isValidObjectId castObjectId uploadOnCloudinary req id text
               description thumbnail w
   = (inl (mkAPIError 400 "Invalid video ID"), w)
   /\ updateTweet isValidObjectId castObjectId req id text w
      = (inl (mkAPIError 400 "Tweet content is required"), w)
   /\ updateComment isValidObjectId castObjectId req id text w
      = (inl (mkAPIError 400 "Comment content is required"), w)
   /\ addComment isValidObjectId castObjectId req id text w
      = (inl (mkAPIError 400 "Comment content is required"), w)
   /\ updatePlaylist isValidObjectId castObjectId req id text description w
      = (inl (mkAPIError 400 "Playlist name is required"), w))
  /\ (isValidObjectId id = false ->
      ~ blank text ->
      updateVideo isValidObjectId castObjectId uploadOnCloudinary req id text
                  description thumbnail w
      = (inl (mkAPIError 400 "Invalid video ID"), w)
      /\ updateTweet isValidObjectId castObjectId req id text w
         = (inl (mkAPIError 400 "Invalid tweet ID"), w)
      /\ updateComment isValidObjectId castObjectId req id text w
         = (inl (mkAPIError 400 "Invalid comment ID"), w)
      /\ addComment isValidObjectId castObjectId req id text w
         = (inl (mkAPIError 400 "Invalid video ID"), w)
      /\ updatePlaylist isValidObjectId castObjectId req id text description w
         = (inl (mkAPIError 400 "Invalid playlist ID"), w))
  /\ (isValidObjectId id = true ->
      blank text ->
      updateVideo isValidObjectId castObjectId uploadOnCloudinary req id text
                  description thumbnail w
      = (inl (mkAPIError 400 "Video title is required"), w)
      /\ updateTweet isValidObjectId castObjectId req id text w
         = (inl (mkAPIError 400 "Tweet content is required"), w)
      /\ updateComment isValidObjectId castObjectId req id text w
         = (inl (mkAPIError 400 "Comment content is required"), w)
      /\ addComment isValidObjectId castObjectId req id text w
         = (inl (mkAPIError 400 "Comment content is required"), w)
      /\ updatePlaylist isValidObjectId castObjectId req id text description w
         = (inl (mkAPIError 400 "Playlist name is required"), w)).
Proof.
  assert (Hfilled : ~ blank text -> Js.missingOrBlank text = false).
  { intros Hfilled.
    destruct (Js.missingOrBlank text) eqn:Hmob; [|reflexivity].
    apply missingOrBlank_blank in Hmob. contradiction. }
  split; [|split].
  - intros Hbad Hblank. apply missingOrBlank_blank in Hblank.
    unfold updateVideo, updateTweet, updateComment, addComment,
      updatePlaylist.
    rewrite Hbad, Hblank. repeat split; reflexivity.
  - intros Hbad Hok. apply Hfilled in Hok.
    unfold updateVideo, updateTweet, updateComment, addComment,
      updatePlaylist.
    rewrite Hbad, Hok. repeat split; reflexivity.
  - intros Hgood Hblank. apply missingOrBlank_blank in Hblank.
    unfold updateVideo, updateTweet, updateComment, addComment,
      updatePlaylist.
    rewrite Hgood, Hblank. repeat split; reflexivity.
Qed.

End ValidationOrder.

(** A malformed tweet identifier together with blank content: the error is
    the one of the content check.  Blank content for a stored video: the
    title is refused and the store is not asked for the video. *)
Lemma validation_order_witness :
  updateTweet Sample.isValidObjectId Sample.castObjectId
              (Sample.asAlice Sample.fresh1 70)
              "not-an-id" (Some (Js.lit "   ")) Sample.world
  = (inl (mkAPIError 400 "Tweet content is required"), Sample.world)
  /\ updateVideo Sample.isValidObjectId Sample.castObjectId
                 Sample.uploadOnCloudinary
                 (Sample.asAlice Sample.fresh1 70)
                 Sample.video1 (Some (Js.lit "   ")) None None Sample.world
     = (inl (mkAPIError 400 "Video title is required"), Sample.world).
Proof.
  split.
  - destruct (validation_order_by_operation
                Sample.isValidObjectId Sample.castObjectId
                Sample.uploadOnCloudinary
                (Sample.asAlice Sample.fresh1 70) "not-an-id"
                (Some (Js.lit "   ")) None None Sample.world)
      as (Hboth & _).
    destruct (Hboth eq_refl eq_refl) as (_ & Htweet & _).
    exact Htweet.
  - destruct (validation_order_by_operation
                Sample.isValidObjectId Sample.castObjectId
                Sample.uploadOnCloudinary
                (Sample.asAlice Sample.fresh1 70) Sample.video1
                (Some (Js.lit "   ")) None None Sample.world)
      as (_ & _ & Htext).
    destruct (Htext eq_refl eq_refl) as (Hvideo & _).
    exact Hvideo.
Defined.

(** With a malformed identifier and blank content, [updateTweet] throws
    the content error, not the identifier error. *)
Lemma shape_validation_first_counterexample :
  Sample.isValidObjectId "not-an-id" = false
  /\ blank (Some (Js.lit "   "))
  /\ updateTweet Sample.isValidObjectId Sample.castObjectId
                 (Sample.asAlice Sample.fresh1 70)
                 "not-an-id" (Some (Js.lit "   ")) Sample.world
     = (inl (mkAPIError 400 "Tweet content is required"), Sample.world)
  /\ updateTweet Sample.isValidObjectId Sample.castObjectId
                 (Sample.asAlice Sample.fresh1 70)
                 "not-an-id" (Some (Js.lit "   ")) Sample.world
     <> (inl (mkAPIError 400 "Invalid tweet ID"), Sample.world).
Proof.
  split; [reflexivity | split; [reflexivity | split; [reflexivity|]]].
  cbn. intros Heq. discriminate Heq.
Qed.

(* ================================================================== *)
(** * Order of the list read models *)

Section SortStage.

Context {A : Type}.
Variable leb : A -> A -> bool.
Hypothesis leb_total : forall x y, leb x y = false -> leb y x = true.

Lemma insertBy_HdRel (a x : A) (l : list A) :
  leb a x = true ->
  HdRel (fun u v => leb u v = true) a l ->
  HdRel (fun u v => leb u v = true) a (insertBy leb x l).
Proof.
  intros Hax Hhd. destruct l as [|y l]; cbn.
  - now constructor.
  - destruct (leb x y); constructor; [assumption|].
    now inversion Hhd.
Qed.

Lemma insertBy_sorted (x : A) (l : list A) :
  sortedBy leb l -> sortedBy leb (insertBy leb x l).
Proof.
  unfold sortedBy. induction l as [|y l IH]; cbn; intros Hsorted.
  - repeat constructor.
  - inversion Hsorted as [|? ? Hrest Hhd]; subst.
    destruct (leb x y) eqn:Hxy.
    + constructor; [assumption | now constructor].
    + constructor; [now apply IH|].
      apply insertBy_HdRel; [now apply leb_total | assumption].
Qed.

Lemma sortDocs_sorted (l : list A) : sortedBy leb (sortDocs leb l).
Proof.
  induction l as [|x l IH]; cbn.
  - constructor.
  - now apply insertBy_sorted.
Qed.

End SortStage.

Lemma sortedBy_skipn {A} (leb : A -> A -> bool) (n : nat) (l : list A) :
  sortedBy leb l -> sortedBy leb (skipn n l).
Proof.
  unfold sortedBy. revert l. induction n as [|n IH]; intros l Hsorted.
  - exact Hsorted.
  - destruct l as [|x l]; cbn; [constructor|].
    apply IH. now inversion Hsorted.
Qed.

Lemma sortedBy_firstn {A} (leb : A -> A -> bool) (n : nat) (l : list A) :
  sortedBy leb l -> sortedBy leb (firstn n l).
Proof.
  unfold sortedBy. revert l. induction n as [|n IH]; intros l Hsorted.
  - constructor.
  - destruct l as [|x l]; cbn; [constructor|].
    inversion Hsorted as [|? ? Hrest Hhd]; subst.
    constructor; [now apply IH|].
    destruct l as [|y l]; [rewrite firstn_nil; constructor|].
    destruct n; cbn; constructor. now inversion Hhd.
Qed.

Lemma sortedBy_map {A B} (leb : A -> A -> bool) (leb' : B -> B -> bool)
      (f : A -> B) (l : list A) :
  (forall x y, leb' (f x) (f y) = leb x y) ->
  sortedBy leb l -> sortedBy leb' (map f l).
Proof.
  unfold sortedBy. intros Hf. induction l as [|x l IH]; cbn; intros Hsorted.
  - constructor.
  - inversion Hsorted as [|? ? Hrest Hhd]; subst.
    constructor; [now apply IH|].
    destruct l as [|y l]; cbn; constructor.
    rewrite Hf. now inversion Hhd.
Qed.

Lemma sortedBy_paginate {R} (leb : R -> R -> bool) (page limit : nat)
      (l : list R) :
  sortedBy leb l -> sortedBy leb (pageDocs (paginate page limit l)).
Proof.
  intros Hsorted. cbn. now apply sortedBy_firstn, sortedBy_skipn.
Qed.

Lemma newestFirst_total {A} (createdAt : A -> Z) (x y : A) :
  newestFirst createdAt x y = false -> newestFirst createdAt y x = true.
Proof. unfold newestFirst. lia. Qed.

Lemma Js_leb_total (s t : jsstring) : Js.leb s t = false -> Js.leb t s = true.
Proof.
  revert t. induction s as [|c s IH]; intros [|d t]; cbn;
    try reflexivity; try discriminate.
  destruct (N.ltb_spec c d); [discriminate|].
  destruct (N.eqb_spec c d) as [->|Hne]; cbn.
  - intros Hst. rewrite N.eqb_refl, (IH t Hst). apply orb_true_r.
  - intros _. destruct (N.ltb_spec d c); [reflexivity | lia].
Qed.

Lemma valueLeb_total (a b : Value) :
  valueLeb a b = false -> valueLeb b a = true.
Proof.
  destruct a, b; cbn; try reflexivity; try discriminate.
  - lia.
  - intros H. destruct (String.leb_total s s0) as [H1|H1]; congruence.
  - apply Js_leb_total.
  - intros H. destruct (String.leb_total i i0) as [H1|H1]; congruence.
  - destruct b, b0; cbn; congruence.
  - lia.
Qed.

Lemma byField_total {D} (get : D -> Value) (ascending : bool) (x y : D) :
  byField get ascending x y = false -> byField get ascending y x = true.
Proof. unfold byField. destruct ascending; apply valueLeb_total. Qed.

Section ListOrder.

Variable isValidObjectId : string -> bool.
Variable castObjectId : string -> ObjectId.
Variable search : jsstring -> list Video.t -> list Video.t.

Lemma videoOrder_sorted (q : VideoQuery.t) (s : Store) (l : list Video.t)
      (page limit : nat) :
  sortedBy (fun x y => videoOrder q (doc x) (doc y))
           (pageDocs (paginate page limit
                               (map (videoWithOwner s)
                                    (sortDocs (videoOrder q) l)))).
Proof.
  apply sortedBy_paginate.
  apply sortedBy_map with (leb := videoOrder q); [reflexivity|].
  apply sortDocs_sorted. intros x y. apply byField_total.
Qed.

Lemma videoOrder_default (q : VideoQuery.t) (x y : Video.t) :
  Js.truthyId (VideoQuery.sortBy q) && Js.truthyId (VideoQuery.sortType q)
  = false ->
  videoOrder q x y = newestFirst Video.createdAt x y.
Proof.
  intros Hdefault. unfold videoOrder, sortOptions. now rewrite Hdefault.
Qed.

Lemma videoOrder_explicit (q : VideoQuery.t) (field direction : string)
      (x y : Video.t) :
  VideoQuery.sortBy q = Some field -> field <> EmptyString ->
  VideoQuery.sortType q = Some direction -> direction <> EmptyString ->
  videoOrder q x y
  = byField (videoField field) (String.eqb direction "asc") x y.
Proof.
  intros Hby Hfield Htype Hdirection.
  unfold videoOrder, sortOptions. rewrite Hby, Htype. cbn.
  apply String.eqb_neq in Hfield, Hdirection.
  now rewrite Hfield, Hdirection.
Qed.

Lemma sortedBy_ext {A} (leb leb' : A -> A -> bool) (l : list A) :
  (forall x y, leb x y = leb' x y) -> sortedBy leb l -> sortedBy leb' l.
Proof.
  intros Hext Hsorted. rewrite <- (map_id l).
  apply sortedBy_map with (leb := leb); [|assumption].
  intros x y. now rewrite Hext.
Qed.

(** X24. The four list pipelines that have a sort stage.  The tweets of a user,
    the comments of a video (page by page) and the liked videos come sorted
    by creation time, newest first.  The video listing comes sorted newest
    first unless both a sort field and a sort direction are given; then it
    is sorted on that field, ascending when the direction is "asc" and
    descending for any other direction. *)
Theorem list_read_models_order
        (req : Request) (userId videoId : string) (page limit : option nat)
        (q : VideoQuery.t) (w : World) :
  (isValidObjectId userId = true ->
   exists l w',
     getUserTweets isValidObjectId castObjectId userId w
     = (inr (respond 200 (DTweets l) "Tweets fetched successfully"), w')
     /\ descending tvCreatedAt l)
  /\ (isValidObjectId videoId = true ->
      exists pg w',
        getVideoComments isValidObjectId castObjectId videoId page limit w
        = (inr (respond 200 (DComments pg) "Comments fetched successfully"),
           w')
        /\ descending (fun c => Comment.createdAt (doc c)) (pageDocs pg))
  /\ (exists l w',
         getLikedVideos req w
         = (inr (respond 200 (DLikedVideos l)
                         "Liked videos fetched successfully"), w')
         /\ descending lvCreatedAt l)
  /\ (Js.truthyId (VideoQuery.userId q) = false
      \/ isValidObjectId (orDefault (VideoQuery.userId q) EmptyString) = true ->
      exists pg w',
        getAllVideos isValidObjectId castObjectId search q w
        = (inr (respond 200 (DVideos pg) "Videos fetched successfully"), w')
        /\ (Js.truthyId (VideoQuery.sortBy q)
            && Js.truthyId (VideoQuery.sortType q) = false ->
            descending (fun v => Video.createdAt (doc v)) (pageDocs pg))
        /\ (forall field direction,
               VideoQuery.sortBy q = Some field -> field <> EmptyString ->
               VideoQuery.sortType q = Some direction ->
               direction <> EmptyString ->
               sortedBy (fun x y => byField (videoField field)
                                            (String.eqb direction "asc")
                                            (doc x) (doc y))
                        (pageDocs pg))).
Proof.
  repeat split.
  - intros Hvalid. unfold getUserTweets.
    rewrite Hvalid; cbn [negb]; rewrite run_throwIf_false.
    do 2 eexists. split; [reflexivity|].
    apply sortDocs_sorted. intros x y. apply newestFirst_total.
  - intros Hvalid. unfold getVideoComments.
    rewrite Hvalid; cbn [negb]; rewrite run_throwIf_false.
    do 2 eexists. split; [reflexivity|].
    apply sortedBy_paginate, sortDocs_sorted.
    intros x y. apply newestFirst_total.
  - unfold getLikedVideos. do 2 eexists. split; [reflexivity|].
    apply sortDocs_sorted. intros x y. apply newestFirst_total.
  - intros Hfilter. unfold getAllVideos.
    replace (Js.truthyId (VideoQuery.userId q)
             && negb (isValidObjectId
                        (orDefault (VideoQuery.userId q) EmptyString)))
      with false
      by (destruct Hfilter as [-> | ->];
          [reflexivity | now rewrite andb_false_r]).
    rewrite run_throwIf_false.
    do 2 eexists. split; [reflexivity|]. split.
    + intros Hdefault.
      eapply sortedBy_ext; [|apply videoOrder_sorted].
      intros x y. now apply videoOrder_default.
    + intros field direction Hby Hfield Htype Hdirection.
      eapply sortedBy_ext; [|apply videoOrder_sorted].
      intros x y. now apply videoOrder_explicit.
Qed.

End ListOrder.

(** Alice's tweets, listed from the sample store under an upper-case
    spelling of her identifier. *)
Lemma list_read_models_order_witness :
  exists l w',
    getUserTweets Sample.isValidObjectId Sample.castObjectId
                  Sample.aliceUpper Sample.world
    = (inr (respond 200 (DTweets l) "Tweets fetched successfully"), w')
    /\ descending tvCreatedAt l.
Proof.
  destruct (list_read_models_order
              Sample.isValidObjectId Sample.castObjectId Sample.search
              (Sample.asAlice Sample.fresh1 80) Sample.aliceUpper
              Sample.video1 None None
              (VideoQuery.mk None None None None None None) Sample.world)
    as (Htweets & _).
  exact (Htweets eq_refl).
Defined.

(** C6. The pipeline of the playlists of a user has no sort stage, where
    the pipelines of the four other lists have one.  Alice's two playlists,
    created at 10 and at 20 and stored in that order, are listed oldest
    first: the list is not sorted by creation time descending. *)
Theorem user_playlists_listed_unsorted :
  exists l w',
    getUserPlaylists Sample.isValidObjectId Sample.castObjectId Sample.alice
                     Sample.world
    = (inr (respond 200 (DPlaylists l) "User playlists fetched successfully"),
       w')
    /\ map psId l = [Sample.playlist1; Sample.playlist2]
    /\ map psCreatedAt l = [10; 20]%Z
    /\ ~ descending psCreatedAt l.
Proof.
  do 2 eexists. split; [reflexivity|]. split; [reflexivity|].
  split; [reflexivity|].
  intros Hsorted. cbn in Hsorted.
  inversion Hsorted as [|? ? _ Hhd]; subst.
  inversion Hhd as [|? ? Hle]; subst.
  discriminate Hle.
Qed.

(* ================================================================== *)
(** * What an operation leaves alone *)

(** Unfold a handler down to the two doors of the storage layer. *)
Ltac unfold_handlers :=
  cbv [handle toggleVideoLike toggleCommentLike toggleTweetLike getLikedVideos
       createPlaylist getUserPlaylists getPlaylistById addVideoToPlaylist
       removeVideoFromPlaylist deletePlaylist updatePlaylist getVideoComments
       addComment updateComment deleteComment createTweet getUserTweets
       updateTweet deleteTweet getAllVideos publishAVideo getVideoById
       updateVideo deleteVideo togglePublishStatus healthcheck
       bind throwIf ret throw findById findOne create findByIdAndDelete
       findByIdAndUpdate aggregate aggregatePaginate storageRead
       storageWrite isNull].

(** Follow every branch a handler can take. *)
Ltac every_branch :=
  repeat match goal with
         | |- context [if ?b then _ else _] => destruct b
         | |- context [match ?x with Some _ => _ | None => _ end] => destruct x
         | |- context [match ?x with [] => _ | _ :: _ => _ end] => destruct x
         end.

Section Frames.

Variable isValidObjectId : string -> bool.
Variable castObjectId : string -> ObjectId.
Variable search : jsstring -> list Video.t -> list Video.t.
Variable uploadOnCloudinary : string -> option Upload.

Local Notation "'serve'" :=
  (handle isValidObjectId castObjectId search uploadOnCloudinary).

(** X1. The listing and detail operations that have no write call (liked
    videos, playlists of a user, playlist by id, comments of a video, tweets
    of a user, video listing, health check) leave the store as it was on
    every path, failing or not, and add no write to the storage log. *)
Theorem read_operations_change_nothing
        (req : Request) (op : Operation) (w : World) :
  readOnly op = true ->
  db (snd (serve req op w)) = db w
  /\ filter isWrite (log (snd (serve req op w))) = filter isWrite (log w).
Proof.
  intros Hread.
  destruct op; try discriminate Hread; unfold_handlers; every_branch; cbn.
  all: rewrite ?filter_app; cbn; rewrite ?app_nil_r; split; reflexivity.
Qed.

(** X2. Whatever an operation does, on every path, it changes no collection
    but its own: likes for the toggles, and tweets, comments, playlists and
    videos for their controllers.  Users and subscriptions are never changed,
    and deleting a video deletes no comment, like or playlist entry that
    refers to it. *)
Theorem operations_write_one_collection
        (req : Request) (op : Operation) (c : Coll) (w : World) :
  writes op <> Some c ->
  sameColl c (db w) (db (snd (serve req op w))).
Proof.
  intros Hother.
  destruct op; unfold_handlers; every_branch; cbn.
  all: destruct c; cbn in *; try reflexivity; congruence.
Qed.

End Frames.

(** Alice lists her tweets. *)
Lemma read_operations_change_nothing_witness :
  db (snd (handle Sample.isValidObjectId Sample.castObjectId Sample.search
                  Sample.uploadOnCloudinary (Sample.asAlice Sample.fresh1 90)
                  (GetUserTweets Sample.alice) Sample.world))
  = Sample.store.
Proof.
  destruct (read_operations_change_nothing
              Sample.isValidObjectId Sample.castObjectId
              Sample.search Sample.uploadOnCloudinary
              (Sample.asAlice Sample.fresh1 90) (GetUserTweets Sample.alice)
              Sample.world eq_refl) as (Hdb & _).
  exact Hdb.
Defined.

(** Alice deletes her video; the comment on it stays. *)
Lemma operations_write_one_collection_witness :
  comments (db (snd (handle Sample.isValidObjectId Sample.castObjectId
                            Sample.search
                            Sample.uploadOnCloudinary
                            (Sample.asAlice Sample.fresh1 90)
                            (DeleteVideo Sample.video1) Sample.world)))
  = [Sample.aliceComment].
Proof.
  symmetry.
  apply (operations_write_one_collection
           Sample.isValidObjectId Sample.castObjectId
           Sample.search Sample.uploadOnCloudinary
           (Sample.asAlice Sample.fresh1 90) (DeleteVideo Sample.video1)
           Comments Sample.world).
  discriminate.
Defined.

(* ================================================================== *)
(** * Deleting a record *)

Section ModelFacts.

Context {D : Type} `{Model D}.

Lemma hasId_In (id : ObjectId) (L : list D) (d : D) :
  find (hasId id) L = Some d -> In id (map docId L).
Proof.
  intros Hfind. apply find_some in Hfind. destruct Hfind as [Hin Hid].
  unfold hasId in Hid. apply String.eqb_eq in Hid. rewrite <- Hid.
  now apply in_map.
Qed.

Lemma find_fresh (id : ObjectId) (L : list D) :
  ~ In id (map docId L) -> find (hasId id) L = None.
Proof.
  induction L as [|x L IH]; cbn; [reflexivity|].
  intros Hfresh. unfold hasId at 1.
  destruct (String.eqb_spec (docId x) id) as [Heq|_].
  - exfalso. apply Hfresh. now left.
  - apply IH. intros Hin. apply Hfresh. now right.
Qed.

Lemma removeFirst_hasId_fresh (id : ObjectId) (L : list D) :
  NoDup (map docId L) -> ~ In id (map docId (removeFirst (hasId id) L)).
Proof.
  induction L as [|x L IH]; cbn; [auto|].
  intros Hnd. inversion Hnd as [|? ? Hnotin Hrest]; subst.
  unfold hasId at 1.
  destruct (String.eqb_spec (docId x) id) as [Heq|Hne]; cbn.
  - now rewrite <- Heq.
  - intros [Heq | Hin]; [contradiction | now apply IH].
Qed.

Lemma find_removeFirst_other (id id' : ObjectId) (L : list D) :
  id' <> id ->
  find (hasId id') (removeFirst (hasId id) L) = find (hasId id') L.
Proof.
  intros Hneq. induction L as [|x L IH]; cbn; [reflexivity|].
  destruct (hasId id x) eqn:Hx; cbn.
  - destruct (hasId id' x) eqn:Hx'; [|reflexivity].
    unfold hasId in Hx, Hx'.
    apply String.eqb_eq in Hx, Hx'. congruence.
  - now rewrite IH.
Qed.

Lemma find_snoc_fresh (id : ObjectId) (L : list D) (d : D) :
  ~ In id (map docId L) -> docId d = id ->
  find (hasId id) (L ++ [d]) = Some d.
Proof.
  intros Hfresh Hid. induction L as [|x L IH]; cbn.
  - unfold hasId. now rewrite Hid, String.eqb_refl.
  - unfold hasId at 1.
    destruct (String.eqb_spec (docId x) id) as [Heq|_].
    + exfalso. apply Hfresh. now left.
    + apply IH. intros Hin. apply Hfresh. now right.
Qed.

Lemma removeFirst_snoc_fresh (id : ObjectId) (L : list D) (d : D) :
  ~ In id (map docId L) -> docId d = id ->
  removeFirst (hasId id) (L ++ [d]) = L.
Proof.
  intros Hfresh Hid. induction L as [|x L IH]; cbn.
  - unfold hasId. now rewrite Hid, String.eqb_refl.
  - unfold hasId at 1.
    destruct (String.eqb_spec (docId x) id) as [Heq|_].
    + exfalso. apply Hfresh. now left.
    + f_equal. apply IH. intros Hin. apply Hfresh. now right.
Qed.

End ModelFacts.

Lemma removeFirst_filter {D} `{Model D} (id : ObjectId) (L : list D) :
  NoDup (map docId L) ->
  removeFirst (hasId id) L = filter (fun d => negb (hasId id d)) L.
Proof.
  induction L as [|x L IH]; cbn; [reflexivity|].
  intros Hnd. inversion Hnd as [|? ? Hnotin Hrest]; subst.
  destruct (hasId id x) eqn:Hx; cbn.
  - unfold hasId in Hx. apply String.eqb_eq in Hx.
    symmetry. apply forallb_filter_id. apply forallb_forall.
    intros y Hy. unfold hasId.
    destruct (String.eqb_spec (docId y) id) as [Hyid|]; [|reflexivity].
    exfalso. apply Hnotin. rewrite Hx, <- Hyid. now apply in_map.
  - f_equal. now apply IH.
Qed.

Lemma filter_map_comm {A B} (f : A -> B) (p : B -> bool) (l : list A) :
  filter p (map f l) = map f (filter (fun x => p (f x)) l).
Proof.
  induction l as [|x l IH]; cbn; [reflexivity|].
  destruct (p (f x)); cbn; now rewrite IH.
Qed.

Lemma find_map_comm {A B} (f : A -> B) (p : B -> bool) (l : list A) :
  find p (map f l) = option_map f (find (fun x => p (f x)) l).
Proof.
  induction l as [|x l IH]; cbn; [reflexivity|].
  destruct (p (f x)); [reflexivity | exact IH].
Qed.

Section Deletion.

Variable isValidObjectId : string -> bool.
Variable castObjectId : string -> ObjectId.
Variable search : jsstring -> list Video.t -> list Video.t.
Variable uploadOnCloudinary : string -> option Upload.

Local Notation "'serve'" :=
  (handle isValidObjectId castObjectId search uploadOnCloudinary).

(** X3. The owner deletes a stored tweet, playlist, comment or video with a
    well-formed identifier, in a collection whose identifiers are unique.
    The answer is 200 with empty data.  Afterwards the collection holds the
    records it held, whole and in the same order, without the one that has
    the ObjectId the identifier spells: no record has that ObjectId, every
    other record is found as it was, identifiers are still unique, and the
    collections of the other entities are as before.  Deleting the same
    identifier again throws 404. *)
Theorem delete_by_owner_removes_the_record
        (req again : Request) (e : Entity) (id : string) (w : World) :
  isValidObjectId id = true ->
  storedOwner e (castObjectId id) (db w) = Some (user req) ->
  NoDup (storedIds e (db w)) ->
  let w' := snd (serve req (deleteOp e id) w) in
  outcome (fst (serve req (deleteOp e id) w)) = (200%Z, Some DEmpty)
  /\ storedRecords e (db w')
     = filter (fun d => negb (isDocument (castObjectId id) d))
              (storedRecords e (db w))
  /\ storedRecord e (castObjectId id) (db w') = None
  /\ ~ In (castObjectId id) (storedIds e (db w'))
  /\ NoDup (storedIds e (db w'))
  /\ (forall id', id' <> castObjectId id ->
        storedRecord e id' (db w') = storedRecord e id' (db w))
  /\ (forall e', e' <> e -> storedRecords e' (db w') = storedRecords e' (db w))
  /\ fst (outcome (fst (serve again (deleteOp e id) w'))) = 404%Z.
Proof.
  intros Hvalid Howner Hnodup w'. subst w'.
  unfold storedRecord.
  destruct e; cbn [deleteOp storedOwner storedIds storedRecords] in *.
  all: match type of Howner with
       | option_map _ (find ?p ?l) = _ =>
           destruct (find p l) as [r|] eqn:Hfind; [|discriminate]
       end.
  all: injection Howner as Howner.
  all: unfold_handlers; rewrite Hvalid; cbn.
  all: rewrite Hfind, Howner, String.eqb_refl; cbn.
  all: match type of Hnodup with
       | NoDup (map _ ?l) =>
           pose proof (removeFirst_hasId_fresh (castObjectId id) l Hnodup)
             as Hgone;
           pose proof (removeFirst_filter (castObjectId id) l Hnodup)
             as Hrest;
           rewrite (find_fresh (castObjectId id)
                               (removeFirst (hasId (castObjectId id)) l)
                               Hgone)
       end; cbn.
  all: split; [reflexivity|].
  all: split; [rewrite filter_map_comm; f_equal; exact Hrest|].
  all: split;
    [rewrite find_map_comm;
     match goal with
     | |- option_map ?f _ = None =>
         exact (f_equal (option_map f)
                        (find_fresh (castObjectId id) _ Hgone))
     end|].
  all: split; [exact Hgone|].
  all: split; [now apply NoDup_map_removeFirst|].
  all: split;
    [intros id' Hneq; rewrite !find_map_comm; f_equal;
     exact (find_removeFirst_other (castObjectId id) id' _ Hneq)|].
  all: split; [|reflexivity].
  all: intros e' Hneq; destruct e'; try contradiction; reflexivity.
Qed.

End Deletion.

(** Alice deletes her tweet, spelling its identifier with an upper-case
    digit; a later attempt on it finds nothing. *)
Lemma delete_by_owner_witness :
  outcome (fst (handle Sample.isValidObjectId Sample.castObjectId
                       Sample.search Sample.uploadOnCloudinary
                       (Sample.asAlice Sample.fresh1 90)
                       (DeleteTweet Sample.tweet1Upper) Sample.world))
  = (200%Z, Some DEmpty)
  /\ tweets (db (snd (handle Sample.isValidObjectId Sample.castObjectId
                             Sample.search Sample.uploadOnCloudinary
                             (Sample.asAlice Sample.fresh1 90)
                             (DeleteTweet Sample.tweet1Upper) Sample.world)))
     = [].
Proof.
  destruct (delete_by_owner_removes_the_record
              Sample.isValidObjectId Sample.castObjectId Sample.search
              Sample.uploadOnCloudinary
              (Sample.asAlice Sample.fresh1 90) (Sample.asBob Sample.fresh2 91)
              ETweet Sample.tweet1Upper Sample.world eq_refl eq_refl)
    as (Hok & _).
  - cbn. constructor; [tauto | constructor].
  - split; [exact Hok | reflexivity].
Defined.

(* ================================================================== *)
(** * Updating a record *)

Lemma updateFirst_length {A} (p : A -> bool) (f : A -> A) (l : list A) :
  List.length (updateFirst p f l) = List.length l.
Proof.
  induction l as [|x l IH]; cbn; [reflexivity|].
  destruct (p x); cbn; [reflexivity | now rewrite IH].
Qed.

Lemma filled_not_blank (s : jsstring) :
  forallb Js.isWhiteSpace s = false -> Js.missingOrBlank (Some s) = false.
Proof.
  intros Hfilled.
  destruct (Js.missingOrBlank (Some s)) eqn:Hmob; [|reflexivity].
  apply missingOrBlank_blank in Hmob. cbn in Hmob. congruence.
Qed.

Section ContentUpdate.

Variable isValidObjectId : string -> bool.
Variable castObjectId : string -> ObjectId.

(** X4.  The owner updates a stored tweet or comment, the one with the
    ObjectId the identifier spells, with content that is not blank.  The
    answer is 200 with the stored record: its content is the submitted one as
    submitted, its update time is the request's, and its identifier, owner,
    creation time (and video, for a comment) are as before.  Every other
    record is found as before and no record is added or removed. *)
Theorem update_content_by_owner
        (req : Request) (id : string) (s : jsstring) (w : World) :
  isValidObjectId id = true ->
  forallb Js.isWhiteSpace s = false ->
  (forall t,
      find (hasId (castObjectId id)) (tweets (db w)) = Some t ->
      Tweet.owner t = user req ->
      exists w',
        updateTweet isValidObjectId castObjectId req id (Some s) w
        = (inr (respond 200
                        (DTweet (Some (Tweet.mk (Tweet._id t) s (Tweet.owner t)
                                                (Tweet.createdAt t)
                                                (clock req))))
                        "Tweet updated successfully"), w')
        /\ find (hasId (castObjectId id)) (tweets (db w'))
           = Some (Tweet.mk (Tweet._id t) s (Tweet.owner t)
                            (Tweet.createdAt t) (clock req))
        /\ (forall id', id' <> castObjectId id ->
              find (hasId id') (tweets (db w'))
              = find (hasId id') (tweets (db w)))
        /\ List.length (tweets (db w')) = List.length (tweets (db w)))
  /\ (forall c,
         find (hasId (castObjectId id)) (comments (db w)) = Some c ->
         Comment.owner c = user req ->
         exists w',
           updateComment isValidObjectId castObjectId req id (Some s) w
           = (inr (respond 200
                           (DComment
                              (Some (Comment.mk (Comment._id c) s
                                                (Comment.video c)
                                                (Comment.owner c)
                                                (Comment.createdAt c)
                                                (clock req))))
                           "Comment updated successfully"), w')
           /\ find (hasId (castObjectId id)) (comments (db w'))
              = Some (Comment.mk (Comment._id c) s (Comment.video c)
                                 (Comment.owner c) (Comment.createdAt c)
                                 (clock req))
           /\ (forall id', id' <> castObjectId id ->
                 find (hasId id') (comments (db w'))
                 = find (hasId id') (comments (db w)))
           /\ List.length (comments (db w'))
              = List.length (comments (db w))).
Proof.
  intros Hvalid Hfilled. apply filled_not_blank in Hfilled.
  split.
  - intros t Hfind Howner.
    apply String.eqb_eq in Howner.
    unfold updateTweet. rewrite Hfilled, run_throwIf_false.
    rewrite Hvalid; cbn [negb]; rewrite run_throwIf_false.
    unfold findById; rewrite run_bind; cbn.
    rewrite Hfind, Howner; cbn.
    rewrite find_updateFirst_same by (intros x Hx; exact Hx).
    rewrite Hfind; cbn.
    eexists. split; [reflexivity|]. cbn. repeat split.
    + rewrite find_updateFirst_same by (intros x Hx; exact Hx).
      now rewrite Hfind.
    + intros id' Hneq. apply find_updateFirst_other.
      * reflexivity.
      * intros x Hx. unfold hasId in *; cbn in *.
        apply String.eqb_eq in Hx. rewrite Hx.
        apply String.eqb_neq. congruence.
    + apply updateFirst_length.
  - intros c Hfind Howner.
    apply String.eqb_eq in Howner.
    unfold updateComment. rewrite Hfilled, run_throwIf_false.
    rewrite Hvalid; cbn [negb]; rewrite run_throwIf_false.
    unfold findById; rewrite run_bind; cbn.
    rewrite Hfind, Howner; cbn.
    rewrite find_updateFirst_same by (intros x Hx; exact Hx).
    rewrite Hfind; cbn.
    eexists. split; [reflexivity|]. cbn. repeat split.
    + rewrite find_updateFirst_same by (intros x Hx; exact Hx).
      now rewrite Hfind.
    + intros id' Hneq. apply find_updateFirst_other.
      * reflexivity.
      * intros x Hx. unfold hasId in *; cbn in *.
        apply String.eqb_eq in Hx. rewrite Hx.
        apply String.eqb_neq. congruence.
    + apply updateFirst_length.
Qed.

End ContentUpdate.

Section RecordUpdate.

Variable isValidObjectId : string -> bool.
Variable castObjectId : string -> ObjectId.
Variable uploadOnCloudinary : string -> option Upload.

Lemma find_after_video_update (id : ObjectId) (f : Video.t -> Video.t)
      (l : list Video.t) (v : Video.t) :
  (forall d, Video._id (f d) = Video._id d) ->
  find (hasId id) l = Some v ->
  find (hasId id) (updateFirst (hasId id) f l) = Some (f v).
Proof.
  intros Hid Hfind.
  rewrite find_updateFirst_same.
  - now rewrite Hfind.
  - intros x Hx. unfold hasId in *; cbn in *. now rewrite Hid.
Qed.

(** X5. The owner updates a stored playlist, the one with the ObjectId the
    identifier spells, with a name that is not blank.
    The answer is 200 with the stored playlist; its name is the given one as
    given; its description is the given one unless that is missing or empty,
    in which case the old description stays (an update cannot empty it); the
    videos, the owner, the identifier and the creation time are as before. *)
Theorem update_playlist_by_owner
        (req : Request) (id : string) (n : jsstring)
        (description : option jsstring) (w : World) (pl : Playlist.t) :
  isValidObjectId id = true ->
  forallb Js.isWhiteSpace n = false ->
  storedPlaylist (castObjectId id) (db w) = Some pl ->
  Playlist.owner pl = user req ->
  exists pl' w',
    updatePlaylist isValidObjectId castObjectId req id (Some n) description w
    = (inr (respond 200 (DPlaylist (Some pl'))
                    "Playlist updated successfully"), w')
    /\ storedPlaylist (castObjectId id) (db w') = Some pl'
    /\ Playlist.name pl' = n
    /\ (description = None \/ description = Some [] ->
        Playlist.description pl' = Playlist.description pl)
    /\ (forall c d, description = Some (c :: d) ->
                    Playlist.description pl' = c :: d)
    /\ (Playlist._id pl', Playlist.owner pl', Playlist.videos pl',
        Playlist.createdAt pl')
       = (Playlist._id pl, Playlist.owner pl, Playlist.videos pl,
          Playlist.createdAt pl).
Proof.
  intros Hvalid Hfilled Hstored Howner.
  apply filled_not_blank in Hfilled. apply String.eqb_eq in Howner.
  unfold storedPlaylist in *.
  unfold updatePlaylist. rewrite Hfilled, run_throwIf_false.
  rewrite Hvalid; cbn [negb]; rewrite run_throwIf_false.
  unfold findById; rewrite run_bind; cbn.
  rewrite Hstored, Howner; cbn.
  rewrite find_updateFirst_same by (intros x Hx; exact Hx).
  rewrite Hstored; cbn.
  do 2 eexists. split; [reflexivity|]. cbn.
  rewrite find_updateFirst_same by (intros x Hx; exact Hx).
  rewrite Hstored; cbn.
  repeat split.
  - intros [-> | ->]; reflexivity.
  - intros c d ->. reflexivity.
Qed.

(** X6. The owner updates a stored video, the one with the ObjectId the
    identifier spells, with a title that is not blank.
    When a thumbnail file comes with the request and its upload fails, the
    handler throws 500 and the store is the one from before.  Otherwise the
    answer is 200 with the stored video: the title is the given one, the
    description is the given one unless missing or empty, the thumbnail is
    the uploaded address unless no file came or the address is empty, and the
    file, the duration, the views, the publication flag, the owner and the
    identifier are as before. *)
Theorem update_video_by_owner
        (req : Request) (id : string) (t : jsstring)
        (description : option jsstring) (path : option string)
        (w : World) (v : Video.t) :
  isValidObjectId id = true ->
  forallb Js.isWhiteSpace t = false ->
  find (hasId (castObjectId id)) (videos (db w)) = Some v ->
  Video.owner v = user req ->
  (Js.truthyId path = true ->
   uploadOnCloudinary (orDefault path EmptyString) = None ->
   updateVideo isValidObjectId castObjectId uploadOnCloudinary req id (Some t) description
               path w
   = (inl (mkAPIError 500 "Failed to upload thumbnail"),
      mkWorld (db w) (log w ++ [Read Videos []])))
  /\ (Js.truthyId path = false
      \/ uploadOnCloudinary (orDefault path EmptyString) <> None ->
      exists v' w',
        updateVideo isValidObjectId castObjectId uploadOnCloudinary req id (Some t)
                    description path w
        = (inr (respond 200 (DVideo (Some v')) "Video updated successfully"),
           w')
        /\ find (hasId (castObjectId id)) (videos (db w')) = Some v'
        /\ Video.title v' = t
        /\ Video.description v'
           = Js.orElse description (Video.description v)
        /\ (Js.truthyId path = false ->
            Video.thumbnail v' = Video.thumbnail v)
        /\ (forall u, Js.truthyId path = true ->
                      uploadOnCloudinary (orDefault path EmptyString) = Some u ->
                      url u <> EmptyString ->
                      Video.thumbnail v' = url u)
        /\ (Video._id v', Video.videoFile v', Video.duration v',
            Video.views v', Video.isPublished v', Video.owner v',
            Video.createdAt v')
           = (Video._id v, Video.videoFile v, Video.duration v,
              Video.views v, Video.isPublished v, Video.owner v,
              Video.createdAt v)).
Proof.
  intros Hvalid Hfilled Hfind Howner.
  apply filled_not_blank in Hfilled. apply String.eqb_eq in Howner.
  assert (Hprefix :
            updateVideo isValidObjectId castObjectId uploadOnCloudinary req id (Some t)
                        description path w
            = (thumbnail <-
                 (if Js.truthyId path
                  then match uploadOnCloudinary
                               (orDefault path EmptyString) with
                       | Some u => ret (Some u)
                       | None => throw 500 "Failed to upload thumbnail"
                       end
                  else ret None) ;;
               updatedVideo <-
                 findByIdAndUpdate (clock req) (castObjectId id)
                   (setVideoDetails t
                      (Js.orElse description (Video.description v))
                      (urlOr thumbnail (Video.thumbnail v)))
                   true ;;
               ret (respond 200 (DVideo updatedVideo)
                            "Video updated successfully"))
                (mkWorld (db w) (log w ++ [Read Videos []]))).
  { unfold updateVideo.
    rewrite Hvalid; cbn [negb]; rewrite run_throwIf_false.
    rewrite Hfilled, run_throwIf_false.
    unfold findById; rewrite run_bind; cbn.
    now rewrite Hfind, Howner. }
  rewrite Hprefix. clear Hprefix.
  split.
  - intros Hgiven Hfailed. now rewrite Hgiven, Hfailed.
  - intros Hfine.
    destruct (Js.truthyId path) eqn:Hgiven.
    + destruct (uploadOnCloudinary (orDefault path EmptyString))
        as [u|] eqn:Hupload;
        [|destruct Hfine as [Hfine | Hfine]; [discriminate | contradiction]].
      cbn.
      rewrite (find_after_video_update (castObjectId id) _ _ v) by (reflexivity || assumption).
      do 2 eexists. split; [reflexivity|]. cbn.
      rewrite (find_after_video_update (castObjectId id) _ _ v) by (reflexivity || assumption).
      repeat split; try discriminate.
      intros u' _ [= <-] Hurl. cbn.
      apply String.eqb_neq in Hurl. now rewrite Hurl.
    + cbn.
      rewrite (find_after_video_update (castObjectId id) _ _ v) by (reflexivity || assumption).
      do 2 eexists. split; [reflexivity|]. cbn.
      rewrite (find_after_video_update (castObjectId id) _ _ v) by (reflexivity || assumption).
      repeat split; try discriminate.
Qed.

(** X7. The owner toggles the publication of a stored video, the one with
    the ObjectId the identifier spells.  The answer is
    200 with the stored video, whose flag is the negation of the old one and
    whose other fields, the update time apart, are as before; the message
    says "published" exactly when the new flag is set.  Toggling twice gives
    back the old flag. *)
Theorem toggle_publish_flips_the_flag
        (r1 r2 : Request) (id : string) (w : World) (v : Video.t) :
  isValidObjectId id = true ->
  find (hasId (castObjectId id)) (videos (db w)) = Some v ->
  Video.owner v = user r1 ->
  user r2 = user r1 ->
  (exists w',
      togglePublishStatus isValidObjectId castObjectId r1 id w
      = (inr (respond 200
                      (DVideo (Some (touch (clock r1)
                                           (setPublished
                                              (negb (Video.isPublished v)) v))))
                      (if Video.isPublished v
                       then "Video unpublished successfully"
                       else "Video published successfully")), w')
      /\ find (hasId (castObjectId id)) (videos (db w'))
         = Some (touch (clock r1) (setPublished (negb (Video.isPublished v)) v)))
  /\ option_map Video.isPublished
       (find (hasId (castObjectId id))
             (videos (db (snd (serveAll
                                 [togglePublishStatus isValidObjectId castObjectId r1 id;
                                  togglePublishStatus isValidObjectId castObjectId r2 id]
                                 w)))))
     = Some (Video.isPublished v)
  /\ map (fun r => fst (outcome r))
         (fst (serveAll [togglePublishStatus isValidObjectId castObjectId r1 id;
                         togglePublishStatus isValidObjectId castObjectId r2 id] w))
     = [200; 200]%Z.
Proof.
  intros Hvalid Hfind Howner Hu2.
  pose (flip := fun (r : Request) (v0 d : Video.t) =>
                  touch (clock r)
                        (setPublished (negb (Video.isPublished v0)) d)).
  assert (Hafter : forall r w0 v0,
             find (hasId (castObjectId id)) (videos (db w0)) = Some v0 ->
             find (hasId (castObjectId id))
                  (updateFirst (hasId (castObjectId id)) (flip r v0) (videos (db w0)))
             = Some (flip r v0 v0)).
  { intros r w0 v0 Hf.
    apply (find_after_video_update (castObjectId id) (flip r v0)); [reflexivity | exact Hf]. }
  assert (Hrun : forall r w0 v0,
             find (hasId (castObjectId id)) (videos (db w0)) = Some v0 ->
             Video.owner v0 = user r ->
             togglePublishStatus isValidObjectId castObjectId r id w0
             = (inr (respond 200 (DVideo (Some (flip r v0 v0)))
                             (if Video.isPublished v0
                              then "Video unpublished successfully"
                              else "Video published successfully")),
                mkWorld
                  (setDocs (updateFirst (hasId (castObjectId id)) (flip r v0)
                                        (videos (db w0)))
                           (db w0))
                  ((log w0 ++ [Read Videos []]) ++ [Write Videos]))).
  { intros r w0 v0 Hf Ho. apply String.eqb_eq in Ho.
    unfold togglePublishStatus.
    rewrite Hvalid; cbn [negb]; rewrite run_throwIf_false.
    unfold findById; rewrite run_bind; cbn.
    rewrite Hf, Ho; cbn.
    rewrite find_updateFirst_same by (intros x Hx; exact Hx).
    rewrite Hf; cbn. rewrite if_negb. reflexivity. }
  pose proof (Hrun r1 w v Hfind Howner) as H1.
  pose proof (Hafter r1 w v Hfind) as Hfind1.
  set (w1 := mkWorld (setDocs (updateFirst (hasId (castObjectId id)) (flip r1 v)
                                           (videos (db w)))
                              (db w))
                     ((log w ++ [Read Videos []]) ++ [Write Videos])) in *.
  assert (H2 := Hrun r2 w1 (flip r1 v v) Hfind1).
  assert (Ho2 : Video.owner (flip r1 v v) = user r2) by (cbn; congruence).
  specialize (H2 Ho2).
  split; [|split].
  - exists w1. split; [exact H1 | exact Hfind1].
  - cbn [serveAll]. rewrite H1, H2. cbn [snd db].
    change (videos (setDocs ?l ?s)) with l.
    cbn [setDocs VideoModel videos].
    rewrite (Hafter r2 w1 (flip r1 v v) Hfind1).
    cbn. now rewrite negb_involutive.
  - cbn [serveAll]. rewrite H1, H2. reflexivity.
Qed.

End RecordUpdate.

(* ================================================================== *)
(** * Creating a record *)

Lemma filter_none {A} (l : list A) : filter (fun _ => false) l = [].
Proof. induction l as [|x l IH]; cbn; [reflexivity | exact IH]. Qed.

Lemma filter_snoc_fresh {D} `{Model D} (id : ObjectId) (L : list D) (d : D) :
  ~ In id (map docId L) -> docId d = id ->
  filter (hasId id) (L ++ [d]) = [d].
Proof.
  intros Hfresh Hid. induction L as [|x L IH]; cbn.
  - unfold hasId. now rewrite Hid, String.eqb_refl.
  - unfold hasId at 1.
    destruct (String.eqb_spec (docId x) id) as [Heq|_].
    + exfalso. apply Hfresh. now left.
    + apply IH. intros Hin. apply Hfresh. now right.
Qed.

Section Creation.

Variable isValidObjectId : string -> bool.
Variable castObjectId : string -> ObjectId.
Variable uploadOnCloudinary : string -> option Upload.

(** X8. Creating a playlist with a blank name throws 400 and touches
    nothing.  With any other name, and an identifier from the driver that is
    not yet in the collection, the answer is 201 with the new playlist: the
    name as given, the description or the empty string, the requester as
    owner, no videos.  It is appended to the collection, and fetching it
    right away, by a well-formed string that spells its identifier, answers
    200 with that playlist, no videos and zero views. *)
Theorem create_playlist_then_fetch
        (req : Request) (name description : option jsstring) (i : string)
        (w : World) :
  (blank name ->
   createPlaylist req name description w
   = (inl (mkAPIError 400 "Playlist name is required"), w))
  /\ (forall n,
         name = Some n ->
         forallb Js.isWhiteSpace n = false ->
         isValidObjectId i = true ->
         castObjectId i = freshId req ->
         ~ In (freshId req) (map Playlist._id (playlists (db w))) ->
         exists w1 w2,
           createPlaylist req name description w
           = (inr (respond 201
                           (DPlaylist
                              (Some (Playlist.mk (freshId req) n
                                                 (Js.orElse description [])
                                                 (user req) [] (clock req)
                                                 (clock req))))
                           "Playlist created successfully"), w1)
           /\ playlists (db w1)
              = playlists (db w)
                ++ [Playlist.mk (freshId req) n (Js.orElse description [])
                                (user req) [] (clock req) (clock req)]
           /\ getPlaylistById isValidObjectId castObjectId i w1
              = (inr (respond 200
                              (DPlaylistDetail
                                 (mkPlaylistDetail
                                    (Playlist.mk (freshId req) n
                                                 (Js.orElse description [])
                                                 (user req) [] (clock req)
                                                 (clock req))
                                    [] (lookupOwner (db w) (user req)) 0 0))
                              "Playlist fetched successfully"), w2)).
Proof.
  split.
  - intros Hblank. apply missingOrBlank_blank in Hblank.
    unfold createPlaylist. now rewrite Hblank.
  - intros n -> Hfilled Hvalid Hcast Hfresh.
    apply filled_not_blank in Hfilled.
    unfold createPlaylist. rewrite Hfilled, run_throwIf_false.
    do 2 eexists. split; [reflexivity|]. split; [reflexivity|].
    unfold getPlaylistById.
    rewrite Hvalid; cbn [negb]; rewrite run_throwIf_false.
    unfold aggregate, create; rewrite run_bind; cbn.
    unfold playlistDetailPipeline. rewrite Hcast.
    change (fun p : Playlist.t => String.eqb (Playlist._id p) (freshId req))
      with (hasId (D := Playlist.t) (freshId req)).
    rewrite (filter_snoc_fresh (freshId req) (playlists (db w)))
      by (assumption || reflexivity).
    cbn. unfold playlistVideos; cbn. rewrite filter_none. reflexivity.
Qed.

(** X9. A tweet or comment belongs to the requester who created it.  After
    a creation with an identifier that is not yet in the collection, a
    delete, by a well-formed string that spells that identifier, throws 403
    and changes nothing when it comes from another requester, and answers
    200 and leaves the collection as it was before the creation when it
    comes from the creator. *)
Theorem created_record_belongs_to_creator
        (req del other : Request) (s : jsstring) (videoId i : string)
        (w : World) :
  forallb Js.isWhiteSpace s = false ->
  isValidObjectId i = true ->
  castObjectId i = freshId req ->
  user del = user req ->
  user other <> user req ->
  (~ In (freshId req) (map Tweet._id (tweets (db w))) ->
   fst (outcome (fst (deleteTweet isValidObjectId castObjectId other i
                                  (snd (createTweet req (Some s) w)))))
   = 403%Z
   /\ db (snd (deleteTweet isValidObjectId castObjectId other i
                           (snd (createTweet req (Some s) w))))
      = db (snd (createTweet req (Some s) w))
   /\ outcome (fst (deleteTweet isValidObjectId castObjectId del i
                                (snd (createTweet req (Some s) w))))
      = (200%Z, Some DEmpty)
   /\ tweets (db (snd (deleteTweet isValidObjectId castObjectId del i
                                   (snd (createTweet req (Some s) w)))))
      = tweets (db w))
  /\ (isValidObjectId videoId = true ->
      ~ In (freshId req) (map Comment._id (comments (db w))) ->
      fst (outcome (fst (deleteComment
                           isValidObjectId castObjectId other i
                           (snd (addComment isValidObjectId castObjectId req videoId
                                            (Some s) w)))))
      = 403%Z
      /\ db (snd (deleteComment
                    isValidObjectId castObjectId other i
                    (snd (addComment isValidObjectId castObjectId req videoId (Some s) w))))
         = db (snd (addComment isValidObjectId castObjectId req videoId (Some s) w))
      /\ outcome (fst (deleteComment
                         isValidObjectId castObjectId del i
                         (snd (addComment isValidObjectId castObjectId req videoId
                                          (Some s) w))))
         = (200%Z, Some DEmpty)
      /\ comments (db (snd (deleteComment
                              isValidObjectId castObjectId del i
                              (snd (addComment isValidObjectId castObjectId req videoId
                                               (Some s) w)))))
         = comments (db w)).
Proof.
  intros Hfilled Hvalid Hcast Hdel Hother. apply filled_not_blank in Hfilled.
  apply String.eqb_neq in Hother.
  rewrite String.eqb_sym in Hother.
  split.
  - intros Hfresh.
    unfold createTweet, deleteTweet.
    rewrite Hfilled, Hvalid; cbn [negb]; rewrite !run_throwIf_false.
    unfold create, findById, findByIdAndDelete; rewrite !run_bind; cbn.
    rewrite !Hcast.
    rewrite (find_snoc_fresh (freshId req) (tweets (db w)))
      by (assumption || reflexivity).
    cbn. rewrite Hother, Hdel, String.eqb_refl. cbn.
    rewrite (removeFirst_snoc_fresh (freshId req) (tweets (db w)))
      by (assumption || reflexivity).
    repeat split.
  - intros Hvideo Hfresh.
    unfold addComment, deleteComment.
    rewrite Hfilled, Hvalid, Hvideo; cbn [negb]; rewrite !run_throwIf_false.
    unfold create, findById, findByIdAndDelete; rewrite !run_bind; cbn.
    rewrite !Hcast.
    rewrite (find_snoc_fresh (freshId req) (comments (db w)))
      by (assumption || reflexivity).
    cbn. rewrite Hother, Hdel, String.eqb_refl. cbn.
    rewrite (removeFirst_snoc_fresh (freshId req) (comments (db w)))
      by (assumption || reflexivity).
    repeat split.
Qed.

(** X10. Publishing a video is all or nothing on the store.  Every error is
    a 400 or a 500 and leaves the world untouched: a blank title or a missing
    file gives 400, a failed upload of either file gives 500, and no record
    is created.  A success answers 201 with the one video it appended: zero
    views, published, owned by the requester, with the uploaded addresses,
    the title as given, and a duration of zero when the upload reports
    none. *)
Theorem publish_video_all_or_nothing
        (req : Request) (title description : option jsstring)
        (videoFileLocalPath thumbnailLocalPath : option string) (w : World) :
  (forall e w',
      publishAVideo uploadOnCloudinary req title description
                    videoFileLocalPath thumbnailLocalPath w = (inl e, w') ->
      w' = w /\ (errStatus e = 400%Z \/ errStatus e = 500%Z))
  /\ (forall res w',
         publishAVideo uploadOnCloudinary req title description
                       videoFileLocalPath thumbnailLocalPath w = (inr res, w') ->
         exists t videoFile thumbnail,
           title = Some t
           /\ uploadOnCloudinary (orDefault videoFileLocalPath EmptyString)
              = Some videoFile
           /\ uploadOnCloudinary (orDefault thumbnailLocalPath EmptyString)
              = Some thumbnail
           /\ res = respond 201
                            (DVideo
                               (Some (Video.mk
                                        (freshId req) (url videoFile)
                                        (url thumbnail) t
                                        (Js.orElse description [])
                                        (orDefault (uploadDuration videoFile)
                                                   0%Z)
                                        0%Z true (user req) (clock req)
                                        (clock req))))
                            "Video published successfully"
           /\ videos (db w')
              = videos (db w)
                ++ [Video.mk (freshId req) (url videoFile) (url thumbnail) t
                             (Js.orElse description [])
                             (orDefault (uploadDuration videoFile) 0%Z)
                             0%Z true (user req) (clock req) (clock req)])
  /\ (Js.missingOrBlank title = false ->
      Js.truthyId videoFileLocalPath = true ->
      Js.truthyId thumbnailLocalPath = true ->
      uploadOnCloudinary (orDefault videoFileLocalPath EmptyString) = None
      \/ uploadOnCloudinary (orDefault thumbnailLocalPath EmptyString) = None ->
      fst (outcome (fst (publishAVideo uploadOnCloudinary req title
                                       description videoFileLocalPath
                                       thumbnailLocalPath w)))
      = 500%Z).
Proof.
  split; [|split].
  - intros e w'. unfold publishAVideo.
    unfold_handlers. every_branch; cbn; intros [= <- <-]; cbn; auto.
  - intros res w'. unfold publishAVideo.
    destruct title as [t|]; [|cbn; discriminate].
    destruct (Js.missingOrBlank (Some t)); [cbn; discriminate|].
    rewrite run_throwIf_false.
    destruct (Js.truthyId videoFileLocalPath); [|cbn; discriminate].
    destruct (Js.truthyId thumbnailLocalPath); [|cbn; discriminate].
    cbn [negb]. rewrite !run_throwIf_false.
    destruct (uploadOnCloudinary (orDefault videoFileLocalPath EmptyString))
      as [vf|]; [|cbn; discriminate].
    destruct (uploadOnCloudinary (orDefault thumbnailLocalPath EmptyString))
      as [th|]; [|cbn; discriminate].
    cbn. intros [= <- <-]. exists t, vf, th. repeat split.
  - intros Htitle Hfile Hthumb Hfail. unfold publishAVideo.
    rewrite Htitle, Hfile, Hthumb; cbn [negb]; rewrite !run_throwIf_false.
    destruct (uploadOnCloudinary (orDefault videoFileLocalPath EmptyString));
      destruct (uploadOnCloudinary (orDefault thumbnailLocalPath EmptyString));
      destruct Hfail; try discriminate; reflexivity.
Qed.

End Creation.

(* ================================================================== *)
(** * What the list read models contain *)

Lemma insertBy_perm {A} (leb : A -> A -> bool) (x : A) (l : list A) :
  Permutation (insertBy leb x l) (x :: l).
Proof.
  induction l as [|y l IH]; cbn; [reflexivity|].
  destruct (leb x y); [reflexivity|].
  rewrite IH. apply perm_swap.
Qed.

(** The sort stage neither drops nor repeats a document. *)
Lemma sortDocs_perm {A} (leb : A -> A -> bool) (l : list A) :
  Permutation (sortDocs leb l) l.
Proof.
  induction l as [|x l IH]; cbn; [reflexivity|].
  rewrite insertBy_perm. now constructor.
Qed.

Lemma Forall_sortDocs {A} (P : A -> Prop) (leb : A -> A -> bool) (l : list A) :
  Forall P l -> Forall P (sortDocs leb l).
Proof.
  intros Hall. eapply Permutation_Forall; [|exact Hall].
  symmetry. apply sortDocs_perm.
Qed.

Lemma firstn_In {A} (n : nat) (l : list A) (x : A) :
  In x (firstn n l) -> In x l.
Proof.
  revert l. induction n as [|n IH]; intros [|y l]; cbn; try tauto.
  intros [Heq | Hin]; [now left | right; now apply IH].
Qed.

Lemma skipn_In {A} (n : nat) (l : list A) (x : A) :
  In x (skipn n l) -> In x l.
Proof.
  revert l. induction n as [|n IH]; intros [|y l]; cbn; try tauto.
  intros Hin. right. now apply IH.
Qed.

(** A page holds documents of the result only. *)
Lemma Forall_page {A} (P : A -> Prop) (page limit : nat) (l : list A) :
  Forall P l -> Forall P (pageDocs (paginate page limit l)).
Proof.
  intros Hall. cbn. rewrite Forall_forall in *.
  intros x Hin. apply Hall.
  eapply skipn_In. eapply firstn_In. exact Hin.
Qed.

Section ListContents.

Variable isValidObjectId : string -> bool.
Variable castObjectId : string -> ObjectId.
Variable search : jsstring -> list Video.t -> list Video.t.

(** X11.  The tweets listed for a user are the stored tweets owned by the
    ObjectId the identifier spells, each exactly once and no other; every
    entry counts the Like records that refer to its tweet, and carries the
    public card of the user. *)
Theorem user_tweets_are_the_users_tweets (userId : string) (w : World) :
  isValidObjectId userId = true ->
  exists l w',
    getUserTweets isValidObjectId castObjectId userId w
    = (inr (respond 200 (DTweets l) "Tweets fetched successfully"), w')
    /\ Permutation (map tvId l)
                   (map Tweet._id
                        (filter (fun t => String.eqb (Tweet.owner t)
                                                     (castObjectId userId))
                                (tweets (db w))))
    /\ Forall (fun tv =>
                 tvLikesCount tv
                 = List.length
                     (filter (fun k => refIs (Like.tweet k) (tvId tv))
                             (likes (db w)))
                 /\ tvOwner tv = lookupOwner (db w) (castObjectId userId))
              l.
Proof.
  intros Hvalid. unfold getUserTweets.
  rewrite Hvalid; cbn [negb]; rewrite run_throwIf_false.
  do 2 eexists. split; [reflexivity|]. cbn. split.
  - unfold userTweetsPipeline.
    rewrite (Permutation_map tvId (sortDocs_perm _ _)).
    rewrite map_map. cbn. reflexivity.
  - unfold userTweetsPipeline. apply Forall_sortDocs.
    rewrite Forall_map, Forall_forall. intros t Hin. cbn.
    apply filter_In in Hin. destruct Hin as [_ Howner].
    apply String.eqb_eq in Howner. now rewrite Howner.
Qed.

(** X12. The liked videos listed for a requester come from that requester's
    Like records that have a video field, each exactly once; likes of
    comments and tweets and likes of other users never appear.  An entry's
    video, when present, is a stored video with the liked identifier. *)
Theorem liked_videos_are_the_requesters (req : Request) (w : World) :
  exists l w',
    getLikedVideos req w
    = (inr (respond 200 (DLikedVideos l) "Liked videos fetched successfully"),
       w')
    /\ Permutation
         (map lvId l)
         (map Like._id
              (filter (fun k => String.eqb (Like.likedBy k) (user req)
                                && negb (isNull (Like.video k)))
                      (likes (db w))))
    /\ Forall (fun e =>
                 exists k,
                   In k (likes (db w))
                   /\ Like._id k = lvId e
                   /\ Like.likedBy k = user req
                   /\ forall x, lvVideo e = Some x ->
                                In (doc x) (videos (db w))
                                /\ Like.video k = Some (Video._id (doc x)))
              l.
Proof.
  unfold getLikedVideos.
  do 2 eexists. split; [reflexivity|]. cbn. split.
  - unfold likedVideosPipeline.
    rewrite (Permutation_map lvId (sortDocs_perm _ _)).
    rewrite map_map. cbn. reflexivity.
  - unfold likedVideosPipeline. apply Forall_sortDocs.
    rewrite Forall_map, Forall_forall. intros k Hin. cbn.
    apply filter_In in Hin. destruct Hin as [Hin Hmine].
    apply andb_true_iff in Hmine. destruct Hmine as [Hby _].
    apply String.eqb_eq in Hby.
    exists k. split; [assumption|]. split; [reflexivity|].
    split; [assumption|].
    intros x Hx.
    destruct (Like.video k) as [v|]; [|discriminate].
    unfold lookupVideo in Hx.
    destruct (filter (fun v0 => String.eqb (Video._id v0) v) (videos (db w)))
      as [|y ys] eqn:Hfilter; [discriminate|].
    cbn in Hx. injection Hx as <-. cbn.
    assert (Hy : In y (filter (fun v0 => String.eqb (Video._id v0) v)
                              (videos (db w))))
      by (rewrite Hfilter; now left).
    apply filter_In in Hy. destruct Hy as [Hstored Hy].
    apply String.eqb_eq in Hy. rewrite Hy. split; [assumption | reflexivity].
Qed.

(** X13.  The video listing never shows an unpublished video, whatever the
    search stage returns and whatever the sort is; with a user filter it shows
    only the videos owned by the ObjectId the filter spells.  Every entry is a
    stored video when the search stage returns stored videos only, and carries
    the owner's public card. *)
Theorem video_listing_shows_published_only (q : VideoQuery.t) (w : World) :
  Js.truthyId (VideoQuery.userId q) = false
  \/ isValidObjectId (orDefault (VideoQuery.userId q) EmptyString) = true ->
  exists pg w',
    getAllVideos isValidObjectId castObjectId search q w
    = (inr (respond 200 (DVideos pg) "Videos fetched successfully"), w')
    /\ Forall (fun x => Video.isPublished (doc x) = true
                        /\ ownerInfo x
                           = lookupOwner (db w) (Video.owner (doc x)))
              (pageDocs pg)
    /\ (Js.truthyId (VideoQuery.userId q) = true ->
        Forall (fun x => Video.owner (doc x)
                         = castObjectId
                             (orDefault (VideoQuery.userId q) EmptyString))
               (pageDocs pg))
    /\ (Js.truthy (VideoQuery.query q) = false ->
        Forall (fun x => In (doc x) (videos (db w))) (pageDocs pg)).
Proof.
  intros Hfilter. unfold getAllVideos.
  replace (Js.truthyId (VideoQuery.userId q)
           && negb (isValidObjectId
                      (orDefault (VideoQuery.userId q) EmptyString)))
    with false
    by (destruct Hfilter as [-> | ->];
        [reflexivity | now rewrite andb_false_r]).
  rewrite run_throwIf_false.
  do 2 eexists. split; [reflexivity|].
  cbn [pageDocs]. unfold videoListPipeline.
  split; [|split].
  - apply Forall_page. rewrite Forall_map. apply Forall_sortDocs.
    rewrite Forall_forall. intros v Hin. cbn.
    apply filter_In in Hin. tauto.
  - intros Hgiven. apply Forall_page. rewrite Forall_map.
    apply Forall_sortDocs.
    rewrite Forall_forall. intros v Hin. cbn.
    apply filter_In in Hin. destruct Hin as [Hin _].
    unfold ownerStage in Hin. rewrite Hgiven in Hin.
    apply filter_In in Hin. destruct Hin as [_ Howner].
    now apply String.eqb_eq in Howner.
  - intros Hnosearch. apply Forall_page. rewrite Forall_map.
    apply Forall_sortDocs.
    rewrite Forall_forall. intros v Hin. cbn.
    apply filter_In in Hin. destruct Hin as [Hin _].
    unfold ownerStage, searchStage in Hin. rewrite Hnosearch in Hin.
    destruct (Js.truthyId (VideoQuery.userId q)); [|exact Hin].
    apply filter_In in Hin. tauto.
Qed.

(** X14. Every comment on a page of the comments of a video is a stored
    comment on the video with the ObjectId the identifier spells, with the
    public card of its owner in place of the owner. *)
Theorem video_comments_are_on_the_video
        (videoId : string) (page limit : option nat) (w : World) :
  isValidObjectId videoId = true ->
  exists pg w',
    getVideoComments isValidObjectId castObjectId videoId page limit w
    = (inr (respond 200 (DComments pg) "Comments fetched successfully"), w')
    /\ Forall (fun x => In (doc x) (comments (db w))
                        /\ Comment.video (doc x) = castObjectId videoId
                        /\ ownerInfo x
                           = lookupOwner (db w) (Comment.owner (doc x)))
              (pageDocs pg).
Proof.
  intros Hvalid. unfold getVideoComments.
  rewrite Hvalid; cbn [negb]; rewrite run_throwIf_false.
  do 2 eexists. split; [reflexivity|].
  cbn [pageDocs]. unfold videoCommentsPipeline.
  apply Forall_page. apply Forall_sortDocs.
  rewrite Forall_map, Forall_forall. intros c Hin. cbn.
  apply filter_In in Hin. destruct Hin as [Hin Hvideo].
  apply String.eqb_eq in Hvideo. tauto.
Qed.

End ListContents.

(* ================================================================== *)
(** * Playlist detail and its totals *)

Lemma NoDup_map_filter {A B} (f : A -> B) (q : A -> bool) (l : list A) :
  NoDup (map f l) -> NoDup (map f (filter q l)).
Proof.
  induction l as [|x l IH]; cbn; [auto|].
  intros Hnd. inversion Hnd as [|? ? Hnotin Hrest]; subst.
  destruct (q x); cbn; [|auto].
  constructor; [|auto].
  intros Hin. apply Hnotin.
  apply in_map_iff in Hin. destruct Hin as (y & Hy & Hfy).
  apply filter_In in Hfy. rewrite <- Hy. apply in_map. tauto.
Qed.

(** With unique video identifiers, a playlist joins at most as many videos
    as it has references. *)
Lemma playlistVideos_bound (s : Store) (p : Playlist.t) :
  NoDup (map Video._id (videos s)) ->
  (List.length (playlistVideos s p) <= List.length (Playlist.videos p))%nat.
Proof.
  intros Hnd. unfold playlistVideos.
  rewrite <- (length_map Video._id).
  apply NoDup_incl_length.
  - now apply NoDup_map_filter.
  - intros x Hin. apply in_map_iff in Hin. destruct Hin as (v & <- & Hv).
    apply filter_In in Hv. destruct Hv as [_ Hv].
    apply existsb_exists in Hv. destruct Hv as (y & Hy & Heq).
    apply String.eqb_eq in Heq. now rewrite Heq.
Qed.

Section PlaylistDetail.

Variable isValidObjectId : string -> bool.
Variable castObjectId : string -> ObjectId.

(** X15. Fetching a playlist by a well-formed identifier throws 404 when no
    playlist has the ObjectId it spells.  Otherwise the answer is 200 with
    the stored playlist.  The videos shown are exactly the stored videos the
    playlist refers to, in stored order, each with the public card of its
    owner: a stored video that is referred to is shown, and a reference to a
    video that is no longer stored is not shown and not counted.
    [totalVideos] is the number of videos shown and, with unique video
    identifiers, at most the number of references; [totalViews] is the sum of
    their views; a playlist without references has both totals zero. *)
Theorem playlist_detail_counts_stored_videos (id : string) (w : World) :
  isValidObjectId id = true ->
  (storedPlaylist (castObjectId id) (db w) = None ->
   getPlaylistById isValidObjectId castObjectId id w
   = (inl (mkAPIError 404 "Playlist not found"),
      mkWorld (db w) (log w ++ [Read Playlists [Videos; Users]])))
  /\ (forall pl,
         storedPlaylist (castObjectId id) (db w) = Some pl ->
         exists d w',
           getPlaylistById isValidObjectId castObjectId id w
           = (inr (respond 200 (DPlaylistDetail d)
                           "Playlist fetched successfully"), w')
           /\ pdPlaylist d = pl
           /\ (forall v,
                  In v (map (@doc Video.t) (pdVideos d))
                  <-> In v (videos (db w))
                      /\ In (Video._id v) (Playlist.videos pl))
           /\ (exists keep,
                  map (@doc Video.t) (pdVideos d)
                  = filter keep (videos (db w)))
           /\ Forall (fun x => ownerInfo x
                               = lookupOwner (db w) (Video.owner (doc x)))
                     (pdVideos d)
           /\ pdTotalVideos d = List.length (pdVideos d)
           /\ pdTotalViews d = sumViews (map (@doc Video.t) (pdVideos d))
           /\ (NoDup (map Video._id (videos (db w))) ->
               (pdTotalVideos d <= List.length (Playlist.videos pl))%nat)
           /\ (Playlist.videos pl = [] ->
               pdTotalVideos d = 0%nat /\ pdTotalViews d = 0%Z)).
Proof.
  intros Hvalid. unfold storedPlaylist, getPlaylistById.
  rewrite Hvalid; cbn [negb]; rewrite run_throwIf_false.
  unfold aggregate; rewrite run_bind; cbn.
  unfold playlistDetailPipeline.
  rewrite <- (filter_find (hasId (castObjectId id)) (playlists (db w))).
  unfold hasId; cbn.
  destruct (filter _ (playlists (db w))) as [|pl0 rest]; cbn.
  - split; [reflexivity | discriminate].
  - split; [discriminate|].
    intros pl [= <-].
    assert (Hdocs : map (@doc Video.t)
                        (map (videoWithOwner (db w))
                             (playlistVideos (db w) pl0))
                    = playlistVideos (db w) pl0).
    { rewrite map_map. cbn. apply map_id. }
    do 2 eexists. split; [reflexivity|]. cbn.
    split; [reflexivity|].
    split; [|split; [|split; [|split; [|split; [|split]]]]].
    + intros v. rewrite Hdocs. unfold playlistVideos.
      rewrite filter_In, existsb_exists. split.
      * intros (Hin & y & Hy & Heq). apply String.eqb_eq in Heq.
        split; [assumption | now rewrite Heq].
      * intros (Hin & Href). split; [assumption|].
        exists (Video._id v). split; [assumption | apply String.eqb_refl].
    + rewrite Hdocs. eexists. reflexivity.
    + rewrite Forall_map, Forall_forall. intros v _. reflexivity.
    + now rewrite length_map.
    + now rewrite Hdocs.
    + intros Hnd. now apply playlistVideos_bound.
    + intros Hempty. unfold playlistVideos. rewrite Hempty. cbn.
      rewrite filter_none. split; reflexivity.
Qed.

End PlaylistDetail.

(* ================================================================== *)
(** * Likes as the video detail shows them *)

Lemma viewerIn_liked (u id : ObjectId) (L : list Like.t) :
  viewerIn (Some u)
           (map Like.likedBy (filter (fun k => refIs (Like.video k) id) L))
  = existsb (isLikeOf OnVideo id u) L.
Proof.
  induction L as [|k L IH]; cbn; [reflexivity|].
  unfold isLikeOf at 1; cbn [likeRef].
  destruct (refIs (Like.video k) id); cbn.
  - rewrite (String.eqb_sym u). f_equal. exact IH.
  - exact IH.
Qed.

Lemma find_hasId_id {D} `{Model D} (id : ObjectId) (L : list D) (d : D) :
  find (hasId id) L = Some d -> docId d = id.
Proof.
  intros Hfind. apply find_some in Hfind. destruct Hfind as [_ Hid].
  now apply String.eqb_eq in Hid.
Qed.

Section DetailLikes.

Variable isValidObjectId : string -> bool.
Variable castObjectId : string -> ObjectId.
Variable search : jsstring -> list Video.t -> list Video.t.
Variable uploadOnCloudinary : string -> option Upload.

(** X16. The detail of a stored video, the one with the ObjectId the
    identifier spells, says [isLiked] exactly when the store holds a Like
    record of the viewer for that video, and never for a viewer
    without a session; [likesCount] is the number of Like records for the
    video.  So a requester who likes a video they had not liked and then
    fetches it sees [isLiked] set and a count one higher. *)
Theorem video_detail_shows_the_like_state
        (viewer : option ObjectId) (req : Request) (now : Z) (id : string)
        (w : World) (v : Video.t) :
  isValidObjectId id = true ->
  find (hasId (castObjectId id)) (videos (db w)) = Some v ->
  (exists d w',
      getVideoById isValidObjectId castObjectId viewer now id w
      = (inr (respond 200 (DVideoDetail d) "Video fetched successfully"), w')
      /\ vdIsLiked d = match viewer with
                       | Some u => liked OnVideo (castObjectId id) u (db w)
                       | None => false
                       end
      /\ vdLikesCount d
         = List.length (filter (fun k => refIs (Like.video k) (castObjectId id))
                               (likes (db w))))
  /\ (liked OnVideo (castObjectId id) (user req) (db w) = false ->
      exists d w',
        getVideoById isValidObjectId castObjectId (Some (user req)) now id
                     (snd (toggleVideoLike isValidObjectId castObjectId req id w))
        = (inr (respond 200 (DVideoDetail d) "Video fetched successfully"), w')
        /\ vdIsLiked d = true
        /\ vdLikesCount d
           = S (List.length (filter (fun k => refIs (Like.video k) (castObjectId id))
                                    (likes (db w))))).
Proof.
  intros Hvalid Hfind.
  pose proof (find_hasId_id (castObjectId id) _ v Hfind) as Hid. cbn in Hid.
  split.
  - rewrite getVideoById_run by assumption. rewrite Hfind.
    do 2 eexists. split; [reflexivity|]. cbn. rewrite Hid. split.
    + destruct viewer as [u|]; [|reflexivity]. apply viewerIn_liked.
    + reflexivity.
  - intros Hunliked.
    pose proof (toggle_run isValidObjectId castObjectId search uploadOnCloudinary
                           OnVideo id req w Hvalid) as Hrun.
    cbn [likeOp handle] in Hrun.
    unfold liked in Hunliked.
    rewrite (find_none_existsb _ _ Hunliked) in Hrun.
    rewrite Hrun. cbn [snd].
    rewrite getVideoById_run by assumption.
    change (videos (db (afterToggle w ?l))) with (videos (db w)).
    cbn [afterToggle db setDocs LikeModel videos]. rewrite Hfind.
    do 2 eexists. split; [reflexivity|]. cbn. rewrite Hid. split.
    + rewrite filter_app, map_app. cbn.
      rewrite !String.eqb_refl. cbn.
      unfold viewerIn. rewrite existsb_app. cbn.
      rewrite String.eqb_refl. cbn. apply orb_true_r.
    + rewrite filter_app. cbn. rewrite String.eqb_refl. cbn.
      rewrite length_app. cbn. lia.
Qed.

End DetailLikes.

(* ================================================================== *)
(** * A toggle and the other pairs *)

Lemma isLikeOf_one_pair (k k' : LikeTarget) (t t' u u' : ObjectId)
      (l : Like.t) :
  oneTarget l = true ->
  isLikeOf k t u l = true ->
  (k', t', u') <> (k, t, u) ->
  isLikeOf k' t' u' l = false.
Proof.
  intros Hone Hmatch Hneq.
  destruct (isLikeOf k' t' u' l) eqn:Hother; [|reflexivity].
  exfalso. apply Hneq.
  unfold isLikeOf in Hmatch, Hother.
  apply andb_true_iff in Hmatch, Hother.
  destruct Hmatch as [Ht Hu], Hother as [Ht' Hu'].
  apply String.eqb_eq in Hu, Hu'.
  unfold oneTarget in Hone.
  destruct k, k'; cbn in Ht, Ht';
    destruct (Like.video l), (Like.comment l), (Like.tweet l);
    cbn in Ht, Ht'; try discriminate;
    apply String.eqb_eq in Ht, Ht'; congruence.
Qed.

Lemma existsb_removeFirst_other (p : Like.t -> bool) (L : list Like.t)
      (l : Like.t) :
  NoDup (map Like._id L) ->
  In l L ->
  p l = false ->
  existsb p (removeFirst (hasId (Like._id l)) L) = existsb p L.
Proof.
  induction L as [|x L IH]; cbn; [tauto|].
  intros Hnd Hin Hpl. inversion Hnd as [|? ? Hnotin Hrest]; subst.
  destruct (String.eqb_spec (Like._id x) (Like._id l)) as [Hid|Hid].
  - destruct Hin as [-> | Hin].
    + now rewrite Hpl.
    + exfalso. apply Hnotin. rewrite Hid. now apply in_map.
  - cbn. destruct Hin as [-> | Hin]; [contradiction|].
    now rewrite IH.
Qed.

Lemma forallb_removeFirst {A} (p q : A -> bool) (l : list A) :
  forallb p l = true -> forallb p (removeFirst q l) = true.
Proof.
  induction l as [|x l IH]; cbn; [auto|].
  intros Hall. apply andb_true_iff in Hall. destruct Hall as [Hx Hl].
  destruct (q x); cbn; [assumption|]. now rewrite Hx, IH.
Qed.

Lemma newLike_oneTarget (k : LikeTarget) (req : Request) (target : ObjectId) :
  oneTarget (newLike k req target) = true.
Proof. destruct k; reflexivity. Qed.

Section OtherPairs.

Variable isValidObjectId : string -> bool.
Variable castObjectId : string -> ObjectId.
Variable search : jsstring -> list Video.t -> list Video.t.
Variable uploadOnCloudinary : string -> option Upload.

Local Notation "'serve'" :=
  (handle isValidObjectId castObjectId search uploadOnCloudinary).

(** X17. A toggle changes the liked state of its own pair only.  On a store
    whose Like records have unique identifiers and one target each, a toggle
    of (kind, target, requester) leaves every other (kind, target, user)
    liked exactly when it was, and the records still have one target each.
    The target of the toggle is the ObjectId its route string spells. *)
Theorem toggle_leaves_other_pairs
        (k k' : LikeTarget) (target : string) (target' u' : ObjectId)
        (req : Request) (w : World) :
  isValidObjectId target = true ->
  NoDup (map Like._id (likes (db w))) ->
  forallb oneTarget (likes (db w)) = true ->
  (k', target', u') <> (k, castObjectId target, user req) ->
  liked k' target' u' (db (snd (serve req (likeOp k target) w)))
  = liked k' target' u' (db w)
  /\ forallb oneTarget (likes (db (snd (serve req (likeOp k target) w))))
     = true.
Proof.
  intros Hvalid Hnodup Hshape Hother.
  rewrite toggle_run by assumption.
  destruct (find (isLikeOf k (castObjectId target) (user req)) (likes (db w)))
    as [l|] eqn:Hfind; cbn [snd]; unfold liked; rewrite likes_afterToggle.
  - apply find_some in Hfind. destruct Hfind as [Hin Hmatch].
    split.
    + apply existsb_removeFirst_other; try assumption.
      apply (isLikeOf_one_pair k k' (castObjectId target) target' (user req) u');
        try assumption.
      rewrite forallb_forall in Hshape. now apply Hshape.
    + now apply forallb_removeFirst.
  - split.
    + rewrite existsb_app. cbn.
      rewrite (isLikeOf_one_pair k k' (castObjectId target) target' (user req) u'
                                 (newLike k req (castObjectId target)));
        [now rewrite !orb_false_r | apply newLike_oneTarget
         | apply newLike_isLikeOf | assumption].
    + rewrite forallb_app, Hshape. cbn.
      now rewrite newLike_oneTarget.
Qed.

End OtherPairs.

(* ================================================================== *)
(** * Adding and removing compose *)

Lemma pull_removes (vs : list ObjectId) (v : string) :
  ~ In v (filter (fun x => negb (String.eqb x v)) vs).
Proof.
  intros Hin. apply filter_In in Hin. destruct Hin as [_ Hneq].
  now rewrite String.eqb_refl in Hneq.
Qed.

Lemma pull_pushed (vs : list ObjectId) (v : string) :
  ~ In v vs -> filter (fun x => negb (String.eqb x v)) (vs ++ [v]) = vs.
Proof.
  intros Hnot. rewrite filter_app. cbn. rewrite String.eqb_refl. cbn.
  rewrite app_nil_r. now apply pull_absent.
Qed.

Section AddRemove.

Variable isValidObjectId : string -> bool.
Variable castObjectId : string -> ObjectId.

(** X18. After the owner removes a video from a stored playlist, the
    ObjectId the identifier spells is not in the sequence, however often it
    occurred, and the other references keep their order and their number.
    Adding a video and then removing it answers 200 twice and gives back the
    sequence from before, when the sequence held neither the identifier as
    it is spelled nor the ObjectId it spells. *)
Theorem add_then_remove_restores_the_sequence
        (r1 r2 : Request) (p v : string) (w : World) (pl : Playlist.t) :
  isValidObjectId p = true ->
  isValidObjectId v = true ->
  storedPlaylist (castObjectId p) (db w) = Some pl ->
  Playlist.owner pl = user r1 ->
  user r2 = user r1 ->
  (exists pl',
      storedPlaylist
        (castObjectId p)
        (db (snd (removeVideoFromPlaylist isValidObjectId castObjectId
                                          r1 p v w)))
      = Some pl'
      /\ ~ In (castObjectId v) (Playlist.videos pl')
      /\ Playlist.videos pl'
         = filter (fun x => negb (String.eqb x (castObjectId v)))
                  (Playlist.videos pl)
      /\ forall x, x <> castObjectId v ->
                   count_occ string_dec (Playlist.videos pl') x
                   = count_occ string_dec (Playlist.videos pl) x)
  /\ (~ In v (Playlist.videos pl) ->
      ~ In (castObjectId v) (Playlist.videos pl) ->
      map (fun r => fst (outcome r))
          (fst (serveAll
                  [addVideoToPlaylist isValidObjectId castObjectId r1 p v;
                   removeVideoFromPlaylist isValidObjectId castObjectId
                                           r2 p v] w))
      = [200; 200]%Z
      /\ option_map Playlist.videos
           (storedPlaylist
              (castObjectId p)
              (db (snd (serveAll
                          [addVideoToPlaylist isValidObjectId castObjectId
                                              r1 p v;
                           removeVideoFromPlaylist
                             isValidObjectId castObjectId r2 p v]
                          w))))
         = Some (Playlist.videos pl)).
Proof.
  intros Hp Hv Hstored Howner Hu2.
  split.
  - rewrite (removeVideoFromPlaylist_run isValidObjectId castObjectId
                                         r1 p v w pl)
      by assumption.
    cbn [snd]. rewrite storedPlaylist_afterUpdate by reflexivity.
    rewrite Hstored. cbn.
    eexists. split; [reflexivity|]. cbn. split; [|split].
    + apply pull_removes.
    + reflexivity.
    + intros x Hx. unfold ObjectId in *.
      induction (Playlist.videos pl) as [|y l IH]; cbn; [reflexivity|].
      destruct (String.eqb_spec y (castObjectId v)) as [->|Hne]; cbn.
      * destruct (string_dec (castObjectId v) x); [congruence | exact IH].
      * destruct (string_dec y x); [f_equal|]; exact IH.
  - intros Hnot Hfresh.
    pose proof (addVideoToPlaylist_run isValidObjectId castObjectId
                                       r1 p v w pl
                                       Hp Hv Hstored Howner) as Hadd.
    apply includes_not_In in Hnot. rewrite Hnot in Hadd.
    assert (Hmid : storedPlaylist
                     (castObjectId p)
                     (db (afterPlaylistUpdate (clock r1) (castObjectId p)
                                              (pushVideo (castObjectId v))
                                              w))
                   = Some (touch (clock r1)
                                 (pushVideo (castObjectId v) pl))).
    { rewrite storedPlaylist_afterUpdate by reflexivity.
      now rewrite Hstored. }
    pose proof (removeVideoFromPlaylist_run
                  isValidObjectId castObjectId r2 p v _ _ Hp Hv Hmid)
      as Hrem.
    cbn [serveAll]. rewrite Hadd, Hrem by (cbn; congruence).
    cbn [fst snd map outcome]. split; [reflexivity|].
    rewrite storedPlaylist_afterUpdate by reflexivity.
    rewrite Hmid. cbn. f_equal.
    now apply pull_pushed.
Qed.

End AddRemove.

(* ================================================================== *)
(** * The properties on the sample stores *)

(** Alice rewrites her tweet, spelling its identifier with an upper-case
    digit. *)
Lemma update_content_by_owner_witness :
  exists w',
    updateTweet Sample.isValidObjectId Sample.castObjectId
                (Sample.asAlice Sample.fresh1 95)
                Sample.tweet1Upper (Some (Js.lit "edited")) Sample.world
    = (inr (respond 200
                    (DTweet (Some (Tweet.mk Sample.tweet1 (Js.lit "edited")
                                            Sample.alice 30 95)))
                    "Tweet updated successfully"), w').
Proof.
  destruct (update_content_by_owner
              Sample.isValidObjectId Sample.castObjectId
              (Sample.asAlice Sample.fresh1 95)
              Sample.tweet1Upper (Js.lit "edited") Sample.world
              eq_refl eq_refl)
    as (Htweet & _).
  destruct (Htweet Sample.aliceTweet eq_refl eq_refl) as (w' & Hrun & _).
  exists w'. exact Hrun.
Defined.

(** Alice renames a playlist and sends an empty description: the old
    description stays. *)
Lemma update_playlist_by_owner_witness :
  exists pl' w',
    updatePlaylist Sample.isValidObjectId Sample.castObjectId
                   (Sample.asAlice Sample.fresh1 95)
                   Crowd.playlist3 (Some (Js.lit "hymns")) (Some [])
                   Crowd.world
    = (inr (respond 200 (DPlaylist (Some pl'))
                    "Playlist updated successfully"), w')
    /\ Playlist.name pl' = Js.lit "hymns"
    /\ Playlist.description pl' = Js.lit "to sing".
Proof.
  destruct (update_playlist_by_owner
              Sample.isValidObjectId Sample.castObjectId
              (Sample.asAlice Sample.fresh1 95)
              Crowd.playlist3 (Js.lit "hymns") (Some []) Crowd.world
              Crowd.describedPlaylist eq_refl eq_refl eq_refl eq_refl)
    as (pl' & w' & Hrun & _ & Hname & Hkept & _).
  exists pl', w'. split; [exact Hrun|]. split; [exact Hname|].
  apply Hkept. now right.
Defined.

(** Alice retitles her video while the thumbnail upload fails. *)
Lemma update_video_by_owner_witness :
  updateVideo Sample.isValidObjectId Sample.castObjectId Crowd.failingUpload
              (Sample.asAlice Sample.fresh1 95) Sample.video1
              (Some (Js.lit "second")) None (Some "thumb.png"%string)
              Crowd.world
  = (inl (mkAPIError 500 "Failed to upload thumbnail"),
     mkWorld Crowd.store [Read Videos []]).
Proof.
  destruct (update_video_by_owner
              Sample.isValidObjectId Sample.castObjectId Crowd.failingUpload
              (Sample.asAlice Sample.fresh1 95) Sample.video1
              (Js.lit "second") None (Some "thumb.png"%string) Crowd.world
              Sample.aliceVideo eq_refl eq_refl eq_refl eq_refl)
    as (Hfailed & _).
  exact (Hfailed eq_refl eq_refl).
Defined.

(** Alice unpublishes her video and publishes it again. *)
Lemma toggle_publish_witness :
  option_map Video.isPublished
    (find (hasId Sample.video1)
          (videos (db (snd (serveAll
                              [togglePublishStatus
                                 Sample.isValidObjectId Sample.castObjectId
                                 (Sample.asAlice Sample.fresh1 95)
                                 Sample.video1;
                               togglePublishStatus
                                 Sample.isValidObjectId Sample.castObjectId
                                 (Sample.asAlice Sample.fresh2 96)
                                 Sample.video1]
                              Crowd.world)))))
  = Some true.
Proof.
  destruct (toggle_publish_flips_the_flag
              Sample.isValidObjectId Sample.castObjectId
              (Sample.asAlice Sample.fresh1 95)
              (Sample.asAlice Sample.fresh2 96) Sample.video1 Crowd.world
              Sample.aliceVideo eq_refl eq_refl eq_refl eq_refl)
    as (_ & Htwice & _).
  exact Htwice.
Defined.

(** Alice creates a playlist and fetches it, spelling its identifier with an
    upper-case digit. *)
Lemma create_playlist_then_fetch_witness :
  exists w1 w2,
    createPlaylist (Sample.asAlice Sample.fresh1 95) (Some (Js.lit "new"))
                   None Crowd.world
    = (inr (respond 201
                    (DPlaylist
                       (Some (Playlist.mk Sample.fresh1 (Js.lit "new") []
                                          Sample.alice [] 95 95)))
                    "Playlist created successfully"), w1)
    /\ getPlaylistById Sample.isValidObjectId Sample.castObjectId
                       "65F000000000000000000001" w1
       = (inr (respond 200
                       (DPlaylistDetail
                          (mkPlaylistDetail
                             (Playlist.mk Sample.fresh1 (Js.lit "new") []
                                          Sample.alice [] 95 95)
                             [] (Some (ownerCard Sample.aliceUser)) 0 0))
                       "Playlist fetched successfully"), w2).
Proof.
  destruct (create_playlist_then_fetch
              Sample.isValidObjectId Sample.castObjectId
              (Sample.asAlice Sample.fresh1 95)
              (Some (Js.lit "new")) None "65F000000000000000000001"%string
              Crowd.world)
    as (_ & Hfilled).
  destruct (Hfilled (Js.lit "new") eq_refl eq_refl eq_refl eq_refl)
    as (w1 & w2 & Hcreate & _ & Hfetch).
  - cbn. intros [H | [H | []]]; discriminate H.
  - exists w1, w2. split; [exact Hcreate | exact Hfetch].
Defined.

(** Alice tweets; Bob may not delete the tweet, Alice may. *)
Lemma created_record_belongs_to_creator_witness :
  fst (outcome (fst (deleteTweet
                       Sample.isValidObjectId Sample.castObjectId
                       (Sample.asBob Sample.fresh3 97)
                       "65F000000000000000000001"
                       (snd (createTweet (Sample.asAlice Sample.fresh1 95)
                                         (Some (Js.lit "hi"))
                                         Sample.world)))))
  = 403%Z
  /\ tweets (db (snd (deleteTweet
                        Sample.isValidObjectId Sample.castObjectId
                        (Sample.asAlice Sample.fresh2 96)
                        "65F000000000000000000001"
                        (snd (createTweet (Sample.asAlice Sample.fresh1 95)
                                          (Some (Js.lit "hi"))
                                          Sample.world)))))
     = [Sample.aliceTweet].
Proof.
  destruct (created_record_belongs_to_creator
              Sample.isValidObjectId Sample.castObjectId
              (Sample.asAlice Sample.fresh1 95)
              (Sample.asAlice Sample.fresh2 96) (Sample.asBob Sample.fresh3 97)
              (Js.lit "hi") Sample.video1 "65F000000000000000000001"%string
              Sample.world eq_refl eq_refl eq_refl eq_refl)
    as (Htweet & _).
  - discriminate.
  - destruct Htweet as (Hforbidden & _ & _ & Hback).
    + cbn. intros [H | []]. discriminate H.
    + split; [exact Hforbidden | exact Hback].
Defined.

(** Alice publishes while the media store is down. *)
Lemma publish_video_all_or_nothing_witness :
  fst (outcome (fst (publishAVideo Crowd.failingUpload
                                   (Sample.asAlice Sample.fresh1 95)
                                   (Some (Js.lit "clip")) None
                                   (Some "clip.mp4"%string)
                                   (Some "clip.png"%string) Crowd.world)))
  = 500%Z.
Proof.
  destruct (publish_video_all_or_nothing
              Crowd.failingUpload (Sample.asAlice Sample.fresh1 95)
              (Some (Js.lit "clip")) None (Some "clip.mp4"%string)
              (Some "clip.png"%string) Crowd.world)
    as (_ & _ & Hdown).
  apply Hdown; try reflexivity. now left.
Defined.

(** Alice's tweets, asked for under an upper-case spelling of her
    identifier. *)
Lemma user_tweets_witness :
  exists l w',
    getUserTweets Sample.isValidObjectId Sample.castObjectId
                  Sample.aliceUpper Crowd.world
    = (inr (respond 200 (DTweets l) "Tweets fetched successfully"), w')
    /\ Permutation (map tvId l) [Sample.tweet1].
Proof.
  destruct (user_tweets_are_the_users_tweets
              Sample.isValidObjectId Sample.castObjectId Sample.aliceUpper
              Crowd.world eq_refl)
    as (l & w' & Hrun & Hperm & _).
  exists l, w'. split; [exact Hrun | exact Hperm].
Defined.

(** The listing of the busier store, filtered on an upper-case spelling of
    Alice's identifier, leaves Bob's draft out and shows Alice's videos
    only. *)
Lemma video_listing_witness :
  exists pg w',
    getAllVideos Sample.isValidObjectId Sample.castObjectId Sample.search
                 (VideoQuery.mk None None None None None
                                (Some Sample.aliceUpper))
                 Crowd.world
    = (inr (respond 200 (DVideos pg) "Videos fetched successfully"), w')
    /\ Forall (fun x => Video.isPublished (doc x) = true
                        /\ ownerInfo x
                           = lookupOwner Crowd.store (Video.owner (doc x)))
              (pageDocs pg)
    /\ Forall (fun x => Video.owner (doc x) = Sample.alice) (pageDocs pg).
Proof.
  destruct (video_listing_shows_published_only
              Sample.isValidObjectId Sample.castObjectId Sample.search
              (VideoQuery.mk None None None None None
                             (Some Sample.aliceUpper))
              Crowd.world (or_intror eq_refl))
    as (pg & w' & Hrun & Hpublished & Howner & _).
  exists pg, w'. split; [exact Hrun|]. split; [exact Hpublished|].
  exact (Howner eq_refl).
Defined.

(** The comments on Alice's video, asked for under an upper-case spelling
    of its identifier. *)
Lemma video_comments_witness :
  exists pg w',
    getVideoComments Sample.isValidObjectId Sample.castObjectId
                     Sample.video1Upper None None
                     Crowd.world
    = (inr (respond 200 (DComments pg) "Comments fetched successfully"), w')
    /\ Forall (fun x => In (doc x) (comments Crowd.store)
                        /\ Comment.video (doc x) = Sample.video1
                        /\ ownerInfo x
                           = lookupOwner Crowd.store (Comment.owner (doc x)))
              (pageDocs pg).
Proof.
  exact (video_comments_are_on_the_video
           Sample.isValidObjectId Sample.castObjectId
           Sample.video1Upper None None
           Crowd.world
           eq_refl).
Defined.

(** The described playlist refers to two videos; one is stored, and that
    one is shown and counted. *)
Lemma playlist_detail_witness :
  exists d w',
    getPlaylistById Sample.isValidObjectId Sample.castObjectId
                    "65C000000000000000000003" Crowd.world
    = (inr (respond 200 (DPlaylistDetail d) "Playlist fetched successfully"),
       w')
    /\ pdPlaylist d = Crowd.describedPlaylist
    /\ map (@doc Video.t) (pdVideos d) = [Sample.aliceVideo]
    /\ pdTotalVideos d = 1%nat
    /\ pdTotalViews d = 7%Z.
Proof.
  destruct (playlist_detail_counts_stored_videos
              Sample.isValidObjectId Sample.castObjectId
              "65C000000000000000000003"%string Crowd.world eq_refl)
    as (_ & Hfound).
  destruct (Hfound Crowd.describedPlaylist eq_refl)
    as (d & w' & Hrun & Hpl & _).
  exists d, w'. split; [exact Hrun|]. split; [exact Hpl|].
  vm_compute in Hrun. injection Hrun as <- _.
  repeat split.
Defined.

(** Alice likes her own video, which Bob had liked, and fetches it. *)
Lemma video_detail_like_witness :
  exists d w',
    getVideoById Sample.isValidObjectId Sample.castObjectId
                 (Some Sample.alice) 99 Sample.video1Upper
                 (snd (toggleVideoLike Sample.isValidObjectId
                                       Sample.castObjectId
                                       (Sample.asAlice Sample.fresh1 95)
                                       Sample.video1Upper Crowd.world))
    = (inr (respond 200 (DVideoDetail d) "Video fetched successfully"), w')
    /\ vdIsLiked d = true
    /\ vdLikesCount d = 2%nat.
Proof.
  destruct (video_detail_shows_the_like_state
              Sample.isValidObjectId Sample.castObjectId
              Sample.search Sample.uploadOnCloudinary
              None (Sample.asAlice Sample.fresh1 95) 99 Sample.video1Upper
              Crowd.world Sample.aliceVideo eq_refl eq_refl)
    as (_ & Hafter).
  exact (Hafter eq_refl).
Defined.

(** Alice likes her video; Bob's like of it is still there. *)
Lemma toggle_leaves_other_pairs_witness :
  liked OnVideo Sample.video1 Sample.bob
        (db (snd (handle Sample.isValidObjectId Sample.castObjectId
                         Sample.search
                         Sample.uploadOnCloudinary
                         (Sample.asAlice Sample.fresh1 95)
                         (ToggleVideoLike Sample.video1Upper) Crowd.world)))
  = true.
Proof.
  destruct (toggle_leaves_other_pairs
              Sample.isValidObjectId Sample.castObjectId
              Sample.search Sample.uploadOnCloudinary
              OnVideo OnVideo Sample.video1Upper Sample.video1 Sample.bob
              (Sample.asAlice Sample.fresh1 95) Crowd.world eq_refl)
    as (Hsame & _).
  - cbn. constructor; [|constructor; [tauto | constructor]].
    intros [H | []]. discriminate H.
  - reflexivity.
  - intros H. discriminate H.
  - exact Hsame.
Defined.

(** Alice adds a second video to her playlist and removes it again, both
    times under an upper-case spelling of its identifier. *)
Lemma add_then_remove_witness :
  option_map Playlist.videos
    (storedPlaylist
       Sample.playlist1
       (db (snd (serveAll
                   [addVideoToPlaylist Sample.isValidObjectId Sample.castObjectId
                                       (Sample.asAlice Sample.fresh1 95)
                                       Sample.playlist1 Sample.video2Upper;
                    removeVideoFromPlaylist Sample.isValidObjectId Sample.castObjectId
                                            (Sample.asAlice Sample.fresh2 96)
                                            Sample.playlist1 Sample.video2Upper]
                   Crowd.world))))
  = Some [Sample.video1].
Proof.
  destruct (add_then_remove_restores_the_sequence
              Sample.isValidObjectId Sample.castObjectId
              (Sample.asAlice Sample.fresh1 95)
              (Sample.asAlice Sample.fresh2 96) Sample.playlist1
              Sample.video2Upper
              Crowd.world Sample.alicePlaylist
              eq_refl eq_refl eq_refl eq_refl eq_refl)
    as (_ & Hround).
  destruct Hround as (_ & Hback).
  - cbn. intros [H | []]. discriminate H.
  - cbn. intros [H | []]. discriminate H.
  - exact Hback.
Defined.

(* ================================================================== *)
(** * Failures and status codes *)

Lemma removeFirst_length {A} (p : A -> bool) (l : list A) :
  (List.length (removeFirst p l) <= List.length l)%nat.
Proof.
  induction l as [|x l IH]; cbn; [lia|].
  destruct (p x); cbn; lia.
Qed.

Section Failures.

Variable isValidObjectId : string -> bool.
Variable castObjectId : string -> ObjectId.
Variable search : jsstring -> list Video.t -> list Video.t.
Variable uploadOnCloudinary : string -> option Upload.

Local Notation "'serve'" :=
  (handle isValidObjectId castObjectId search uploadOnCloudinary).

(** X19. A failure is clean.  Whenever any operation throws, the store is
    the one the operation started from and no write was issued on the way;
    the error's status is 400, 403, 404 or 500. *)
Theorem errors_leave_the_store
        (req : Request) (op : Operation) (w : World) (e : APIError)
        (w' : World) :
  serve req op w = (inl e, w') ->
  db w' = db w
  /\ filter isWrite (log w') = filter isWrite (log w)
  /\ In (errStatus e) [400; 403; 404; 500]%Z.
Proof.
  destruct op.
  all: try (unfold_handlers; every_branch; cbn; intros [= <- <-];
            repeat split; cbn; rewrite ?filter_app; cbn;
            rewrite ?app_nil_r; auto 6; fail).
  (* togglePublishStatus: the update returns the record the lookup found *)
  cbn [handle]. unfold togglePublishStatus.
  destruct (isValidObjectId videoId); cbn [negb];
    [rewrite run_throwIf_false
    | cbn; intros [= <- <-]; repeat split; auto 6].
  unfold findById; rewrite run_bind; cbn.
  destruct (find (hasId (castObjectId videoId)) (videos (db w)))
    as [v|] eqn:Hfind; cbn;
    [| intros [= <- <-]; repeat split; cbn; rewrite ?filter_app; cbn;
       rewrite ?app_nil_r; auto 6].
  destruct (String.eqb (Video.owner v) (user req)); cbn;
    [| intros [= <- <-]; repeat split; cbn; rewrite ?filter_app; cbn;
       rewrite ?app_nil_r; auto 6].
  rewrite find_updateFirst_same by (intros x Hx; exact Hx).
  rewrite Hfind. cbn. discriminate.
Qed.

(** X20. The status tells whether a document was created.  A success with
    201 has added exactly one document to the store (a like, tweet, comment,
    playlist or video); a success with 200 has added none.  No other status
    is a success. *)
Theorem created_exactly_when_201
        (req : Request) (op : Operation) (w : World) (r : Response Data)
        (w' : World) :
  serve req op w = (inr r, w') ->
  (status r = 201%Z /\ documents (db w') = S (documents (db w)))
  \/ (status r = 200%Z /\ (documents (db w') <= documents (db w))%nat).
Proof.
  destruct op; unfold_handlers; every_branch; cbn; intros [= <- <-].
  all: unfold documents; cbn.
  all: rewrite ?length_app, ?updateFirst_length; cbn.
  all: try match goal with
           | |- context [List.length (removeFirst ?p ?l)] =>
               pose proof (removeFirst_length p l)
           end.
  all: try (left; split; [reflexivity | lia]).
  all: right; split; [reflexivity | lia].
Qed.

End Failures.

(** Bob's attempt on Alice's tweet fails and changes nothing. *)
Lemma errors_leave_the_store_witness :
  db (snd (handle Sample.isValidObjectId Sample.castObjectId Sample.search
                  Sample.uploadOnCloudinary (Sample.asBob Sample.fresh1 98)
                  (DeleteTweet Sample.tweet1Upper) Crowd.world))
  = Crowd.store.
Proof.
  destruct (errors_leave_the_store
              Sample.isValidObjectId Sample.castObjectId
              Sample.search Sample.uploadOnCloudinary
              (Sample.asBob Sample.fresh1 98) (DeleteTweet Sample.tweet1Upper)
              Crowd.world _ _ eq_refl)
    as (Hdb & _).
  exact Hdb.
Defined.

(** Alice's comment is one more document. *)
Lemma created_exactly_when_201_witness :
  documents
    (db (snd (handle Sample.isValidObjectId Sample.castObjectId Sample.search
                     Sample.uploadOnCloudinary
                     (Sample.asAlice Sample.fresh1 98)
                     (AddComment Sample.video1 (Some (Js.lit "again")))
                     Crowd.world)))
  = S (documents Crowd.store).
Proof.
  destruct (created_exactly_when_201
              Sample.isValidObjectId Sample.castObjectId
              Sample.search Sample.uploadOnCloudinary
              (Sample.asAlice Sample.fresh1 98)
              (AddComment Sample.video1 (Some (Js.lit "again")))
              Crowd.world _ _ eq_refl)
    as [(_ & Hgrew) | (Hstatus & _)].
  - exact Hgrew.
  - discriminate Hstatus.
Defined.

(* ================================================================== *)
(** * Unpublishing hides a video *)

Lemma same_id_same_doc {D} `{Model D} (L : list D) (x y : D) :
  NoDup (map docId L) -> In x L -> In y L -> docId x = docId y -> x = y.
Proof.
  induction L as [|a L IH]; cbn; [tauto|].
  intros Hnd Hx Hy Hid. inversion Hnd as [|? ? Hnotin Hrest]; subst.
  destruct Hx as [-> | Hx], Hy as [-> | Hy]; auto.
  - exfalso. apply Hnotin. rewrite Hid. now apply in_map.
  - exfalso. apply Hnotin. rewrite <- Hid. now apply in_map.
Qed.

Lemma map_id_updateFirst {D} `{Model D} (p : D -> bool) (f : D -> D)
      (L : list D) :
  (forall d, docId (f d) = docId d) ->
  map docId (updateFirst p f L) = map docId L.
Proof.
  intros Hid. induction L as [|a L IH]; cbn; [reflexivity|].
  destruct (p a); cbn; [now rewrite Hid | now rewrite IH].
Qed.

Section Unpublish.

Variable isValidObjectId : string -> bool.
Variable castObjectId : string -> ObjectId.
Variable search : jsstring -> list Video.t -> list Video.t.

(** Without a search text, an entry of the listing is a stored video that is
    published. *)
Lemma listing_entry (q : VideoQuery.t) (s : Store) (page limit : nat)
      (x : WithOwner Video.t) :
  Js.truthy (VideoQuery.query q) = false ->
  In x (pageDocs (paginate page limit
                           (videoListPipeline castObjectId search q s (videos s)))) ->
  In (doc x) (videos s) /\ Video.isPublished (doc x) = true.
Proof.
  intros Hnosearch Hin. cbn in Hin.
  apply firstn_In, skipn_In in Hin. unfold videoListPipeline in Hin.
  apply in_map_iff in Hin. destruct Hin as (v & <- & Hv). cbn.
  apply (Permutation_in _ (sortDocs_perm _ _)) in Hv.
  apply filter_In in Hv. destruct Hv as [Hv Hpublished].
  split; [|assumption].
  unfold ownerStage, searchStage in Hv. rewrite Hnosearch in Hv.
  destruct (Js.truthyId (VideoQuery.userId q)); [|exact Hv].
  apply filter_In in Hv. tauto.
Qed.

(** X21. Once its owner has unpublished a video, the one with the ObjectId
    the identifier spells, no page of the listing (without a search text)
    has an entry with that ObjectId, whatever the
    sort, the filter and the page; video identifiers are unique. *)
Theorem unpublished_video_is_not_listed
        (req : Request) (id : string) (q : VideoQuery.t) (w : World)
        (v : Video.t) :
  isValidObjectId id = true ->
  find (hasId (castObjectId id)) (videos (db w)) = Some v ->
  Video.owner v = user req ->
  Video.isPublished v = true ->
  NoDup (map Video._id (videos (db w))) ->
  Js.truthy (VideoQuery.query q) = false ->
  Js.truthyId (VideoQuery.userId q) = false
  \/ isValidObjectId (orDefault (VideoQuery.userId q) EmptyString) = true ->
  exists pg w2,
    getAllVideos isValidObjectId castObjectId search q
                 (snd (togglePublishStatus isValidObjectId castObjectId req id w))
    = (inr (respond 200 (DVideos pg) "Videos fetched successfully"), w2)
    /\ Forall (fun x => Video._id (doc x) <> castObjectId id) (pageDocs pg).
Proof.
  intros Hvalid Hfind Howner Hpublished Hnd Hnosearch Hfilter.
  apply String.eqb_eq in Howner.
  set (flip := fun d : Video.t =>
                 touch (clock req)
                       (setPublished (negb (Video.isPublished v)) d)).
  assert (Hafter : find (hasId (castObjectId id)) (updateFirst (hasId (castObjectId id)) flip
                                                (videos (db w)))
                   = Some (flip v))
    by (apply (find_after_video_update (castObjectId id) flip); [reflexivity | assumption]).
  assert (Hworld : videos (db (snd (togglePublishStatus isValidObjectId castObjectId req
                                                         id w)))
                   = updateFirst (hasId (castObjectId id)) flip (videos (db w))).
  { unfold togglePublishStatus.
    rewrite Hvalid; cbn [negb]; rewrite run_throwIf_false.
    unfold findById; rewrite run_bind; cbn.
    rewrite Hfind, Howner; cbn.
    rewrite find_updateFirst_same by (intros x Hx; exact Hx).
    rewrite Hfind. reflexivity. }
  unfold getAllVideos.
  replace (Js.truthyId (VideoQuery.userId q)
           && negb (isValidObjectId
                      (orDefault (VideoQuery.userId q) EmptyString)))
    with false
    by (destruct Hfilter as [-> | ->];
        [reflexivity | now rewrite andb_false_r]).
  rewrite run_throwIf_false.
  do 2 eexists. split; [reflexivity|].
  rewrite Forall_forall. intros x Hin Hsame.
  apply listing_entry in Hin; [|assumption].
  destruct Hin as [Hstored Hshown].
  cbn [docs VideoModel] in Hstored. rewrite Hworld in Hstored.
  assert (Heq : doc x = flip v).
  { apply (same_id_same_doc (updateFirst (hasId (castObjectId id)) flip (videos (db w)))).
    - rewrite map_id_updateFirst by reflexivity. exact Hnd.
    - exact Hstored.
    - apply find_some in Hafter. tauto.
    - cbn. rewrite Hsame. symmetry.
      apply (find_hasId_id (castObjectId id) _ v Hfind). }
  rewrite Heq in Hshown. cbn in Hshown. rewrite Hpublished in Hshown.
  discriminate Hshown.
Qed.

End Unpublish.

(** Alice unpublishes her video, spelling its identifier with an upper-case
    digit; the listing is then empty of it. *)
Lemma unpublished_video_witness :
  exists pg w2,
    getAllVideos Sample.isValidObjectId Sample.castObjectId Sample.search
                 (VideoQuery.mk None None None None None None)
                 (snd (togglePublishStatus Sample.isValidObjectId Sample.castObjectId
                                           (Sample.asAlice Sample.fresh1 98)
                                           Sample.video1Upper Crowd.world))
    = (inr (respond 200 (DVideos pg) "Videos fetched successfully"), w2)
    /\ Forall (fun x => Video._id (doc x) <> Sample.video1) (pageDocs pg).
Proof.
  apply (unpublished_video_is_not_listed
           Sample.isValidObjectId Sample.castObjectId Sample.search
           (Sample.asAlice Sample.fresh1 98) Sample.video1Upper
           (VideoQuery.mk None None None None None None) Crowd.world
           Sample.aliceVideo eq_refl eq_refl eq_refl eq_refl).
  - cbn. constructor; [|constructor; [tauto | constructor]].
    intros [H | []]. discriminate H.
  - reflexivity.
  - now left.
Defined.

(* ================================================================== *)
(** * Identifiers in another spelling *)

(** Bob has liked Alice's video.  He toggles under an upper-case spelling of
    its identifier: the record is found and deleted. *)
Example like_found_under_another_spelling :
  outcome (fst (toggleVideoLike Sample.isValidObjectId Sample.castObjectId
                                (Sample.asBob Sample.fresh1 99)
                                Sample.video1Upper Crowd.world))
  = (200%Z, Some (DIsLiked false))
  /\ likes (db (snd (toggleVideoLike Sample.isValidObjectId
                                     Sample.castObjectId
                                     (Sample.asBob Sample.fresh1 99)
                                     Sample.video1Upper Crowd.world)))
     = [Crowd.aliceLikesTweet].
Proof. split; reflexivity. Qed.

(** Alice's playlists, asked for under an upper-case spelling of her
    identifier: both are listed. *)
Example playlists_found_under_another_spelling :
  exists l w',
    getUserPlaylists Sample.isValidObjectId Sample.castObjectId
                     Sample.aliceUpper Sample.world
    = (inr (respond 200 (DPlaylists l) "User playlists fetched successfully"),
       w')
    /\ map psId l = [Sample.playlist1; Sample.playlist2].
Proof. do 2 eexists. split; reflexivity. Qed.

(** The membership test of the add path is the only place where the
    spelling matters: the string is well formed, the ObjectId it spells is
    in the sequence, and the test does not find it. *)
Example includes_compares_the_spelling :
  includes [Sample.video1] Sample.video1 = true
  /\ includes [Sample.video1] Sample.video1Upper = false
  /\ Sample.castObjectId Sample.video1Upper = Sample.video1.
Proof. repeat split. Qed.
